(** * Real-time task-update delivery: a shallow embedding

    This development embeds the two service modules of the dashboard

    - [src/services/api.ts]       (class [ApiService], the local-storage
                                   task history), and
    - [src/services/websocket.ts] (class [WebSocketService], one live
                                   channel per task with reconnection and
                                   polling fallback)

    as functions over an explicit world state, and proves properties of the
    embedded code.  The browser objects the code talks to (WebSocket
    instances, timers, [localStorage], the console, toasts, the status
    request) are part of the world; what the browser does next is an
    [Event] chosen by the environment. *)

From Stdlib Require Import ZArith Lia.
From stdpp Require Import gmap strings list fin_maps.

Open Scope string_scope.
Open Scope list_scope.

(* ===================================================================== *)
(** ** JSON values and JavaScript objects *)
(* ===================================================================== *)

(** A value produced by [JSON.parse].  Numbers are opaque payload for the
    code (it never computes with a received number), they are kept as
    integers here. *)
#[warnings="-register-all"]
Inductive JVal : Type :=
| JNull
| JBool (b : bool)
| JNum (n : Z)
| JStr (s : string)
| JArr (l : list JVal)
| JObj (o : list (string * JVal)).

(** A JavaScript value as the code sees it: [None] is [undefined]. *)
Abbreviation JsVal := (option JVal).

(** Property lists in insertion order.  [Rec] is an object as it is stored
    (after [JSON.stringify], where a property can not be [undefined]);
    [Obj] is an object literal of the code, whose properties can. *)
Abbreviation Rec := (list (string * JVal)).
Abbreviation Obj := (list (string * JsVal)).

(** Objects and [Map]s both keep their keys in insertion order. *)
Module OMap.
(** [o[k]], [m.get(k)]: the first entry named [k]. *)
Fixpoint get {A} (k : string) (o : list (string * A)) : option A :=
  match o with
  | [] => None
  | (k', v) :: o' => if String.eqb k' k then Some v else get k o'
  end.

(** [o[k] = v], [m.set(k, v)]: an existing entry keeps its place, a new one
    goes last. *)
Fixpoint set {A} (k : string) (v : A) (o : list (string * A)) : list (string * A) :=
  match o with
  | [] => [(k, v)]
  | (k', v') :: o' =>
      if String.eqb k' k then (k, v) :: o' else (k', v') :: set k v o'
  end.

(** [m.delete(k)] *)
Definition delete {A} (k : string) (o : list (string * A)) : list (string * A) :=
  List.filter (fun kv => negb (String.eqb kv.1 k)) o.

(** [m.has(k)] *)
Definition has {A} (k : string) (o : list (string * A)) : bool :=
  match get k o with Some _ => true | None => false end.

(** [m.keys()] *)
Definition keys {A} (o : list (string * A)) : list string := map fst o.

(** [{ ...a, ...b }]: the properties of [b] are assigned over a copy of [a],
    in order.  A property of [b] that is [undefined] is assigned too. *)
Definition spread {A} (a b : list (string * A)) : list (string * A) :=
  foldl (fun acc kv => set kv.1 kv.2 acc) a b.

(** A stored record read back as an object. *)
Definition of_rec (r : Rec) : Obj := map (fun kv => (kv.1, Some kv.2)) r.

(** [JSON.parse (JSON.stringify o)]: properties that are [undefined] are
    left out. *)
Definition to_rec (o : Obj) : Rec :=
  omap (fun kv => match kv.2 with Some v => Some (kv.1, v) | None => None end) o.
End OMap.

(** [findIndex]: the index of the first element that satisfies [p]
    ([None] stands for -1). *)
Fixpoint findIndex {A} (p : A -> bool) (l : list A) : option nat :=
  match l with
  | [] => None
  | x :: l' => if p x then Some 0 else S <$> findIndex p l'
  end.

(* ===================================================================== *)
(** ** [ApiService]: the task history in local storage *)
(* ===================================================================== *)

Module ApiService.

(** The item ['taskHistory'] of [localStorage]: absent, a string that
    [JSON.parse] rejects, or the array of task records the service wrote
    (nothing else writes the item, and [setItem] does not fail). *)
Inductive Stored : Type :=
| NoItem
| BadItem
| Item (history : list Rec).

(** [t => t.id === taskId] *)
Definition has_id (taskId : string) (t : Rec) : bool :=
  match OMap.get "id" t with
  | Some (JStr s) => String.eqb s taskId
  | _ => false
  end.

(** [getLocalTaskHistory]: the parsed item, [[]] when there is none or when
    parsing throws. *)
Definition getLocalTaskHistory (st : Stored) : list Rec :=
  match st with
  | Item history => history
  | NoItem | BadItem => []
  end.

(** [{ ...history[i], ...updates }] as it is written back. *)
Definition merged (r : Rec) (updates : Obj) : Rec :=
  OMap.to_rec (OMap.spread (OMap.of_rec r) updates).

(** [updateTaskInHistory(taskId, updates)] *)
Definition updateTaskInHistory (taskId : string) (updates : Obj) (st : Stored) : Stored :=
  let history := getLocalTaskHistory st in
  match findIndex (has_id taskId) history with
  | Some taskIndex =>
      Item (alter (fun r => merged r updates) taskIndex history)
  | None => st
  end.

(** [saveTaskToHistory(task)] for [task = { id: taskId, ...fields }]: replace
    in place or put in front, keep the first 100. *)
Definition saveTaskToHistory (taskId : string) (fields : Rec) (st : Stored) : Stored :=
  let task := ("id", JStr taskId) :: fields in
  let history := getLocalTaskHistory st in
  let history' :=
    match findIndex (has_id taskId) history with
    | Some existingIndex =>
        alter (fun r => merged r (OMap.of_rec task)) existingIndex history
    | None => task :: history
    end in
  Item (take 100 history').

End ApiService.

(* ===================================================================== *)
(** ** The world of [WebSocketService] *)
(* ===================================================================== *)

(** [WebSocket.readyState] *)
Inductive ReadyState : Type := CONNECTING | OPEN | CLOSING | CLOSED.

Definition ReadyState_eqb (a b : ReadyState) : bool :=
  match a, b with
  | CONNECTING, CONNECTING | OPEN, OPEN | CLOSING, CLOSING | CLOSED, CLOSED => true
  | _, _ => false
  end.

(** A [WebSocket] object built by [connectToTask].  Its four handlers are
    closures over [taskId] and the object itself, so the object carries the
    task it was built for. *)
Record Socket : Type := {
  sock_task : string;
  sock_ready : ReadyState;
  sock_closing : option Z       (* the code passed to [close], once called *)
}.

(** A pending [setTimeout] of [handleReconnection]. *)
Record Timeout : Type := {
  to_handle : positive;
  to_task : string;
  to_attempt : nat;
  to_delay : Z                   (* milliseconds *)
}.

(** A registered observer; [cb_throws] says whether its body raises. *)
Record Callback : Type := { cb_id : nat; cb_throws : bool }.

(** The lines the code writes to the console. *)
Inductive ConsoleLine : Type :=
| LogConnected (taskId : string)
| ErrParse
| LogClosed (taskId : string) (code : Z)
| ErrSocket (taskId : string)
| ErrCreate (taskId : string)
| WarnUnknownType (type : string)
| WarnMaxAttempts (taskId : string)
| LogReconnect (taskId : string) (attempt : nat)
| LogStartPolling (taskId : string)
| ErrPolling (taskId : string)
| LogStoppedPolling (taskId : string)
| ErrTaskCallback
| ErrLogCallback
| ErrHistoryParse
| ErrApi.

(** What the service does to the outside, in order. *)
Inductive Action : Type :=
| Console (line : ConsoleLine)
| ToastSuccess (shown : JsVal)
| ToastError (shown : JsVal)
| CallTaskUpdate (cb : nat) (taskId : string) (updates : Obj)
| CallLog (cb : nat) (taskId : string) (log : JsVal)
| Persist (taskId : string) (updates : Obj).

Record World : Type := {
  (* the private fields of the class *)
  connections : list (string * nat);        (* Map taskId -> WebSocket *)
  reconnectAttempts : gmap string nat;
  pollingIntervals : gmap string positive;
  taskUpdateCallbacks : list Callback;
  logCallbacks : list Callback;
  (* the browser *)
  sockets : list Socket;                    (* every WebSocket built, by index *)
  timeouts : list Timeout;                  (* pending [setTimeout]s *)
  intervals : gmap positive string;         (* running [setInterval]s *)
  nextHandle : positive;                    (* next timer handle *)
  fetches : list string;                    (* status requests in flight *)
  storage : ApiService.Stored;              (* localStorage['taskHistory'] *)
  trace : list Action
}.

Definition maxReconnectAttempts : nat := 5.

Definition init : World := {|
  connections := []; reconnectAttempts := ∅; pollingIntervals := ∅;
  taskUpdateCallbacks := []; logCallbacks := [];
  sockets := []; timeouts := []; intervals := ∅; nextHandle := 1%positive;
  fetches := []; storage := ApiService.NoItem; trace := []
|}.

(** Field updates. *)
Definition set_connections (f : list (string * nat) -> list (string * nat)) (w : World) : World :=
  {| connections := f (connections w); reconnectAttempts := reconnectAttempts w;
     pollingIntervals := pollingIntervals w; taskUpdateCallbacks := taskUpdateCallbacks w;
     logCallbacks := logCallbacks w; sockets := sockets w; timeouts := timeouts w;
     intervals := intervals w; nextHandle := nextHandle w; fetches := fetches w;
     storage := storage w; trace := trace w |}.

Definition set_reconnectAttempts (f : gmap string nat -> gmap string nat) (w : World) : World :=
  {| connections := connections w; reconnectAttempts := f (reconnectAttempts w);
     pollingIntervals := pollingIntervals w; taskUpdateCallbacks := taskUpdateCallbacks w;
     logCallbacks := logCallbacks w; sockets := sockets w; timeouts := timeouts w;
     intervals := intervals w; nextHandle := nextHandle w; fetches := fetches w;
     storage := storage w; trace := trace w |}.

Definition set_pollingIntervals (f : gmap string positive -> gmap string positive) (w : World) : World :=
  {| connections := connections w; reconnectAttempts := reconnectAttempts w;
     pollingIntervals := f (pollingIntervals w); taskUpdateCallbacks := taskUpdateCallbacks w;
     logCallbacks := logCallbacks w; sockets := sockets w; timeouts := timeouts w;
     intervals := intervals w; nextHandle := nextHandle w; fetches := fetches w;
     storage := storage w; trace := trace w |}.

Definition set_taskUpdateCallbacks (f : list Callback -> list Callback) (w : World) : World :=
  {| connections := connections w; reconnectAttempts := reconnectAttempts w;
     pollingIntervals := pollingIntervals w; taskUpdateCallbacks := f (taskUpdateCallbacks w);
     logCallbacks := logCallbacks w; sockets := sockets w; timeouts := timeouts w;
     intervals := intervals w; nextHandle := nextHandle w; fetches := fetches w;
     storage := storage w; trace := trace w |}.

Definition set_logCallbacks (f : list Callback -> list Callback) (w : World) : World :=
  {| connections := connections w; reconnectAttempts := reconnectAttempts w;
     pollingIntervals := pollingIntervals w; taskUpdateCallbacks := taskUpdateCallbacks w;
     logCallbacks := f (logCallbacks w); sockets := sockets w; timeouts := timeouts w;
     intervals := intervals w; nextHandle := nextHandle w; fetches := fetches w;
     storage := storage w; trace := trace w |}.

Definition set_sockets (f : list Socket -> list Socket) (w : World) : World :=
  {| connections := connections w; reconnectAttempts := reconnectAttempts w;
     pollingIntervals := pollingIntervals w; taskUpdateCallbacks := taskUpdateCallbacks w;
     logCallbacks := logCallbacks w; sockets := f (sockets w); timeouts := timeouts w;
     intervals := intervals w; nextHandle := nextHandle w; fetches := fetches w;
     storage := storage w; trace := trace w |}.

Definition set_timeouts (f : list Timeout -> list Timeout) (w : World) : World :=
  {| connections := connections w; reconnectAttempts := reconnectAttempts w;
     pollingIntervals := pollingIntervals w; taskUpdateCallbacks := taskUpdateCallbacks w;
     logCallbacks := logCallbacks w; sockets := sockets w; timeouts := f (timeouts w);
     intervals := intervals w; nextHandle := nextHandle w; fetches := fetches w;
     storage := storage w; trace := trace w |}.

Definition set_intervals (f : gmap positive string -> gmap positive string) (w : World) : World :=
  {| connections := connections w; reconnectAttempts := reconnectAttempts w;
     pollingIntervals := pollingIntervals w; taskUpdateCallbacks := taskUpdateCallbacks w;
     logCallbacks := logCallbacks w; sockets := sockets w; timeouts := timeouts w;
     intervals := f (intervals w); nextHandle := nextHandle w; fetches := fetches w;
     storage := storage w; trace := trace w |}.

Definition set_nextHandle (f : positive -> positive) (w : World) : World :=
  {| connections := connections w; reconnectAttempts := reconnectAttempts w;
     pollingIntervals := pollingIntervals w; taskUpdateCallbacks := taskUpdateCallbacks w;
     logCallbacks := logCallbacks w; sockets := sockets w; timeouts := timeouts w;
     intervals := intervals w; nextHandle := f (nextHandle w); fetches := fetches w;
     storage := storage w; trace := trace w |}.

Definition set_fetches (f : list string -> list string) (w : World) : World :=
  {| connections := connections w; reconnectAttempts := reconnectAttempts w;
     pollingIntervals := pollingIntervals w; taskUpdateCallbacks := taskUpdateCallbacks w;
     logCallbacks := logCallbacks w; sockets := sockets w; timeouts := timeouts w;
     intervals := intervals w; nextHandle := nextHandle w; fetches := f (fetches w);
     storage := storage w; trace := trace w |}.

Definition set_storage (f : ApiService.Stored -> ApiService.Stored) (w : World) : World :=
  {| connections := connections w; reconnectAttempts := reconnectAttempts w;
     pollingIntervals := pollingIntervals w; taskUpdateCallbacks := taskUpdateCallbacks w;
     logCallbacks := logCallbacks w; sockets := sockets w; timeouts := timeouts w;
     intervals := intervals w; nextHandle := nextHandle w; fetches := fetches w;
     storage := f (storage w); trace := trace w |}.

Definition set_trace (f : list Action -> list Action) (w : World) : World :=
  {| connections := connections w; reconnectAttempts := reconnectAttempts w;
     pollingIntervals := pollingIntervals w; taskUpdateCallbacks := taskUpdateCallbacks w;
     logCallbacks := logCallbacks w; sockets := sockets w; timeouts := timeouts w;
     intervals := intervals w; nextHandle := nextHandle w; fetches := fetches w;
     storage := storage w; trace := f (trace w) |}.

(** One more action at the end of the trace. *)
Definition emit (a : Action) : World -> World := set_trace (fun tr => tr ++ [a]).
Definition console (line : ConsoleLine) : World -> World := emit (Console line).

(** [f >>> g]: the statement [f], then the statement [g]. *)
Definition andThen (f g : World -> World) : World -> World := fun w => g (f w).
Infix ">>>" := andThen (at level 62, left associativity).
Definition skip : World -> World := fun w => w.

(* ===================================================================== *)
(** ** [WebSocketService] *)
(* ===================================================================== *)

(** [WebSocketMessage], the wire shape of a message: what parses is taken to
    have this shape, [data] being any value or missing. *)
Record WebSocketMessage : Type := {
  m_type : string;
  m_task_id : string;
  m_data : JsVal
}.

(** [event.data] of a message event, by what [JSON.parse] makes of it. *)
Inductive RawMessage : Type :=
| Malformed                          (* [JSON.parse] throws *)
| Wire (message : WebSocketMessage).

(** Code that can throw returns an [option]: [None] is the exception. *)
Definition JSON_parse (raw : RawMessage) : option WebSocketMessage :=
  match raw with
  | Malformed => None
  | Wire message => Some message
  end.

(** [d.k]: a TypeError on [undefined] and [null], the property of an object,
    [undefined] on every other value (none has a property of the names the
    service reads). *)
Definition prop (d : JsVal) (k : string) : option JsVal :=
  match d with
  | None | Some JNull => None
  | Some (JObj o) => Some (OMap.get k o)
  | Some _ => Some None
  end.

Definition truthy (v : JsVal) : bool :=
  match v with
  | None | Some JNull => false
  | Some (JBool b) => b
  | Some (JNum n) => negb (Z.eqb n 0)
  | Some (JStr s) => negb (String.eqb s "")
  | Some (JArr _) | Some (JObj _) => true
  end.

(** [a || b] *)
Definition js_or (a : JsVal) (b : JVal) : JsVal := if truthy a then a else Some b.

(** The result of the status request of a polling tick: the object of the
    response ([Partial<Task>]), or the failure of the request. *)
Inductive FetchResult : Type :=
| FetchOk (status : Rec)
| FetchFail (message : string).

(** The delay of the reconnection after [attempts] earlier ones, in
    milliseconds: [Math.min(1000 * Math.pow(2, attempts), 30000)].  On a
    natural number the doubles of the code are exact, and the minimum is 30000
    as soon as the power exceeds 30. *)
Definition backoffDelay (attempts : nat) : Z :=
  Z.min (1000 * 2 ^ Z.of_nat attempts) 30000.

(** [ws.close(code, reason)]: nothing on a socket that is closing or closed. *)
Definition ws_close (ws : nat) (code : Z) : World -> World :=
  set_sockets (alter (fun sk =>
    match sock_ready sk with
    | CLOSING | CLOSED => sk
    | CONNECTING | OPEN =>
        {| sock_task := sock_task sk; sock_ready := CLOSING; sock_closing := Some code |}
    end) ws).

Definition set_ready (ws : nat) (r : ReadyState) : World -> World :=
  set_sockets (alter (fun sk =>
    {| sock_task := sock_task sk; sock_ready := r; sock_closing := sock_closing sk |}) ws).

(** [setTimeout(callback, delay)] of [handleReconnection]. *)
Definition setTimeout (taskId : string) (attempt : nat) (delay : Z) : World -> World :=
  fun w =>
    set_nextHandle Pos.succ
      (set_timeouts (fun l => l ++ [{| to_handle := nextHandle w; to_task := taskId;
                                       to_attempt := attempt; to_delay := delay |}]) w).

(** [ApiService.updateTaskInHistory] as the service calls it: the call, the
    console line of [getLocalTaskHistory] on an item that does not parse, the
    write. *)
Definition updateTaskInHistory (taskId : string) (updates : Obj) : World -> World :=
  emit (Persist taskId updates) >>>
  (fun w => match storage w with
            | ApiService.BadItem => console ErrHistoryParse w
            | _ => w
            end) >>>
  set_storage (ApiService.updateTaskInHistory taskId updates).

(** One observer called inside its try/catch. *)
Definition callTaskUpdate (taskId : string) (updates : Obj) (w : World) (cb : Callback) : World :=
  (emit (CallTaskUpdate (cb_id cb) taskId updates) >>>
   (if cb_throws cb then console ErrTaskCallback else skip)) w.

Definition callLog (taskId : string) (log : JsVal) (w : World) (cb : Callback) : World :=
  (emit (CallLog (cb_id cb) taskId log) >>>
   (if cb_throws cb then console ErrLogCallback else skip)) w.

(** [notifyTaskUpdate] *)
Definition notifyTaskUpdate (taskId : string) (updates : Obj) : World -> World :=
  (fun w => foldl (callTaskUpdate taskId updates) w (taskUpdateCallbacks w)) >>>
  updateTaskInHistory taskId updates.

(** [notifyLog] *)
Definition notifyLog (taskId : string) (log : JsVal) : World -> World :=
  fun w => foldl (callLog taskId log) w (logCallbacks w).

(** [stopPolling] *)
Definition stopPolling (taskId : string) : World -> World :=
  fun w =>
    match pollingIntervals w !! taskId with
    | Some interval =>
        (set_intervals (delete interval) >>>
         set_pollingIntervals (delete taskId) >>>
         console (LogStoppedPolling taskId)) w
    | None => w
    end.

(** [fallbackToPolling]; the body of the interval is [pollTick] and
    [pollSettled] below. *)
Definition fallbackToPolling (taskId : string) : World -> World :=
  fun w =>
    match pollingIntervals w !! taskId with
    | Some _ => w
    | None =>
        (console (LogStartPolling taskId) >>>
         set_intervals <[nextHandle w := taskId]> >>>
         set_nextHandle Pos.succ >>>
         set_pollingIntervals <[taskId := nextHandle w]>) w
    end.

(** [handleReconnection] *)
Definition handleReconnection (taskId : string) : World -> World :=
  fun w =>
    let attempts := default 0 (reconnectAttempts w !! taskId) in
    if (maxReconnectAttempts <=? attempts)%nat then
      (console (WarnMaxAttempts taskId) >>> fallbackToPolling taskId) w
    else
      let delay := backoffDelay attempts in
      (set_reconnectAttempts <[taskId := attempts + 1]> >>>
       setTimeout taskId (attempts + 1) delay) w.

(** [disconnect] *)
Definition disconnect (taskId : string) : World -> World :=
  (fun w => match OMap.get taskId (connections w) with
            | Some ws => (ws_close ws 1000 >>> set_connections (OMap.delete taskId)) w
            | None => w
            end) >>>
  stopPolling taskId >>>
  set_reconnectAttempts (delete taskId).

(** [disconnectAll]: the loop visits the keys of [connections]; an entry
    deleted by the body is the one being visited. *)
Definition disconnectAll : World -> World :=
  fun w => foldl (fun acc taskId => disconnect taskId acc) w (OMap.keys (connections w)).

(** [handleWebSocketMessage]; [now] is [new Date().toISOString()].  Reading a
    property of [data] is what can throw, before anything is done. *)
Definition handleWebSocketMessage (now : string) (message : WebSocketMessage)
    (w : World) : option World :=
  let type := m_type message in
  let task_id := m_task_id message in
  let data := m_data message in
  if String.eqb type "status" then
    status ← prop data "status";
    progress ← prop data "progress";
    Some (notifyTaskUpdate task_id [("status", status); ("progress", progress)] w)
  else if String.eqb type "progress" then
    progress ← prop data "progress";
    Some (notifyTaskUpdate task_id [("progress", progress)] w)
  else if String.eqb type "log" then
    log ← prop data "message";
    Some (notifyLog task_id log w)
  else if String.eqb type "completed" then
    result ← prop data "result";
    shown ← prop data "message";
    Some ((notifyTaskUpdate task_id
             [("status", Some (JStr "completed")); ("completed_at", Some (JStr now));
              ("result", result); ("progress", Some (JNum 100))] >>>
           emit (ToastSuccess (js_or shown (JStr "Success"))) >>>
           disconnect task_id) w)
  else if String.eqb type "failed" then
    error ← prop data "error";
    Some ((notifyTaskUpdate task_id
             [("status", Some (JStr "failed")); ("completed_at", Some (JStr now));
              ("error", error)] >>>
           emit (ToastError (js_or error (JStr "Unknown error"))) >>>
           disconnect task_id) w)
  else
    Some (console (WarnUnknownType type) w).

Section Service.

(** Whether [new WebSocket(url)] throws for the URL of a task (a URL the
    constructor rejects). *)
Variable ws_ctor_throws : string -> bool.

(** [connectToTask]: the object is built and its handlers are set; it enters
    [connections] in [onopen] only. *)
Definition connectToTask (taskId : string) : World -> World :=
  fun w =>
    if OMap.has taskId (connections w) then w
    else if ws_ctor_throws taskId then
      (console (ErrCreate taskId) >>> fallbackToPolling taskId) w
    else
      set_sockets (fun l => l ++ [{| sock_task := taskId; sock_ready := CONNECTING;
                                     sock_closing := None |}]) w.

(** The four handlers that [connectToTask] sets on the socket [ws] of
    [taskId]. *)
Definition ws_onopen (taskId : string) (ws : nat) : World -> World :=
  console (LogConnected taskId) >>>
  set_connections (OMap.set taskId ws) >>>
  set_reconnectAttempts (delete taskId) >>>
  stopPolling taskId.

Definition ws_onmessage (raw : RawMessage) (now : string) : World -> World :=
  fun w =>
    match JSON_parse raw ≫= (fun message => handleWebSocketMessage now message w) with
    | Some w' => w'
    | None => console ErrParse w
    end.

Definition ws_onclose (taskId : string) (code : Z) : World -> World :=
  console (LogClosed taskId code) >>>
  set_connections (OMap.delete taskId) >>>
  (if Z.eqb code 1000 then skip else handleReconnection taskId).

Definition ws_onerror (taskId : string) : World -> World :=
  console (ErrSocket taskId) >>>
  handleReconnection taskId.

(** The callback of the [setTimeout] of [handleReconnection]. *)
Definition reconnectTimer (tm : Timeout) : World -> World :=
  console (LogReconnect (to_task tm) (to_attempt tm)) >>>
  connectToTask (to_task tm).

(** The callback of the [setInterval] of [fallbackToPolling], up to its
    [await]: the status request leaves. *)
Definition pollTick (taskId : string) : World -> World :=
  set_fetches (fun l => l ++ [taskId]).

(** ... and after it.  A failed request went through the response
    interceptor of [api.ts] first. *)
Definition pollSettled (taskId : string) (res : FetchResult) : World -> World :=
  match res with
  | FetchOk status =>
      notifyTaskUpdate taskId (OMap.of_rec status) >>>
      (match OMap.get "status" status with
       | Some (JStr s) =>
           if String.eqb s "completed" || String.eqb s "failed"
           then stopPolling taskId else skip
       | _ => skip
       end)
  | FetchFail message =>
      console ErrApi >>> emit (ToastError (Some (JStr message))) >>>
      console (ErrPolling taskId)
  end.

(** [onTaskUpdate], [onLog] and the unsubscribe functions they return
    ([indexOf] then [splice]: the first registration of that callback). *)
Definition onTaskUpdate (cb : Callback) : World -> World :=
  set_taskUpdateCallbacks (fun l => l ++ [cb]).

Definition onLog (cb : Callback) : World -> World :=
  set_logCallbacks (fun l => l ++ [cb]).

Definition removeCallback (id : nat) (l : list Callback) : list Callback :=
  match findIndex (fun cb => Nat.eqb (cb_id cb) id) l with
  | Some index => delete index l
  | None => l
  end.

Definition offTaskUpdate (id : nat) : World -> World :=
  set_taskUpdateCallbacks (removeCallback id).

Definition offLog (id : nat) : World -> World :=
  set_logCallbacks (removeCallback id).

(** [isConnected], [getActiveConnections] *)
Definition isConnected (taskId : string) (w : World) : bool :=
  match OMap.get taskId (connections w) ≫= (fun ws => sockets w !! ws) with
  | Some sk => ReadyState_eqb (sock_ready sk) OPEN
  | None => false
  end.

Definition getActiveConnections (w : World) : list string :=
  OMap.keys (connections w).

(* --------------------------------------------------------------------- *)
(** *** What can happen next *)
(* --------------------------------------------------------------------- *)

Inductive Event : Type :=
(* calls of the application *)
| CallConnect (taskId : string)
| CallDisconnect (taskId : string)
| CallDisconnectAll
| CallOnTaskUpdate (cb : Callback)
| CallOnLog (cb : Callback)
| CallOffTaskUpdate (id : nat)
| CallOffLog (id : nat)
(* the browser *)
| SocketOpen (ws : nat)
| SocketMessage (ws : nat) (raw : RawMessage) (now : string)
| SocketError (ws : nat)
| SocketClose (ws : nat) (code : Z)
| TimeoutFires (handle : positive)
| IntervalFires (handle : positive)
| FetchSettles (k : nat) (res : FetchResult)
(* the server starts the closing handshake of a socket *)
| SocketClosing (ws : nat).

Definition find_timeout (handle : positive) (l : list Timeout) : option Timeout :=
  List.find (fun tm => Pos.eqb (to_handle tm) handle) l.

Definition drop_timeout (handle : positive) (l : list Timeout) : list Timeout :=
  List.filter (fun tm => negb (Pos.eqb (to_handle tm) handle)) l.

(** One event; [None] when the browser can not produce it in [w]: a socket
    opens once, delivers messages while open, fires nothing once closed; a
    timer fires while it is set; a request settles once.  When the server
    starts the closing handshake of an open socket, the socket reads CLOSING
    from then on, and no handler runs before its close event. *)
Definition step (e : Event) (w : World) : option World :=
  match e with
  | CallConnect taskId => Some (connectToTask taskId w)
  | CallDisconnect taskId => Some (disconnect taskId w)
  | CallDisconnectAll => Some (disconnectAll w)
  | CallOnTaskUpdate cb => Some (onTaskUpdate cb w)
  | CallOnLog cb => Some (onLog cb w)
  | CallOffTaskUpdate id => Some (offTaskUpdate id w)
  | CallOffLog id => Some (offLog id w)
  | SocketOpen ws =>
      sk ← sockets w !! ws;
      match sock_ready sk with
      | CONNECTING => Some ((set_ready ws OPEN >>> ws_onopen (sock_task sk) ws) w)
      | _ => None
      end
  | SocketMessage ws raw now =>
      sk ← sockets w !! ws;
      match sock_ready sk with
      | OPEN => Some (ws_onmessage raw now w)
      | _ => None
      end
  | SocketError ws =>
      sk ← sockets w !! ws;
      match sock_ready sk with
      | CLOSED => None
      | _ => Some (ws_onerror (sock_task sk) w)
      end
  | SocketClose ws code =>
      sk ← sockets w !! ws;
      match sock_ready sk with
      | CLOSED => None
      | _ => Some ((set_ready ws CLOSED >>> ws_onclose (sock_task sk) code) w)
      end
  | TimeoutFires handle =>
      tm ← find_timeout handle (timeouts w);
      Some ((set_timeouts (drop_timeout handle) >>> reconnectTimer tm) w)
  | IntervalFires handle =>
      taskId ← intervals w !! handle;
      Some (pollTick taskId w)
  | FetchSettles k res =>
      taskId ← fetches w !! k;
      Some ((set_fetches (delete k) >>> pollSettled taskId res) w)
  | SocketClosing ws =>
      sk ← sockets w !! ws;
      match sock_ready sk with
      | OPEN => Some (set_ready ws CLOSING w)
      | _ => None
      end
  end.

(** A sequence of events, from left to right. *)
Fixpoint run (es : list Event) (w : World) : option World :=
  match es with
  | [] => Some w
  | e :: es' => step e w ≫= run es'
  end.

End Service.

(* ===================================================================== *)
(** ** Vocabulary of the statements *)
(* ===================================================================== *)

(** The constructor accepts every URL. *)
Definition accepts_all : string -> bool := fun _ => false.

(** The sockets built for a task that have not closed. *)
Definition live_sockets (taskId : string) (w : World) : list Socket :=
  List.filter (fun sk => String.eqb (sock_task sk) taskId &&
                         negb (ReadyState_eqb (sock_ready sk) CLOSED)) (sockets w).

(** Every socket built so far has closed. *)
Definition all_closed (w : World) : bool :=
  forallb (fun sk => ReadyState_eqb (sock_ready sk) CLOSED) (sockets w).

(** The table of connections is a map, and its sockets are open sockets of
    their tasks. *)
Definition registered_open (w : World) : Prop :=
  NoDup (OMap.keys (connections w)) ∧
  ∀ taskId ws, OMap.get taskId (connections w) = Some ws →
    ∃ sk, sockets w !! ws = Some sk ∧ sock_task sk = taskId ∧ sock_ready sk = OPEN.

(** The table of connections is a map, and its sockets were built for their
    tasks. *)
Definition registered_own (w : World) : Prop :=
  NoDup (OMap.keys (connections w)) ∧
  ∀ taskId ws, OMap.get taskId (connections w) = Some ws →
    ∃ sk, sockets w !! ws = Some sk ∧ sock_task sk = taskId.

(** ... and they have opened and their close event has not come: they read
    OPEN, or CLOSING once the server has started the closing handshake. *)
Definition registered_live (w : World) : Prop :=
  NoDup (OMap.keys (connections w)) ∧
  ∀ taskId ws, OMap.get taskId (connections w) = Some ws →
    ∃ sk, sockets w !! ws = Some sk ∧ sock_task sk = taskId ∧
          (sock_ready sk = OPEN ∨ sock_ready sk = CLOSING).

(** A statement that leaves the table and the sockets alone. *)
Definition keeps_channels (f : World → World) : Prop :=
  ∀ w, connections (f w) = connections w ∧ sockets (f w) = sockets w.

Section FailingRuns.
Variable ws_ctor_throws : string → bool.

(** A failure reported for a task: the error event, or a close event with a
    code other than 1000, of one of its sockets. *)
Definition failure_event (taskId : string) (e : Event) (w : World) : bool :=
  match e with
  | SocketError ws =>
      match sockets w !! ws with
      | Some sk => String.eqb (sock_task sk) taskId
      | None => false
      end
  | SocketClose ws code =>
      negb (Z.eqb code 1000) &&
      match sockets w !! ws with
      | Some sk => String.eqb (sock_task sk) taskId
      | None => false
      end
  | _ => false
  end.

(** A reconnect timer of the task fires. *)
Definition retry_event (taskId : string) (e : Event) (w : World) : bool :=
  match e with
  | TimeoutFires handle =>
      match find_timeout handle (timeouts w) with
      | Some tm => String.eqb (to_task tm) taskId
      | None => false
      end
  | _ => false
  end.

(** [failing_run taskId n w w']: from [w] to [w'] the channel of the task only
    fails and retries, [n] failures in all: no socket opens, nobody calls
    [connectToTask] or [disconnect]. *)
Inductive failing_run (taskId : string) : nat → World → World → Prop :=
| fr_done w :
    failing_run taskId 0 w w
| fr_failure n e w w1 w' :
    failure_event taskId e w = true →
    step ws_ctor_throws e w = Some w1 →
    failing_run taskId n w1 w' →
    failing_run taskId (S n) w w'
| fr_retry n e w w1 w' :
    retry_event taskId e w = true →
    step ws_ctor_throws e w = Some w1 →
    failing_run taskId n w1 w' →
    failing_run taskId n w w'.

(** The state of the task after [k] failures in a row. *)
Definition after_failures (taskId : string) (k : nat) (w : World) : Prop :=
  default 0 (reconnectAttempts w !! taskId) = (k `min` maxReconnectAttempts)%nat ∧
  ((k ≤ maxReconnectAttempts)%nat → pollingIntervals w !! taskId = None) ∧
  ((maxReconnectAttempts < k)%nat → is_Some (pollingIntervals w !! taskId)).

End FailingRuns.

(** Replaying a list of events as a failing run. *)
Fixpoint replay_failing (taskId : string) (es : list Event) (w : World)
    : option (nat * World) :=
  match es with
  | [] => Some (0%nat, w)
  | e :: es' =>
      if failure_event taskId e w then
        w1 ← step accepts_all e w;
        r ← replay_failing taskId es' w1;
        Some (S r.1, r.2)
      else if retry_event taskId e w then
        w1 ← step accepts_all e w;
        replay_failing taskId es' w1
      else None
  end.

(** The observer calls in a trace. *)
Definition is_delivery (a : Action) : bool :=
  match a with
  | CallTaskUpdate _ _ _ | CallLog _ _ _ => true
  | _ => false
  end.

Definition deliveries (tr : list Action) : list Action := List.filter is_delivery tr.

(** The calls of [ApiService.updateTaskInHistory] in a trace. *)
Definition is_persist (a : Action) : bool :=
  match a with Persist _ _ => true | _ => false end.

Definition persists (tr : list Action) : list Action := List.filter is_persist tr.

(** The actions of the callback loop of [notifyTaskUpdate] and [notifyLog]. *)
Definition update_calls (taskId : string) (updates : Obj) (cbs : list Callback) : list Action :=
  flat_map (fun cb => CallTaskUpdate (cb_id cb) taskId updates ::
                      (if cb_throws cb then [Console ErrTaskCallback] else [])) cbs.

Definition log_calls (taskId : string) (log : JsVal) (cbs : list Callback) : list Action :=
  flat_map (fun cb => CallLog (cb_id cb) taskId log ::
                      (if cb_throws cb then [Console ErrLogCallback] else [])) cbs.

(** The console line of [getLocalTaskHistory] inside the write-through. *)
Definition history_warning (st : ApiService.Stored) : list Action :=
  match st with
  | ApiService.BadItem => [Console ErrHistoryParse]
  | _ => []
  end.

(** A message with an object as [data], as the handler of the socket gets it. *)
Definition message_event (type taskId : string) (d : Rec) : RawMessage :=
  Wire {| m_type := type; m_task_id := taskId; m_data := Some (JObj d) |}.

(** The service writes to the trace and never reads it: a statement is
    [appending] when running it on another trace gives the same world with the
    same actions added. *)
Definition retrace (tr : list Action) : World → World := set_trace (fun _ => tr).

Definition appending (f : World → World) : Prop :=
  ∀ w, ∃ acts, ∀ tr, f (retrace tr w) = retrace (tr ++ acts) (f w).

(* ===================================================================== *)
(** ** Scenarios *)
(* ===================================================================== *)

(** A stored history of two tasks. *)
Definition sample_history : list Rec :=
  [ [("id", JStr "t1"); ("name", JStr "approve_batches"); ("status", JStr "pending")];
    [("id", JStr "t2"); ("name", JStr "download_reports"); ("status", JStr "running");
     ("progress", JNum 40)] ].

(** One task, connected. *)
Definition one_open_channel : World :=
  default init (run accepts_all [CallConnect "t1"; SocketOpen 0] init).

(** One task, its first socket still connecting. *)
Definition connecting : World := connectToTask accepts_all "t1" init.

(** One socket per attempt, each closed abnormally before it opened, each
    reconnect timer firing before the next failure. *)
Definition five_failed_attempts : list Event :=
  [ CallConnect "t1"; SocketClose 0 1006;
    TimeoutFires 1; SocketClose 1 1006;
    TimeoutFires 2; SocketClose 2 1006;
    TimeoutFires 3; SocketClose 3 1006;
    TimeoutFires 4; SocketClose 4 1006 ].

(** ... and the attempt of the fifth timer failing as well. *)
Definition six_failures : World :=
  default init
    (run accepts_all (five_failed_attempts ++ [TimeoutFires 5; SocketClose 5 1006]) init).

(** The polled task is subscribed again; its new socket is connecting. *)
Definition polled_then_reconnected : World :=
  default init (step accepts_all (CallConnect "t1") six_failures).

(** A server that accepts one connection of the task and refuses the others.
    The first socket fails; its error and its close event each set a reconnect
    timer; the socket of the first timer opens, the socket of the second fails,
    and so do the two its failure brings about. *)
Definition one_accepted_others_refused : list Event :=
  [ CallOnTaskUpdate {| cb_id := 1; cb_throws := false |};
    CallConnect "t1";
    SocketError 0; SocketClose 0 1006;
    TimeoutFires 1; TimeoutFires 2;
    SocketOpen 1;
    SocketError 2; SocketClose 2 1006;
    TimeoutFires 3; TimeoutFires 4;
    SocketError 3; SocketClose 3 1006;
    SocketError 4; SocketClose 4 1006 ].

(** Then the open socket delivers a progress message and a polling tick
    fetches the same progress. *)
Definition pushed_and_polled : list Event :=
  [ SocketMessage 1
      (Wire {| m_type := "progress"; m_task_id := "t1";
               m_data := Some (JObj [("progress", JNum 10)]) |}) "2024-01-01T00:00:00.000Z";
    IntervalFires 8;
    FetchSettles 0 (FetchOk [("status", JStr "running"); ("progress", JNum 10)]) ].

(** Seven calls of [connectToTask] before any socket opens; the server accepts
    the first socket and refuses the six others, whose error events come
    before their close events. *)
Definition seven_subscriptions : list Event :=
  [ CallConnect "t1"; CallConnect "t1"; CallConnect "t1"; CallConnect "t1";
    CallConnect "t1"; CallConnect "t1"; CallConnect "t1";
    SocketOpen 0;
    SocketError 1; SocketError 2; SocketError 3;
    SocketError 4; SocketError 5; SocketError 6 ].

(** One task, connected, with a task-update observer and a log observer. *)
Definition watched : World :=
  default init
    (run accepts_all
       [ CallOnTaskUpdate {| cb_id := 1; cb_throws := false |};
         CallOnLog {| cb_id := 2; cb_throws := false |};
         CallConnect "t1"; SocketOpen 0 ] init).

(** ... and with a stored history. *)
Definition stored_and_watched : World :=
  set_storage (fun _ => ApiService.Item sample_history) watched.

(* ===================================================================== *)
(** ** The page that uses the services *)
(* ===================================================================== *)

(** The state updaters of the dashboard page ([Dashboard]), which registers
    [handleTaskUpdate] and [handleLogUpdate] with the service, and the counts
    the page and the analytics tab show. *)
Module Dashboard.

(** [task.id === taskId] on a task held by the page. *)
Definition is_task (taskId : string) (task : Obj) : bool :=
  match OMap.get "id" task with
  | Some (Some (JStr s)) => String.eqb s taskId
  | _ => false
  end.

(** [handleTaskUpdate], the updater it gives to [setTasks]:
    [prevTasks.map(task => task.id === taskId ? { ...task, ...updates } : task)]. *)
Definition handleTaskUpdate (taskId : string) (updates : Obj) (tasks : list Obj) : list Obj :=
  map (fun task => if is_task taskId task then OMap.spread task updates else task) tasks.

(** The names a plain object inherits from [Object.prototype]: each reads
    as a function, [__proto__] as the prototype itself. *)
Definition inherited_names : list string :=
  [ "constructor"; "__defineGetter__"; "__defineSetter__"; "hasOwnProperty";
    "__lookupGetter__"; "__lookupSetter__"; "isPrototypeOf"; "propertyIsEnumerable";
    "toString"; "valueOf"; "__proto__"; "toLocaleString" ].

Definition inherited (k : string) : bool := existsb (String.eqb k) inherited_names.

(** [handleLogUpdate], the updater it gives to [setTaskLogs]:
    [{ ...prevLogs, [taskId]: [...(prevLogs[taskId] || []), log] }].  The logs
    are a plain object that starts as [{}]; a list of own properties stands
    for it.  [prevLogs[taskId]] is the own property when there is one, an
    array; without one it is [undefined], unless [taskId] is an inherited
    name: then it is a function (or the prototype), which [||] lets through
    and which the spread into the array rejects with a TypeError ([None]). *)
Definition handleLogUpdate (taskId : string) (log : JsVal)
    (logs : list (string * list JsVal)) : option (list (string * list JsVal)) :=
  match OMap.get taskId logs with
  | Some lines => Some (OMap.set taskId (lines ++ [log]) logs)
  | None =>
      if inherited taskId then None
      else Some (OMap.set taskId [log] logs)
  end.

(** The logs of the page after the calls of its log observer, in order;
    [None] once an updater has thrown. *)
Definition handleLogUpdates (calls : list (string * JsVal))
    (logs : list (string * list JsVal)) : option (list (string * list JsVal)) :=
  foldl (fun acc call => acc ≫= handleLogUpdate call.1 call.2) (Some logs) calls.

(** [statusCounts] of the page, over the statuses of its tasks:
    [acc[task.status] = (acc[task.status] || 0) + 1]. *)
Definition statusCounts (statuses : list string) : list (string * nat) :=
  foldl (fun acc status => OMap.set status (default 0 (OMap.get status acc) + 1)%nat acc)
    [] statuses.

(** A count as the page shows it: [statusCounts.completed || 0]. *)
Definition shown (status : string) (counts : list (string * nat)) : nat :=
  default 0%nat (OMap.get status counts).

(** A count of the analytics tab:
    [tasks.filter(t => t.status === 'completed').length]. *)
Definition analyticsCount (status : string) (statuses : list string) : nat :=
  length (List.filter (fun s => String.eqb s status) statuses).

(** The part of [loadTaskHistory] that subscribes: [connectToTask] for every
    task of the history that is running or pending, in order.  A task is given
    by its [id] and its [status]. *)
Definition connectRunning (ws_ctor_throws : string → bool)
    (history : list (string * string)) : World → World :=
  fun w =>
    foldl (fun acc task => connectToTask ws_ctor_throws task.1 acc) w
      (List.filter (fun task => String.eqb task.2 "running" || String.eqb task.2 "pending")
         history).

End Dashboard.

(** [handleSubmit] of the task form: the values that are neither [''] nor
    [undefined], assigned to a fresh object in the order of the entries. *)
Definition cleanedValues (values : Obj) : Obj :=
  foldl (fun acc kv =>
           match kv.2 with
           | None => acc
           | Some (JStr "") => acc
           | Some _ => OMap.set kv.1 kv.2 acc
           end) [] values.

(** The socket that [connectToTask] builds. *)
Definition new_socket (taskId : string) : Socket :=
  {| sock_task := taskId; sock_ready := CONNECTING; sock_closing := None |}.

(** What the service holds for a task: its socket in [connections], its
    reconnect counter, its polling timer. *)
Definition entry (taskId : string) (w : World) : option nat * option nat * option positive :=
  (OMap.get taskId (connections w), reconnectAttempts w !! taskId,
   pollingIntervals w !! taskId).


(** Counters, reconnect timers and polling timers are in order: a counter is
    between 1 and the maximum; a pending reconnect timer belongs to an attempt
    between 1 and the maximum and has the delay of that attempt; the running
    intervals are the registered polling timers, one for one; and every timer
    handle in use is below the next handle. *)
Definition timers_in_order (w : World) : Prop :=
  (∀ taskId n, reconnectAttempts w !! taskId = Some n →
     (1 ≤ n ≤ maxReconnectAttempts)%nat) ∧
  Forall (fun tm => (1 ≤ to_attempt tm ≤ maxReconnectAttempts)%nat ∧
                    to_delay tm = backoffDelay (to_attempt tm - 1) ∧
                    (to_handle tm < nextHandle w)%positive) (timeouts w) ∧
  (∀ handle taskId, intervals w !! handle = Some taskId ↔
                    pollingIntervals w !! taskId = Some handle) ∧
  (∀ handle taskId, intervals w !! handle = Some taskId →
                    (handle < nextHandle w)%positive).

(** A statement that leaves counters and timers alone. *)
Definition keeps_timers (f : World → World) : Prop :=
  ∀ w, reconnectAttempts (f w) = reconnectAttempts w ∧
       timeouts (f w) = timeouts w ∧
       pollingIntervals (f w) = pollingIntervals w ∧
       intervals (f w) = intervals w ∧
       nextHandle (f w) = nextHandle w.

(** A statement that keeps counters and timers in order. *)
Definition orderly (f : World → World) : Prop :=
  ∀ w, timers_in_order w → timers_in_order (f w).

(** A statement that leaves alone what the service holds for a task. *)
Definition spares (taskId : string) (f : World → World) : Prop :=
  ∀ w, entry taskId (f w) = entry taskId w.

(** The tables of the service and the browser objects it made: all of the
    world but observers, requests under way, storage and trace. *)
Definition tables (w : World) :
    list (string * nat) * gmap string nat * gmap string positive *
    list Socket * list Timeout * gmap positive string :=
  (connections w, reconnectAttempts w, pollingIntervals w,
   sockets w, timeouts w, intervals w).

(** [status.status === 'completed' || status.status === 'failed'] *)
Definition terminal_status (status : Rec) : bool :=
  match OMap.get "status" status with
  | Some (JStr s) => String.eqb s "completed" || String.eqb s "failed"
  | _ => false
  end.

(** The message types [handleWebSocketMessage] knows. *)
Definition known_types : list string :=
  ["status"; "progress"; "log"; "completed"; "failed"].



(** One failed attempt: the first socket closed abnormally, the first
    reconnect timer is pending. *)
Definition one_failed_attempt : World :=
  default init (run accepts_all [CallConnect "t1"; SocketClose 0 1006] init).

(** Sockets, reconnect timers and counters exist only for tasks whose URL
    the constructor accepts. *)
Definition accepted_only (ws_ctor_throws : string → bool) (w : World) : Prop :=
  Forall (fun sk => ws_ctor_throws (sock_task sk) = false) (sockets w) ∧
  Forall (fun tm => ws_ctor_throws (to_task tm) = false) (timeouts w) ∧
  (∀ taskId n, reconnectAttempts w !! taskId = Some n → ws_ctor_throws taskId = false).

(** A statement that keeps it so. *)
Definition accepting (ws_ctor_throws : string → bool) (f : World → World) : Prop :=
  ∀ w, accepted_only ws_ctor_throws w → accepted_only ws_ctor_throws (f w).

(** In a stored history, a task id names at most one record. *)
Definition unique_ids (history : list Rec) : Prop :=
  ∀ i j r r' taskId,
    history !! i = Some r → history !! j = Some r' →
    ApiService.has_id taskId r = true → ApiService.has_id taskId r' = true →
    i = j.

(** What the task table and the analytics tab show of a duration, and the
    display name of a task type. *)
Module Display.

(** The three templates both formatters fill in: [`${s}s`], [`${m}m ${s}s`]
    and [`${h}h ${m}m`], by their numbers. *)
Inductive Shown : Type :=
| ShownSeconds (s : Z)
| ShownMinutes (m s : Z)
| ShownHours (h m : Z).

(** [formatDuration] of the task table, for two dates that parse, by their
    times in milliseconds.  [Math.round] of a thousandth of an integer is the
    floor of that thousandth plus one half; [Math.floor] of a quotient is
    [Z.div]; [%] is [Z.rem]. *)
Definition formatDuration (startTime endTime : Z) : Shown :=
  let duration := ((endTime - startTime + 500) / 1000)%Z in
  if (duration <? 60)%Z then ShownSeconds duration
  else if (duration <? 3600)%Z then ShownMinutes (duration / 60) (Z.rem duration 60)
  else ShownHours (duration / 3600) (Z.rem duration 3600 / 60).

(** [formatTime] of the analytics tab, on the whole milliseconds of its
    argument (the first [Math.floor] drops the rest). *)
Definition formatTime (ms : Z) : Shown :=
  let seconds := (ms / 1000)%Z in
  let minutes := (seconds / 60)%Z in
  let hours := (minutes / 60)%Z in
  if (0 <? hours)%Z then ShownHours hours (Z.rem minutes 60)
  else if (0 <? minutes)%Z then ShownMinutes minutes (Z.rem seconds 60)
  else ShownSeconds seconds.

(** A task type of the configuration, by the two fields read here. *)
Record TaskType : Type := { tt_name : string; tt_display_name : string }.

(** [getTaskType], [getTaskDisplayName] over the table [TASK_TYPES]. *)
Definition getTaskType (TASK_TYPES : list TaskType) (name : string) : option TaskType :=
  List.find (fun task => String.eqb (tt_name task) name) TASK_TYPES.

Definition getTaskDisplayName (TASK_TYPES : list TaskType) (name : string) : string :=
  match getTaskType TASK_TYPES name with
  | Some taskType =>
      if String.eqb (tt_display_name taskType) "" then name else tt_display_name taskType
  | None => name
  end.

End Display.

(** The polled task of [six_failures], a status request under way. *)
Definition request_under_way : World :=
  default init (step accepts_all (IntervalFires 6) six_failures).

(** The calls of observers that a message with the object [d] as data is to
    cause, by its type: the update object for each task-update observer, the
    log line for each log observer, nothing for a type that is not known. *)
Definition dispatched (now type taskId : string) (d : Rec) (w : World) : list Action :=
  let to_all updates :=
    map (fun cb => CallTaskUpdate (cb_id cb) taskId updates) (taskUpdateCallbacks w) in
  if String.eqb type "status" then
    to_all [("status", OMap.get "status" d); ("progress", OMap.get "progress" d)]
  else if String.eqb type "progress" then
    to_all [("progress", OMap.get "progress" d)]
  else if String.eqb type "log" then
    map (fun cb => CallLog (cb_id cb) taskId (OMap.get "message" d)) (logCallbacks w)
  else if String.eqb type "completed" then
    to_all [("status", Some (JStr "completed")); ("completed_at", Some (JStr now));
            ("result", OMap.get "result" d); ("progress", Some (JNum 100))]
  else if String.eqb type "failed" then
    to_all [("status", Some (JStr "failed")); ("completed_at", Some (JStr now));
            ("error", OMap.get "error" d)]
  else [].


(** One task, connected; the server has started the closing handshake. *)
Definition closing_by_server : World :=
  default init (run accepts_all [CallConnect "t1"; SocketOpen 0; SocketClosing 0] init).

(** [value !== '' && value !== undefined] *)
Definition kept_value (kv : string * JsVal) : bool :=
  match kv.2 with
  | None => false
  | Some (JStr "") => false
  | Some _ => true
  end.

(** The tasks of a history that [loadTaskHistory] subscribes. *)
Definition runningTasks (history : list (string * string)) : list (string * string) :=
  List.filter (fun task => String.eqb task.2 "running" || String.eqb task.2 "pending") history.

(** The log lines of a task among the calls of the log observer. *)
Definition lines_of (taskId : string) (calls : list (string * JsVal)) : list JsVal :=
  map snd (List.filter (fun call => String.eqb call.1 taskId) calls).

(** The console lines of the [catch] around an observer, counted in a
    trace. *)
Definition is_callback_error (a : Action) : bool :=
  match a with
  | Console ErrTaskCallback | Console ErrLogCallback => true
  | _ => false
  end.

Definition callback_errors (tr : list Action) : nat :=
  length (List.filter is_callback_error tr).


(** A history as [saveTaskToHistory] keeps it: distinct ids, at most 100
    records. *)
Definition well_kept (history : list Rec) : Prop :=
  unique_ids history ∧ (length history ≤ 100)%nat.

(* ===================================================================== *)
(** ** Ordered maps and [findIndex] *)
(* ===================================================================== *)

Module OMapFacts.

Lemma get_set_eq {A} k (v : A) o : OMap.get k (OMap.set k v o) = Some v.
Proof.
  induction o as [|[k' v'] o IH]; simpl.
  - by rewrite String.eqb_refl.
  - destruct (String.eqb k' k) eqn:E; simpl.
    + by rewrite String.eqb_refl.
    + by rewrite E.
Qed.

Lemma get_set_ne {A} k k' (v : A) o :
  k ≠ k' → OMap.get k' (OMap.set k v o) = OMap.get k' o.
Proof.
  intros Hne. induction o as [|[k0 v0] o IH]; simpl.
  - by apply String.eqb_neq in Hne as ->.
  - destruct (String.eqb k0 k) eqn:E; simpl.
    + apply String.eqb_eq in E as ->.
      by apply String.eqb_neq in Hne as ->.
    + by rewrite IH.
Qed.

Lemma get_delete_eq {A} k (o : list (string * A)) : OMap.get k (OMap.delete k o) = None.
Proof.
  induction o as [|[k' v'] o IH]; simpl; [done|].
  destruct (String.eqb k' k) eqn:E; simpl; [done|]. by rewrite E.
Qed.

Lemma get_delete_ne {A} k k' (o : list (string * A)) :
  k ≠ k' → OMap.get k' (OMap.delete k o) = OMap.get k' o.
Proof.
  intros Hne. induction o as [|[k0 v0] o IH]; simpl; [done|].
  destruct (String.eqb k0 k) eqn:E; simpl.
  - apply String.eqb_eq in E as ->.
    by apply String.eqb_neq in Hne as ->.
  - by rewrite IH.
Qed.

Lemma has_get {A} k (o : list (string * A)) v : OMap.get k o = Some v → OMap.has k o = true.
Proof. unfold OMap.has. by intros ->. Qed.

(** Assigning the properties of [b] one after the other, the last
    assignment to [k] is the one that stays. *)
Lemma get_spread_last {A} k (v : A) a b :
  OMap.get k (OMap.spread a (b ++ [(k, v)])) = Some v.
Proof. unfold OMap.spread. rewrite foldl_snoc. apply get_set_eq. Qed.

Lemma get_spread_snoc_ne {A} k k' (v : A) a b :
  k ≠ k' →
  OMap.get k' (OMap.spread a (b ++ [(k, v)])) = OMap.get k' (OMap.spread a b).
Proof. intros. unfold OMap.spread. rewrite foldl_snoc. by apply get_set_ne. Qed.

Lemma get_spread_absent {A} k (a b : list (string * A)) :
  OMap.get k b = None → OMap.get k (OMap.spread a b) = OMap.get k a.
Proof.
  revert a. induction b as [|[k' v'] b IH]; intros a Hb; simpl in *; [done|].
  destruct (String.eqb k' k) eqn:E; [done|].
  unfold OMap.spread in *. simpl. rewrite IH by done.
  apply get_set_ne. by apply String.eqb_neq.
Qed.

Lemma get_of_rec k r : OMap.get k (OMap.of_rec r) = Some <$> OMap.get k r.
Proof.
  induction r as [|[k' v'] r IH]; simpl; [done|].
  by destruct (String.eqb k' k).
Qed.

(** A property that is defined survives the write to storage. *)
Lemma get_to_rec k (o : Obj) v :
  OMap.get k o = Some (Some v) → OMap.get k (OMap.to_rec o) = Some v.
Proof.
  induction o as [|[k' [v'|]] o IH]; simpl; [done| |].
  - destruct (String.eqb k' k); [congruence|done].
  - destruct (String.eqb k' k); [congruence|done].
Qed.

End OMapFacts.

Section FindIndex.
Context {A : Type} (p : A → bool).

Lemma findIndex_Some l k :
  findIndex p l = Some k → ∃ x, l !! k = Some x ∧ p x = true.
Proof.
  revert k. induction l as [|x l IH]; intros k; simpl; [done|].
  destruct (p x) eqn:E.
  - intros [= <-]. eauto.
  - destruct (findIndex p l) as [k'|]; simpl; [|done].
    intros [= <-]. apply IH. done.
Qed.

Lemma findIndex_None l x : findIndex p l = None → x ∈ l → p x = false.
Proof.
  induction l as [|y l IH]; simpl; [by intros _ ?%elem_of_nil|].
  destruct (p y) eqn:E; [done|].
  destruct (findIndex p l); [done|].
  intros _ [->|?]%elem_of_cons; auto.
Qed.

(** Changing the element found into one that still satisfies [p] does not
    move the index. *)
Lemma findIndex_alter f l k :
  findIndex p l = Some k →
  (∀ x, p x = true → p (f x) = true) →
  findIndex p (alter f k l) = Some k.
Proof.
  intros Hk Hf. revert k Hk. induction l as [|x l IH]; intros k; simpl; [done|].
  destruct (p x) eqn:E.
  - intros [= <-]. simpl. by rewrite Hf.
  - destruct (findIndex p l) as [k'|] eqn:E'; simpl; [|done].
    intros [= <-]. cbn. rewrite E. by rewrite (IH k' eq_refl).
Qed.

End FindIndex.

Section FindIndexFirst.
Context {A : Type} (p : A → bool).

Lemma findIndex_None_intro l : (∀ x, x ∈ l → p x = false) → findIndex p l = None.
Proof.
  induction l as [|y l IH]; simpl; [done|]. intros H.
  rewrite (H y) by apply list_elem_of_here.
  rewrite IH; [done|]. intros x Hx. apply H. by apply list_elem_of_further.
Qed.

Lemma findIndex_is_Some l x : x ∈ l → p x = true → is_Some (findIndex p l).
Proof.
  intros Hx Hp. destruct (findIndex p l) eqn:E; [eauto|].
  rewrite (findIndex_None p l x E Hx) in Hp. done.
Qed.

End FindIndexFirst.

(* ===================================================================== *)
(** ** The persistence write-through *)
(* ===================================================================== *)

(** C10.  [updateTaskInHistory] changes a record that is already stored and
    nothing else.  When no stored record carries the task id, local storage
    is left exactly as it was (no record is inserted).  When one does, the
    stored list keeps its length, the first record with that id becomes the
    merge of itself with the updates, and the record at every other index is
    the one that was there. *)
Theorem updateTaskInHistory_frame (taskId : string) (updates : Obj)
    (st : ApiService.Stored) :
  let history := ApiService.getLocalTaskHistory st in
  let history' :=
    ApiService.getLocalTaskHistory (ApiService.updateTaskInHistory taskId updates st) in
  ((∀ r, r ∈ history → ApiService.has_id taskId r = false) →
   ApiService.updateTaskInHistory taskId updates st = st) ∧
  (∀ r, r ∈ history → ApiService.has_id taskId r = true →
   ∃ k r0,
     history !! k = Some r0 ∧ ApiService.has_id taskId r0 = true ∧
     length history' = length history ∧
     history' !! k = Some (ApiService.merged r0 updates) ∧
     ∀ j, j ≠ k → history' !! j = history !! j).
Proof.
  intros history history'. split.
  - intros Habsent. unfold ApiService.updateTaskInHistory.
    fold history. by rewrite (findIndex_None_intro _ _ Habsent).
  - intros r Hr Hid.
    destruct (findIndex_is_Some _ _ _ Hr Hid) as [k Hk].
    destruct (findIndex_Some _ _ _ Hk) as (r0 & Hr0 & Hid0).
    exists k, r0. subst history'. unfold ApiService.updateTaskInHistory.
    fold history. rewrite Hk. simpl. repeat split; [done..| | |].
    + apply length_alter.
    + by rewrite list_lookup_alter_eq, Hr0.
    + intros j Hj. by apply list_lookup_alter_ne.
Qed.

Lemma updateTaskInHistory_frame_witness :
  ApiService.updateTaskInHistory "t9" [("progress", Some (JNum 50))]
    (ApiService.Item sample_history) = ApiService.Item sample_history
  ∧ ∃ k r0,
      sample_history !! k = Some r0 ∧ ApiService.has_id "t2" r0 = true ∧
      length (ApiService.getLocalTaskHistory
                (ApiService.updateTaskInHistory "t2" [("progress", Some (JNum 50))]
                   (ApiService.Item sample_history))) = length sample_history ∧
      ApiService.getLocalTaskHistory
        (ApiService.updateTaskInHistory "t2" [("progress", Some (JNum 50))]
           (ApiService.Item sample_history)) !! k
      = Some (ApiService.merged r0 [("progress", Some (JNum 50))]) ∧
      ∀ j, j ≠ k →
        ApiService.getLocalTaskHistory
          (ApiService.updateTaskInHistory "t2" [("progress", Some (JNum 50))]
             (ApiService.Item sample_history)) !! j
        = sample_history !! j.
Proof.
  split.
  - apply (updateTaskInHistory_frame "t9" [("progress", Some (JNum 50))]
             (ApiService.Item sample_history)).
    intros r Hr. simpl in Hr. unfold sample_history in Hr.
    repeat (apply elem_of_cons in Hr as [->|Hr]; [reflexivity|]).
    by apply elem_of_nil in Hr.
  - apply (proj2 (updateTaskInHistory_frame "t2" [("progress", Some (JNum 50))]
                    (ApiService.Item sample_history))
             [("id", JStr "t2"); ("name", JStr "download_reports");
              ("status", JStr "running"); ("progress", JNum 40)]).
    + simpl. unfold sample_history. apply list_elem_of_further, list_elem_of_here.
    + reflexivity.
Defined.

(* ===================================================================== *)
(** ** The backoff policy *)
(* ===================================================================== *)

Lemma backoffDelay_small (n : nat) :
  (n ≤ 4)%nat → backoffDelay n = (1000 * 2 ^ Z.of_nat n)%Z.
Proof.
  intros Hn. unfold backoffDelay.
  assert (n = 0 ∨ n = 1 ∨ n = 2 ∨ n = 3 ∨ n = 4)%nat as Hc by lia.
  destruct Hc as [->|[->|[->|[->| ->]]]]; reflexivity.
Qed.

Lemma backoffDelay_units (n : nat) :
  backoffDelay n = (1000 * Z.min (2 ^ Z.of_nat n) 30)%Z.
Proof. unfold backoffDelay. lia. Qed.

Lemma backoffDelay_mono (n m : nat) :
  (n ≤ m)%nat → (backoffDelay n ≤ backoffDelay m)%Z.
Proof.
  intros Hnm. unfold backoffDelay.
  assert (2 ^ Z.of_nat n ≤ 2 ^ Z.of_nat m)%Z by (apply Z.pow_le_mono_r; lia).
  lia.
Qed.

(** What a call of [handleReconnection] below the maximum does. *)
Lemma handleReconnection_below (taskId : string) (w : World) :
  let attempts := default 0 (reconnectAttempts w !! taskId) in
  (attempts < maxReconnectAttempts)%nat →
  handleReconnection taskId w =
    (set_reconnectAttempts <[taskId := (attempts + 1)%nat]> >>>
     setTimeout taskId (attempts + 1) (backoffDelay attempts)) w.
Proof.
  intros attempts Hlt. unfold handleReconnection. fold attempts.
  apply Nat.leb_gt in Hlt. by rewrite Hlt.
Qed.

(** ... and at the maximum. *)
Lemma handleReconnection_max (taskId : string) (w : World) :
  (maxReconnectAttempts ≤ default 0 (reconnectAttempts w !! taskId))%nat →
  handleReconnection taskId w =
    (console (WarnMaxAttempts taskId) >>> fallbackToPolling taskId) w.
Proof.
  intros Hge. unfold handleReconnection.
  apply Nat.leb_le in Hge. by rewrite Hge.
Qed.

(** C2.  The reconnect delay is [min(1000 * 2^n, 30000)] milliseconds, that
    is [min(2^n, 30)] units of one second: [1000 * 2^n] for the attempt counts
    0 to 4 that the reconnection procedure computes it for, 1 unit at 0, 8 at
    3, the cap of 30 at 5; it never decreases with [n], never exceeds the cap,
    and it is the delay of the timer that [handleReconnection] sets. *)
Theorem backoffDelay_spec :
  (∀ n : nat, backoffDelay n = (1000 * Z.min (2 ^ Z.of_nat n) 30)%Z) ∧
  (∀ n : nat, (n ≤ 4)%nat → backoffDelay n = (1000 * 2 ^ Z.of_nat n)%Z) ∧
  backoffDelay 0 = 1000%Z ∧ backoffDelay 3 = 8000%Z ∧ backoffDelay 5 = 30000%Z ∧
  (∀ n m : nat, (n ≤ m)%nat → (backoffDelay n ≤ backoffDelay m)%Z) ∧
  (∀ n : nat, (backoffDelay n ≤ 30000)%Z) ∧
  (∀ (taskId : string) (w : World),
     let n := default 0 (reconnectAttempts w !! taskId) in
     (n < maxReconnectAttempts)%nat →
     timeouts (handleReconnection taskId w) =
       timeouts w ++ [{| to_handle := nextHandle w; to_task := taskId;
                         to_attempt := n + 1; to_delay := backoffDelay n |}]).
Proof.
  split; [exact backoffDelay_units|].
  split; [exact backoffDelay_small|].
  do 3 (split; [reflexivity|]).
  split; [exact backoffDelay_mono|].
  split; [intros n; unfold backoffDelay; lia|].
  intros taskId w n Hn. by rewrite handleReconnection_below.
Qed.

Lemma backoffDelay_spec_witness :
  backoffDelay 4 = (1000 * 2 ^ Z.of_nat 4)%Z ∧
  (backoffDelay 2 ≤ backoffDelay 7)%Z ∧
  timeouts (handleReconnection "t1" init) =
    [{| to_handle := 1; to_task := "t1"; to_attempt := 1; to_delay := 1000 |}].
Proof.
  destruct backoffDelay_spec as (_ & Hsmall & _ & _ & _ & Hmono & _ & Htimer).
  split; [apply Hsmall; lia|].
  split; [apply Hmono; lia|].
  apply (Htimer "t1" init). vm_compute. lia.
Defined.

(** Unfolding the statements of the service down to field updates. *)
Ltac unfold_service :=
  unfold ws_onopen, ws_onclose, ws_onerror, reconnectTimer, pollTick,
    connectToTask, disconnect, handleReconnection, fallbackToPolling, stopPolling,
    setTimeout, ws_close, set_ready, console, emit, andThen, skip in *.

(* ===================================================================== *)
(** ** Intentional close *)
(* ===================================================================== *)

(** [stopPolling] touches the polling timer of the task, the timer table of
    the browser and the console. *)
Lemma stopPolling_pollingIntervals taskId w :
  pollingIntervals (stopPolling taskId w) = delete taskId (pollingIntervals w).
Proof.
  unfold stopPolling. destruct (pollingIntervals w !! taskId) eqn:E; [done|].
  by rewrite delete_id.
Qed.

Lemma stopPolling_frame taskId w :
  connections (stopPolling taskId w) = connections w ∧
  reconnectAttempts (stopPolling taskId w) = reconnectAttempts w ∧
  sockets (stopPolling taskId w) = sockets w ∧
  timeouts (stopPolling taskId w) = timeouts w ∧
  nextHandle (stopPolling taskId w) = nextHandle w ∧
  taskUpdateCallbacks (stopPolling taskId w) = taskUpdateCallbacks w ∧
  logCallbacks (stopPolling taskId w) = logCallbacks w ∧
  fetches (stopPolling taskId w) = fetches w ∧
  storage (stopPolling taskId w) = storage w.
Proof. unfold stopPolling. by destruct (pollingIntervals w !! taskId). Qed.

(** What [disconnect] leaves of the fields a reconnection would touch. *)
Lemma disconnect_reconnectAttempts taskId w :
  reconnectAttempts (disconnect taskId w) = delete taskId (reconnectAttempts w).
Proof.
  unfold disconnect, andThen. cbn.
  destruct (stopPolling_frame taskId
              match OMap.get taskId (connections w) with
              | Some ws => set_connections (OMap.delete taskId) (ws_close ws 1000 w)
              | None => w
              end) as (_ & -> & _).
  by destruct (OMap.get taskId (connections w)).
Qed.

Lemma disconnect_timeouts taskId w : timeouts (disconnect taskId w) = timeouts w.
Proof.
  unfold disconnect, andThen. cbn.
  destruct (stopPolling_frame taskId
              match OMap.get taskId (connections w) with
              | Some ws => set_connections (OMap.delete taskId) (ws_close ws 1000 w)
              | None => w
              end) as (_ & _ & _ & -> & _).
  by destruct (OMap.get taskId (connections w)).
Qed.

Lemma disconnect_pollingIntervals taskId w :
  pollingIntervals (disconnect taskId w) = delete taskId (pollingIntervals w).
Proof.
  unfold disconnect, andThen. cbn. rewrite stopPolling_pollingIntervals.
  by destruct (OMap.get taskId (connections w)).
Qed.

Lemma disconnect_connections taskId w :
  connections (disconnect taskId w) = OMap.delete taskId (connections w).
Proof.
  unfold disconnect, andThen. cbn.
  destruct (stopPolling_frame taskId
              match OMap.get taskId (connections w) with
              | Some ws => set_connections (OMap.delete taskId) (ws_close ws 1000 w)
              | None => w
              end) as (-> & _).
  destruct (OMap.get taskId (connections w)) eqn:E; [done|].
  clear -E. induction (connections w) as [|[k v] o IH]; simpl in *; [done|].
  destruct (String.eqb k taskId); [done|]. simpl. by rewrite <- IH.
Qed.

Lemma disconnect_sockets taskId w :
  sockets (disconnect taskId w) =
    match OMap.get taskId (connections w) with
    | Some ws => sockets (ws_close ws 1000 w)
    | None => sockets w
    end.
Proof.
  unfold disconnect, andThen. cbn.
  destruct (stopPolling_frame taskId
              match OMap.get taskId (connections w) with
              | Some ws => set_connections (OMap.delete taskId) (ws_close ws 1000 w)
              | None => w
              end) as (_ & _ & -> & _).
  by destruct (OMap.get taskId (connections w)).
Qed.





(* ===================================================================== *)
(** ** Reconnection and the fallback to polling *)
(* ===================================================================== *)

(** The reconnection procedure below the maximum: one more attempt counted,
    one timer set, polling untouched. *)
Lemma handleReconnection_below_fields taskId w :
  (default 0 (reconnectAttempts w !! taskId) < maxReconnectAttempts)%nat →
  reconnectAttempts (handleReconnection taskId w) !! taskId
    = Some (default 0 (reconnectAttempts w !! taskId) + 1)%nat ∧
  pollingIntervals (handleReconnection taskId w) = pollingIntervals w ∧
  length (timeouts (handleReconnection taskId w)) = S (length (timeouts w)) ∧
  sockets (handleReconnection taskId w) = sockets w.
Proof.
  intros Hlt. rewrite handleReconnection_below by done.
  unfold_service. cbn. rewrite lookup_insert_eq, length_app. simpl.
  repeat split. lia.
Qed.

(** ... and at the maximum: polling runs afterwards, no timer is set, the
    counter stays. *)
Lemma handleReconnection_max_fields taskId w :
  (maxReconnectAttempts ≤ default 0 (reconnectAttempts w !! taskId))%nat →
  reconnectAttempts (handleReconnection taskId w) = reconnectAttempts w ∧
  is_Some (pollingIntervals (handleReconnection taskId w) !! taskId) ∧
  timeouts (handleReconnection taskId w) = timeouts w ∧
  sockets (handleReconnection taskId w) = sockets w.
Proof.
  intros Hge. rewrite handleReconnection_max by done.
  unfold_service. cbn.
  destruct (pollingIntervals w !! taskId) eqn:E; cbn.
  - rewrite E. eauto.
  - rewrite lookup_insert_eq. eauto.
Qed.

Section Reconnection.
Variable ws_ctor_throws : string → bool.

(** A failure event runs [handleReconnection] for the task, after statements
    that leave counter, timers and polling alone. *)
Lemma failure_event_step taskId e w w1 :
  failure_event taskId e w = true →
  step ws_ctor_throws e w = Some w1 →
  ∃ w0, w1 = handleReconnection taskId w0 ∧
        reconnectAttempts w0 = reconnectAttempts w ∧
        pollingIntervals w0 = pollingIntervals w ∧
        timeouts w0 = timeouts w ∧
        length (sockets w0) = length (sockets w).
Proof.
  destruct e; simpl; try done.
  - destruct (sockets w !! ws) as [sk|] eqn:Hsk; [|done]. simpl.
    intros ->%String.eqb_eq Hstep.
    destruct (sock_ready sk); simplify_eq; (eexists; split; [reflexivity|done]).
  - destruct (sockets w !! ws) as [sk|] eqn:Hsk; [|by rewrite andb_false_r]. simpl.
    intros [Hcode ->%String.eqb_eq]%andb_true_iff Hstep.
    apply negb_true_iff in Hcode.
    assert (∀ v, ws_onclose taskId code v
                 = handleReconnection taskId
                     (set_connections (OMap.delete taskId)
                        (console (LogClosed taskId code) v))) as Hc.
    { intros v. unfold ws_onclose, andThen. by rewrite Hcode. }
    unfold andThen in Hstep.
    destruct (sock_ready sk); simplify_eq; rewrite Hc;
      (eexists; split; [reflexivity|]); cbn; repeat split; apply length_alter.
Qed.

Lemma after_failures_failure taskId k e w w1 :
  after_failures taskId k w →
  failure_event taskId e w = true →
  step ws_ctor_throws e w = Some w1 →
  after_failures taskId (S k) w1.
Proof.
  intros (Hcount & Hquiet & Hpoll) He Hstep.
  destruct (failure_event_step _ _ _ _ He Hstep) as (w0 & -> & Hc0 & Hp0 & _).
  unfold after_failures, maxReconnectAttempts in *.
  destruct (decide (k < 5)%nat) as [Hlt|Hge].
  - destruct (handleReconnection_below_fields taskId w0) as (Hc & Hp & _).
    { rewrite Hc0, Hcount. unfold maxReconnectAttempts. lia. }
    rewrite Hc, Hp, Hp0, Hc0, Hcount. simpl. repeat split; [lia| |lia].
    intros _. apply Hquiet. lia.
  - destruct (handleReconnection_max_fields taskId w0) as (Hc & Hp & _).
    { rewrite Hc0, Hcount. unfold maxReconnectAttempts. lia. }
    rewrite Hc, Hc0, Hcount. repeat split; [lia|lia|done].
Qed.

Lemma after_failures_retry taskId k e w w1 :
  ws_ctor_throws taskId = false →
  after_failures taskId k w →
  retry_event taskId e w = true →
  step ws_ctor_throws e w = Some w1 →
  after_failures taskId k w1.
Proof.
  intros Hctor Hafter. destruct e; simpl; try done.
  destruct (find_timeout handle (timeouts w)) as [tm|] eqn:Htm; [|done]. simpl.
  intros Htask%String.eqb_eq [= <-].
  unfold reconnectTimer, connectToTask, andThen. rewrite Htask, Hctor. cbn.
  by destruct (OMap.has taskId (connections w)).
Qed.

Lemma failing_run_after_failures taskId k n w w' :
  ws_ctor_throws taskId = false →
  after_failures taskId k w →
  failing_run ws_ctor_throws taskId n w w' →
  after_failures taskId (k + n) w'.
Proof.
  intros Hctor Hafter Hrun. revert k Hafter.
  induction Hrun as [w|n e w w1 w' He Hstep _ IH|n e w w1 w' He Hstep _ IH];
    intros k Hafter.
  - by rewrite Nat.add_0_r.
  - replace (k + S n)%nat with (S k + n)%nat by lia.
    apply IH. eapply after_failures_failure; eauto.
  - apply IH. eapply after_failures_retry; eauto.
Qed.

(** C3, amended.  From a state in which the task has no counter and is not
    polled, let its channel only fail and retry, [n] failures in all (the
    constructor accepting the URL).  Then the counter is [min n 5]; up to and
    including the fifth failure the task is not polled; from the sixth failure
    on it is (so polling starts when the fifth reconnect attempt has failed,
    the sixth failure counting the first connection); and once five failures
    are counted a further failure sets no reconnect timer, builds no socket
    and leaves the counter as it is.  [disconnect] clears counter and polling,
    after which a new [connectToTask] starts over. *)
Theorem polling_after_sixth_failure (taskId : string) (n : nat) (w w' : World) :
  ws_ctor_throws taskId = false →
  reconnectAttempts w !! taskId = None →
  pollingIntervals w !! taskId = None →
  failing_run ws_ctor_throws taskId n w w' →
  default 0 (reconnectAttempts w' !! taskId) = (n `min` 5)%nat ∧
  ((n ≤ 5)%nat → pollingIntervals w' !! taskId = None) ∧
  ((6 ≤ n)%nat → is_Some (pollingIntervals w' !! taskId)) ∧
  ((5 ≤ n)%nat →
     ∀ e w'', failure_event taskId e w' = true →
              step ws_ctor_throws e w' = Some w'' →
              timeouts w'' = timeouts w' ∧
              reconnectAttempts w'' = reconnectAttempts w' ∧
              length (sockets w'') = length (sockets w') ∧
              is_Some (pollingIntervals w'' !! taskId)) ∧
  reconnectAttempts (disconnect taskId w') !! taskId = None ∧
  pollingIntervals (disconnect taskId w') !! taskId = None.
Proof.
  intros Hctor Hcount Hpoll Hrun.
  assert (after_failures taskId 0 w) as H0.
  { unfold after_failures, maxReconnectAttempts. rewrite Hcount, Hpoll. simpl.
    repeat split; try done. lia. }
  destruct (failing_run_after_failures _ _ _ _ _ Hctor H0 Hrun) as (Hc & Hq & Hp).
  unfold maxReconnectAttempts in *.
  split; [done|]. split; [done|]. split; [intros; apply Hp; lia|].
  split.
  - intros Hn e w'' He Hstep.
    destruct (failure_event_step _ _ _ _ He Hstep) as (w0 & -> & Hc0 & Hp0 & Ht0 & Hs0).
    destruct (handleReconnection_max_fields taskId w0) as (Hc1 & Hp1 & Ht1 & Hs1).
    { rewrite Hc0, Hc. unfold maxReconnectAttempts. lia. }
    rewrite Hc1, Ht1, Hs1. auto.
  - rewrite disconnect_reconnectAttempts, disconnect_pollingIntervals.
    by rewrite !lookup_delete_eq.
Qed.

End Reconnection.

(** C3, as stated, fails: after exactly five connection attempts
    that failed in a row (five sockets built, all closed with code 1006) the
    task is not polled; the counter is 5 and a fifth reconnect timer, of 16
    seconds, is pending.  Polling starts when the attempt of that timer has
    failed too, the sixth failure.  And when a failed attempt reports twice,
    by its error event and by its close event, polling starts with the third
    socket while three reconnect timers are still pending. *)
Lemma five_failures_not_polling :
  (∃ w, run accepts_all five_failed_attempts init = Some w ∧
        length (sockets w) = 5%nat ∧ all_closed w = true ∧
        reconnectAttempts w !! "t1" = Some 5%nat ∧
        pollingIntervals w !! "t1" = None ∧
        timeouts w = [{| to_handle := 5; to_task := "t1"; to_attempt := 5;
                         to_delay := 16000 |}] ∧
        ∃ w', run accepts_all [TimeoutFires 5; SocketClose 5 1006] w = Some w' ∧
              pollingIntervals w' !! "t1" = Some 6%positive ∧ timeouts w' = [])
  ∧
  (∃ w, run accepts_all
          [ CallConnect "t1"; SocketError 0; SocketClose 0 1006;
            TimeoutFires 1; SocketError 1; SocketClose 1 1006;
            TimeoutFires 2; SocketError 2; SocketClose 2 1006 ] init = Some w ∧
        length (sockets w) = 3%nat ∧
        pollingIntervals w !! "t1" = Some 6%positive ∧
        map to_handle (timeouts w) = [3; 4; 5]%positive).
Proof.
  split.
  - exists (default init (run accepts_all five_failed_attempts init)).
    do 6 (split; [vm_compute; reflexivity|]).
    exists six_failures.
    split; [vm_compute; reflexivity|]. split; vm_compute; reflexivity.
  - eexists. split; [vm_compute; reflexivity|].
    split; [vm_compute; reflexivity|]. split; vm_compute; reflexivity.
Qed.

Lemma replay_failing_sound taskId es w n w' :
  replay_failing taskId es w = Some (n, w') → failing_run accepts_all taskId n w w'.
Proof.
  revert w n. induction es as [|e es IH]; intros w n; simpl.
  - intros [= <- <-]. constructor.
  - destruct (failure_event taskId e w) eqn:Hf.
    + destruct (step accepts_all e w) as [w1|] eqn:Hstep; [|done]. simpl.
      destruct (replay_failing taskId es w1) as [[m v]|] eqn:Hr; [|done]. simpl.
      intros [= <- <-]. eapply fr_failure; eauto.
    + destruct (retry_event taskId e w) eqn:Hr; [|done].
      destruct (step accepts_all e w) as [w1|] eqn:Hstep; [|done]. simpl.
      intros Hrest. eapply fr_retry; eauto.
Qed.

Lemma six_failures_run : failing_run accepts_all "t1" 6 connecting six_failures.
Proof.
  apply (replay_failing_sound "t1"
           [ SocketClose 0 1006; TimeoutFires 1; SocketClose 1 1006;
             TimeoutFires 2; SocketClose 2 1006; TimeoutFires 3;
             SocketClose 3 1006; TimeoutFires 4; SocketClose 4 1006;
             TimeoutFires 5; SocketClose 5 1006 ]).
  vm_compute. reflexivity.
Defined.

Lemma polling_after_sixth_failure_witness :
  default 0 (reconnectAttempts six_failures !! "t1") = 5%nat ∧
  is_Some (pollingIntervals six_failures !! "t1").
Proof.
  destruct (polling_after_sixth_failure accepts_all "t1" 6 connecting six_failures)
    as (Hc & _ & Hp & _).
  - reflexivity.
  - vm_compute. reflexivity.
  - vm_compute. reflexivity.
  - exact six_failures_run.
  - split; [exact Hc|]. apply Hp. lia.
Defined.

(* ===================================================================== *)
(** ** Opening a connection and the polling timer *)
(* ===================================================================== *)

(** C5, as stated, fails in its second half: polling and push delivery can be
    active for one task at a time.  After [one_accepted_others_refused] the
    second socket of the task is open and delivers, the task is polled as
    well, and the observer gets the same progress from both.  After
    [seven_subscriptions] the task is polled while its open socket is the one
    in [connections]. *)
Lemma polling_and_push_both_active :
  (∃ w, run accepts_all one_accepted_others_refused init = Some w ∧
        sockets w !! 1%nat = Some {| sock_task := "t1"; sock_ready := OPEN;
                                     sock_closing := None |} ∧
        pollingIntervals w !! "t1" = Some 8%positive ∧
        intervals w !! 8%positive = Some "t1" ∧
        ∃ w', run accepts_all pushed_and_polled w = Some w' ∧
              deliveries (trace w') =
                [ CallTaskUpdate 1 "t1" [("progress", Some (JNum 10))];
                  CallTaskUpdate 1 "t1" [("status", Some (JStr "running"));
                                         ("progress", Some (JNum 10))] ])
  ∧
  (∃ w, run accepts_all seven_subscriptions init = Some w ∧
        isConnected "t1" w = true ∧
        OMap.get "t1" (connections w) = Some 0%nat ∧
        pollingIntervals w !! "t1" = Some 6%positive ∧
        intervals w !! 6%positive = Some "t1").
Proof.
  split.
  - exists (default init (run accepts_all one_accepted_others_refused init)).
    do 4 (split; [vm_compute; reflexivity|]).
    exists (default init
              (run accepts_all (one_accepted_others_refused ++ pushed_and_polled) init)).
    split; vm_compute; reflexivity.
  - exists (default init (run accepts_all seven_subscriptions init)).
    do 4 (split; [vm_compute; reflexivity|]). vm_compute. reflexivity.
Qed.

(** C5, amended.  When a socket opens, the handler registers it for its task,
    clears the reconnect counter of the task (it reads 0 again) and cancels the
    polling timer registered for the task, if there is one: right after the
    open the task is not polled, and the cancelled timer can not tick. *)
Theorem open_resets_counter_and_stops_polling (ws_ctor_throws : string → bool)
    (ws : nat) (w w' : World) :
  step ws_ctor_throws (SocketOpen ws) w = Some w' →
  ∃ sk, sockets w !! ws = Some sk ∧
        sockets w' !! ws = Some {| sock_task := sock_task sk; sock_ready := OPEN;
                                   sock_closing := sock_closing sk |} ∧
        OMap.get (sock_task sk) (connections w') = Some ws ∧
        default 0 (reconnectAttempts w' !! sock_task sk) = 0%nat ∧
        pollingIntervals w' !! sock_task sk = None ∧
        ∀ h, pollingIntervals w !! sock_task sk = Some h →
             intervals w' !! h = None ∧
             step ws_ctor_throws (IntervalFires h) w' = None.
Proof.
  simpl. destruct (sockets w !! ws) as [sk|] eqn:Hsk; [|done]. simpl.
  destruct (sock_ready sk) eqn:Hready; try done. intros [= <-].
  exists sk. split; [done|].
  unfold ws_onopen, andThen.
  set (w0 := set_reconnectAttempts _ _).
  destruct (stopPolling_frame (sock_task sk) w0) as (Hc & Hr & Hs & _).
  rewrite Hs, Hc, Hr, stopPolling_pollingIntervals. subst w0. cbn.
  rewrite list_lookup_alter_eq, Hsk, OMapFacts.get_set_eq, !lookup_delete_eq. simpl.
  do 4 (split; [done|]).
  intros h Hh. unfold stopPolling. cbn. rewrite Hh. cbn.
  by rewrite lookup_delete_eq.
Qed.

Lemma open_resets_counter_and_stops_polling_witness :
  pollingIntervals polled_then_reconnected !! "t1" = Some 6%positive ∧
  ∃ w', step accepts_all (SocketOpen 6) polled_then_reconnected = Some w' ∧
        default 0 (reconnectAttempts w' !! "t1") = 0%nat ∧
        pollingIntervals w' !! "t1" = None ∧
        step accepts_all (IntervalFires 6) w' = None.
Proof.
  split; [vm_compute; reflexivity|].
  set (w' := default init (step accepts_all (SocketOpen 6) polled_then_reconnected)).
  exists w'. split; [vm_compute; reflexivity|].
  destruct (open_resets_counter_and_stops_polling accepts_all 6
              polled_then_reconnected w')
    as (sk & Hsk & _ & _ & Hcount & Hpoll & Hstop).
  - vm_compute. reflexivity.
  - assert (sk = {| sock_task := "t1"; sock_ready := CONNECTING; sock_closing := None |})
      as -> by (vm_compute in Hsk; congruence).
    split; [exact Hcount|]. split; [exact Hpoll|].
    apply (Hstop 6%positive). vm_compute. reflexivity.
Defined.

(* ===================================================================== *)
(** ** [disconnectAll] *)
(* ===================================================================== *)

Lemma disconnectAll_no_connection w : connections w = [] → disconnectAll w = w.
Proof. unfold disconnectAll. by intros ->. Qed.

(** [disconnectAll] leaves the polling timer and the counter of every task
    that has no entry in [connections]. *)
Lemma disconnectAll_unregistered w taskId :
  OMap.get taskId (connections w) = None →
  pollingIntervals (disconnectAll w) !! taskId = pollingIntervals w !! taskId ∧
  reconnectAttempts (disconnectAll w) !! taskId = reconnectAttempts w !! taskId.
Proof.
  intros Hnone. unfold disconnectAll.
  assert (taskId ∉ OMap.keys (connections w)) as Hnotin.
  { intros Hin. clear -Hin Hnone.
    induction (connections w) as [|[k v] o IH]; simpl in *.
    - by apply elem_of_nil in Hin.
    - destruct (String.eqb k taskId) eqn:E; [done|].
      apply elem_of_cons in Hin as [->|Hin]; [|auto].
      by rewrite String.eqb_refl in E. }
  revert Hnotin. generalize (OMap.keys (connections w)). intros ks. clear Hnone.
  revert w. induction ks as [|k ks IH]; intros w Hnotin; simpl; [done|].
  apply not_elem_of_cons in Hnotin as [Hne Hnotin].
  destruct (IH (disconnect k w) Hnotin) as [-> ->].
  rewrite disconnect_pollingIntervals, disconnect_reconnectAttempts.
  by rewrite !lookup_delete_ne.
Qed.

(** C9 does not hold of the code.  After six failures the task
    is polled and has no entry in [connections]; [disconnectAll] visits the
    keys of [connections] only, so it changes nothing: the polling timer of the
    task keeps running and its counter stays, whereas [disconnect] for that
    task clears both. *)
Theorem disconnectAll_keeps_polled_task :
  connections six_failures = [] ∧
  pollingIntervals six_failures !! "t1" = Some 6%positive ∧
  disconnectAll six_failures = six_failures ∧
  pollingIntervals (disconnectAll six_failures) !! "t1" = Some 6%positive ∧
  intervals (disconnectAll six_failures) !! 6%positive = Some "t1" ∧
  reconnectAttempts (disconnectAll six_failures) !! "t1" = Some 5%nat ∧
  step accepts_all (IntervalFires 6) (disconnectAll six_failures)
    = Some (pollTick "t1" six_failures) ∧
  pollingIntervals (disconnect "t1" six_failures) !! "t1" = None ∧
  reconnectAttempts (disconnect "t1" six_failures) !! "t1" = None.
Proof.
  assert (connections six_failures = []) as Hnone by (vm_compute; reflexivity).
  rewrite (disconnectAll_no_connection _ Hnone).
  split; [exact Hnone|]. split; [vm_compute; reflexivity|]. split; [reflexivity|].
  do 4 (split; [vm_compute; reflexivity|]).
  rewrite disconnect_pollingIntervals, disconnect_reconnectAttempts.
  rewrite !lookup_delete_eq. split; reflexivity.
Qed.

(* ===================================================================== *)
(** ** Dispatch: observers and the write-through *)
(* ===================================================================== *)

Lemma set_trace_id w : set_trace (fun tr => tr ++ []) w = w.
Proof. destruct w. unfold set_trace. cbn. by rewrite app_nil_r. Qed.

Lemma set_trace_app l1 l2 w :
  set_trace (fun tr => tr ++ l2) (set_trace (fun tr => tr ++ l1) w)
  = set_trace (fun tr => tr ++ (l1 ++ l2)) w.
Proof. unfold set_trace. cbn. by rewrite app_assoc. Qed.

Lemma foldl_callTaskUpdate taskId updates cbs w :
  foldl (callTaskUpdate taskId updates) w cbs
  = set_trace (fun tr => tr ++ update_calls taskId updates cbs) w.
Proof.
  revert w. induction cbs as [|cb cbs IH]; intros w; simpl.
  - by rewrite set_trace_id.
  - rewrite IH. unfold callTaskUpdate, andThen, console, emit, skip.
    destruct (cb_throws cb); rewrite ?set_trace_app; simpl;
      unfold set_trace; cbn; by rewrite <- ?app_assoc.
Qed.

Lemma foldl_callLog taskId log cbs w :
  foldl (callLog taskId log) w cbs
  = set_trace (fun tr => tr ++ log_calls taskId log cbs) w.
Proof.
  revert w. induction cbs as [|cb cbs IH]; intros w; simpl.
  - by rewrite set_trace_id.
  - rewrite IH. unfold callLog, andThen, console, emit, skip.
    destruct (cb_throws cb); rewrite ?set_trace_app; simpl;
      unfold set_trace; cbn; by rewrite <- ?app_assoc.
Qed.

(** [notifyTaskUpdate] in one step: the observers in order, then the
    write-through; only trace and storage change. *)
Lemma notifyTaskUpdate_eq taskId updates w :
  notifyTaskUpdate taskId updates w
  = set_storage (ApiService.updateTaskInHistory taskId updates)
      (set_trace (fun tr => tr ++ update_calls taskId updates (taskUpdateCallbacks w)
                               ++ Persist taskId updates :: history_warning (storage w)) w).
Proof.
  unfold notifyTaskUpdate, updateTaskInHistory, andThen. rewrite foldl_callTaskUpdate.
  unfold console, emit, history_warning. cbn.
  destruct (storage w); unfold set_storage, set_trace; cbn;
    by rewrite <- ?app_assoc.
Qed.

Lemma notifyLog_eq taskId log w :
  notifyLog taskId log w
  = set_trace (fun tr => tr ++ log_calls taskId log (logCallbacks w)) w.
Proof. unfold notifyLog. apply foldl_callLog. Qed.

Lemma deliveries_app l1 l2 : deliveries (l1 ++ l2) = deliveries l1 ++ deliveries l2.
Proof. apply List.filter_app. Qed.

Lemma persists_app l1 l2 : persists (l1 ++ l2) = persists l1 ++ persists l2.
Proof. apply List.filter_app. Qed.

Lemma deliveries_update_calls taskId updates cbs :
  deliveries (update_calls taskId updates cbs)
  = map (fun cb => CallTaskUpdate (cb_id cb) taskId updates) cbs.
Proof.
  induction cbs as [|cb cbs IH]; [done|].
  unfold update_calls in *. simpl. rewrite deliveries_app, IH.
  by destruct (cb_throws cb).
Qed.

Lemma persists_update_calls taskId updates cbs :
  persists (update_calls taskId updates cbs) = [].
Proof.
  induction cbs as [|cb cbs IH]; [done|].
  unfold update_calls in *. simpl. rewrite persists_app, IH.
  by destruct (cb_throws cb).
Qed.

Lemma deliveries_log_calls taskId log cbs :
  deliveries (log_calls taskId log cbs)
  = map (fun cb => CallLog (cb_id cb) taskId log) cbs.
Proof.
  induction cbs as [|cb cbs IH]; [done|].
  unfold log_calls in *. simpl. rewrite deliveries_app, IH.
  by destruct (cb_throws cb).
Qed.

Lemma persists_log_calls taskId log cbs : persists (log_calls taskId log cbs) = [].
Proof.
  induction cbs as [|cb cbs IH]; [done|].
  unfold log_calls in *. simpl. rewrite persists_app, IH.
  by destruct (cb_throws cb).
Qed.

Lemma history_warning_quiet st :
  deliveries (history_warning st) = [] ∧ persists (history_warning st) = [].
Proof. by destruct st. Qed.

(** What one dispatch through [notifyTaskUpdate] shows. *)
Lemma notifyTaskUpdate_dispatch taskId updates w :
  deliveries (trace (notifyTaskUpdate taskId updates w))
    = deliveries (trace w)
      ++ map (fun cb => CallTaskUpdate (cb_id cb) taskId updates) (taskUpdateCallbacks w) ∧
  persists (trace (notifyTaskUpdate taskId updates w))
    = persists (trace w) ++ [Persist taskId updates] ∧
  storage (notifyTaskUpdate taskId updates w)
    = ApiService.updateTaskInHistory taskId updates (storage w) ∧
  taskUpdateCallbacks (notifyTaskUpdate taskId updates w) = taskUpdateCallbacks w ∧
  logCallbacks (notifyTaskUpdate taskId updates w) = logCallbacks w.
Proof.
  rewrite notifyTaskUpdate_eq. cbn.
  destruct (history_warning_quiet (storage w)) as [Hd Hp].
  rewrite !deliveries_app, !persists_app, deliveries_update_calls, persists_update_calls.
  change (Persist taskId updates :: history_warning (storage w))
    with ([Persist taskId updates] ++ history_warning (storage w)).
  rewrite deliveries_app, persists_app, Hd, Hp. simpl.
  by rewrite !app_nil_r.
Qed.

(** [disconnect] is silent for the observers and for storage. *)
Lemma disconnect_trace taskId w :
  trace (disconnect taskId w)
  = trace w ++ match pollingIntervals w !! taskId with
               | Some _ => [Console (LogStoppedPolling taskId)]
               | None => []
               end.
Proof.
  unfold disconnect, andThen, stopPolling. cbn.
  destruct (OMap.get taskId (connections w)); cbn;
    destruct (pollingIntervals w !! taskId); cbn; by rewrite ?app_nil_r.
Qed.

Lemma disconnect_quiet taskId w :
  deliveries (trace (disconnect taskId w)) = deliveries (trace w) ∧
  persists (trace (disconnect taskId w)) = persists (trace w) ∧
  storage (disconnect taskId w) = storage w ∧
  taskUpdateCallbacks (disconnect taskId w) = taskUpdateCallbacks w ∧
  logCallbacks (disconnect taskId w) = logCallbacks w.
Proof.
  rewrite disconnect_trace, deliveries_app, persists_app.
  split; [by destruct (pollingIntervals w !! taskId); rewrite ?app_nil_r|].
  split; [by destruct (pollingIntervals w !! taskId); rewrite ?app_nil_r|].
  unfold disconnect, andThen. cbn.
  destruct (stopPolling_frame taskId
              match OMap.get taskId (connections w) with
              | Some ws => set_connections (OMap.delete taskId) (ws_close ws 1000 w)
              | None => w
              end) as (_ & _ & _ & _ & _ & -> & -> & _ & ->).
  by destruct (OMap.get taskId (connections w)).
Qed.

Lemma emit_quiet a w :
  is_delivery a = false → is_persist a = false →
  deliveries (trace (emit a w)) = deliveries (trace w) ∧
  persists (trace (emit a w)) = persists (trace w).
Proof.
  intros Hd Hp. unfold emit. cbn. rewrite deliveries_app, persists_app. simpl.
  rewrite Hd, Hp. by rewrite !app_nil_r.
Qed.

(** The four message types that go through [notifyTaskUpdate], with the
    object each hands to the observers. *)
Lemma handle_status now taskId data status progress w :
  prop data "status" = Some status → prop data "progress" = Some progress →
  handleWebSocketMessage now {| m_type := "status"; m_task_id := taskId; m_data := data |} w
  = Some (notifyTaskUpdate taskId [("status", status); ("progress", progress)] w).
Proof. intros H1 H2. unfold handleWebSocketMessage. cbn. by rewrite H1, H2. Qed.

Lemma handle_progress now taskId data progress w :
  prop data "progress" = Some progress →
  handleWebSocketMessage now {| m_type := "progress"; m_task_id := taskId; m_data := data |} w
  = Some (notifyTaskUpdate taskId [("progress", progress)] w).
Proof. intros H1. unfold handleWebSocketMessage. cbn. by rewrite H1. Qed.

Lemma handle_log now taskId data log w :
  prop data "message" = Some log →
  handleWebSocketMessage now {| m_type := "log"; m_task_id := taskId; m_data := data |} w
  = Some (notifyLog taskId log w).
Proof. intros H1. unfold handleWebSocketMessage. cbn. by rewrite H1. Qed.

Lemma handle_completed now taskId data result shown w :
  prop data "result" = Some result → prop data "message" = Some shown →
  handleWebSocketMessage now {| m_type := "completed"; m_task_id := taskId; m_data := data |} w
  = Some (disconnect taskId
            (emit (ToastSuccess (js_or shown (JStr "Success")))
               (notifyTaskUpdate taskId
                  [("status", Some (JStr "completed")); ("completed_at", Some (JStr now));
                   ("result", result); ("progress", Some (JNum 100))] w))).
Proof. intros H1 H2. unfold handleWebSocketMessage. cbn. by rewrite H1, H2. Qed.

Lemma handle_failed now taskId data error w :
  prop data "error" = Some error →
  handleWebSocketMessage now {| m_type := "failed"; m_task_id := taskId; m_data := data |} w
  = Some (disconnect taskId
            (emit (ToastError (js_or error (JStr "Unknown error")))
               (notifyTaskUpdate taskId
                  [("status", Some (JStr "failed")); ("completed_at", Some (JStr now));
                   ("error", error)] w))).
Proof. intros H1. unfold handleWebSocketMessage. cbn. by rewrite H1. Qed.

(** Reading a property of [data] throws for every name, when [data] is
    [undefined] or [null], or for none. *)
Lemma prop_cases d :
  (∀ k, prop d k = None) ∨ (∀ k, ∃ v, prop d k = Some v).
Proof. destruct d as [[]|]; eauto. Qed.

Lemma handle_throws now type taskId data w :
  (∀ k, prop data k = None) →
  type ∈ ["status"; "progress"; "log"; "completed"; "failed"] →
  handleWebSocketMessage now {| m_type := type; m_task_id := taskId; m_data := data |} w
  = None.
Proof.
  intros Hthrow Htype. rewrite !elem_of_cons, elem_of_nil in Htype.
  destruct Htype as [->|[->|[->|[->|[->|[]]]]]];
    unfold handleWebSocketMessage; cbn; by rewrite !Hthrow.
Qed.

(** A terminal dispatch: observers, write-through, toast, [disconnect]. *)
Lemma terminal_dispatch taskId updates toast w :
  is_delivery toast = false → is_persist toast = false →
  let w' := disconnect taskId (emit toast (notifyTaskUpdate taskId updates w)) in
  deliveries (trace w')
    = deliveries (trace w)
      ++ map (fun cb => CallTaskUpdate (cb_id cb) taskId updates) (taskUpdateCallbacks w) ∧
  persists (trace w') = persists (trace w) ++ [Persist taskId updates] ∧
  storage w' = ApiService.updateTaskInHistory taskId updates (storage w) ∧
  taskUpdateCallbacks w' = taskUpdateCallbacks w ∧
  logCallbacks w' = logCallbacks w.
Proof.
  intros Hd Hp w'. subst w'.
  destruct (disconnect_quiet taskId (emit toast (notifyTaskUpdate taskId updates w)))
    as (-> & -> & -> & -> & ->).
  destruct (emit_quiet toast (notifyTaskUpdate taskId updates w) Hd Hp) as (-> & ->).
  cbn. apply notifyTaskUpdate_dispatch.
Qed.

(** C8, as stated, fails for log events: a log message is handed
    to the log observer and [updateTaskInHistory] is not called; storage is
    what it was. *)
Lemma log_dispatch_not_persisted :
  ∃ w w',
    run accepts_all
      [ CallOnLog {| cb_id := 1; cb_throws := false |}; CallConnect "t1"; SocketOpen 0 ]
      init = Some w ∧
    step accepts_all
      (SocketMessage 0
         (Wire {| m_type := "log"; m_task_id := "t1";
                  m_data := Some (JObj [("message", JStr "step 1 done")]) |})
         "2024-01-01T00:00:00.000Z") w = Some w' ∧
    deliveries (trace w') = [CallLog 1 "t1" (Some (JStr "step 1 done"))] ∧
    persists (trace w') = [] ∧
    storage w' = storage w.
Proof.
  eexists _, _. split; [vm_compute; reflexivity|].
  split; [vm_compute; reflexivity|].
  split; [vm_compute; reflexivity|]. split; vm_compute; reflexivity.
Qed.

Lemma stopPolling_quiet taskId w :
  deliveries (trace (stopPolling taskId w)) = deliveries (trace w) ∧
  persists (trace (stopPolling taskId w)) = persists (trace w) ∧
  storage (stopPolling taskId w) = storage w.
Proof.
  unfold stopPolling. destruct (pollingIntervals w !! taskId); [|done]. cbn.
  by rewrite deliveries_app, persists_app, !app_nil_r.
Qed.

(** A polled status goes through [notifyTaskUpdate] as well. *)
Lemma pollSettled_dispatch taskId status w :
  let w' := pollSettled taskId (FetchOk status) w in
  deliveries (trace w')
    = deliveries (trace w)
      ++ map (fun cb => CallTaskUpdate (cb_id cb) taskId (OMap.of_rec status))
           (taskUpdateCallbacks w) ∧
  persists (trace w') = persists (trace w) ++ [Persist taskId (OMap.of_rec status)] ∧
  storage w' = ApiService.updateTaskInHistory taskId (OMap.of_rec status) (storage w).
Proof.
  intros w'. subst w'. unfold pollSettled, andThen.
  destruct (notifyTaskUpdate_dispatch taskId (OMap.of_rec status) w) as (Hd & Hp & Hs & _).
  destruct (stopPolling_quiet taskId (notifyTaskUpdate taskId (OMap.of_rec status) w))
    as (Hd' & Hp' & Hs').
  destruct (OMap.get "status" status) as [[]|]; try done.
  destruct (_ || _); [|done]. by rewrite Hd', Hp', Hs'.
Qed.

(** What a dispatched message shows, by its type. *)
Lemma handle_dispatch (now : string) (message : WebSocketMessage) (w w' : World) :
  handleWebSocketMessage now message w = Some w' →
  (m_type message ∈ ["status"; "progress"; "completed"; "failed"] →
   ∃ updates,
     deliveries (trace w')
       = deliveries (trace w)
         ++ map (fun cb => CallTaskUpdate (cb_id cb) (m_task_id message) updates)
              (taskUpdateCallbacks w) ∧
     persists (trace w') = persists (trace w) ++ [Persist (m_task_id message) updates] ∧
     storage w'
       = ApiService.updateTaskInHistory (m_task_id message) updates (storage w) ∧
     taskUpdateCallbacks w' = taskUpdateCallbacks w) ∧
  (m_type message = "log" →
   ∃ log,
     deliveries (trace w')
       = deliveries (trace w)
         ++ map (fun cb => CallLog (cb_id cb) (m_task_id message) log) (logCallbacks w) ∧
     persists (trace w') = persists (trace w) ∧
     storage w' = storage w).
Proof.
  destruct message as [type taskId data]. cbn [m_type m_task_id]. intros Hw'.
  destruct (prop_cases data) as [Hthrow|Hprop].
  { split.
    - intros Htype. rewrite handle_throws in Hw'; [done..|].
      rewrite !elem_of_cons, elem_of_nil in Htype. rewrite !elem_of_cons. tauto.
    - intros ->. rewrite handle_throws in Hw'; [done..|].
      rewrite !elem_of_cons. tauto. }
  split.
  - intros Htype. rewrite !elem_of_cons, elem_of_nil in Htype.
    destruct Htype as [->|[->|[->|[->|[]]]]].
    + destruct (Hprop "status") as [status H1]. destruct (Hprop "progress") as [progress H2].
      rewrite (handle_status _ _ _ _ _ _ H1 H2) in Hw'. injection Hw' as <-.
      eexists. by destruct (notifyTaskUpdate_dispatch taskId
                              [("status", status); ("progress", progress)] w)
        as (-> & -> & -> & -> & _).
    + destruct (Hprop "progress") as [progress H1].
      rewrite (handle_progress _ _ _ _ _ H1) in Hw'. injection Hw' as <-.
      eexists. by destruct (notifyTaskUpdate_dispatch taskId [("progress", progress)] w)
        as (-> & -> & -> & -> & _).
    + destruct (Hprop "result") as [result H1]. destruct (Hprop "message") as [shown H2].
      rewrite (handle_completed _ _ _ _ _ _ H1 H2) in Hw'. injection Hw' as <-.
      eexists. by destruct (terminal_dispatch taskId
                              [("status", Some (JStr "completed"));
                               ("completed_at", Some (JStr now));
                               ("result", result); ("progress", Some (JNum 100))]
                              (ToastSuccess (js_or shown (JStr "Success"))) w eq_refl eq_refl)
        as (-> & -> & -> & -> & _).
    + destruct (Hprop "error") as [error H1].
      rewrite (handle_failed _ _ _ _ _ H1) in Hw'. injection Hw' as <-.
      eexists. by destruct (terminal_dispatch taskId
                              [("status", Some (JStr "failed"));
                               ("completed_at", Some (JStr now)); ("error", error)]
                              (ToastError (js_or error (JStr "Unknown error"))) w eq_refl eq_refl)
        as (-> & -> & -> & -> & _).
  - intros ->. destruct (Hprop "message") as [log H1].
    rewrite (handle_log _ _ _ _ _ H1) in Hw'. injection Hw' as <-.
    exists log. rewrite notifyLog_eq. cbn.
    by rewrite deliveries_app, persists_app, deliveries_log_calls, persists_log_calls,
         app_nil_r.
Qed.

(** C8, amended.  A status, progress, completed or failed message that is
    dispatched hands one update object to every task-update observer and calls
    [updateTaskInHistory] exactly once, for the same task with the same
    object, which is what is written to storage; so does a polled status.  A
    log message is handed to the log observers without a call of
    [updateTaskInHistory]. *)
Theorem dispatch_persists (now : string) (message : WebSocketMessage) (w w' : World) :
  handleWebSocketMessage now message w = Some w' →
  (m_type message ∈ ["status"; "progress"; "completed"; "failed"] →
   ∃ updates,
     deliveries (trace w')
       = deliveries (trace w)
         ++ map (fun cb => CallTaskUpdate (cb_id cb) (m_task_id message) updates)
              (taskUpdateCallbacks w) ∧
     persists (trace w') = persists (trace w) ++ [Persist (m_task_id message) updates] ∧
     storage w'
       = ApiService.updateTaskInHistory (m_task_id message) updates (storage w)) ∧
  (m_type message = "log" →
   ∃ log,
     deliveries (trace w')
       = deliveries (trace w)
         ++ map (fun cb => CallLog (cb_id cb) (m_task_id message) log) (logCallbacks w) ∧
     persists (trace w') = persists (trace w) ∧
     storage w' = storage w) ∧
  (∀ (taskId : string) (status : Rec),
     let v := pollSettled taskId (FetchOk status) w in
     deliveries (trace v)
       = deliveries (trace w)
         ++ map (fun cb => CallTaskUpdate (cb_id cb) taskId (OMap.of_rec status))
              (taskUpdateCallbacks w) ∧
     persists (trace v) = persists (trace w) ++ [Persist taskId (OMap.of_rec status)] ∧
     storage v = ApiService.updateTaskInHistory taskId (OMap.of_rec status) (storage w)).
Proof.
  intros Hw'. destruct (handle_dispatch now message w w' Hw') as [Hupd Hlog].
  split; [|split; [exact Hlog|]].
  - intros Htype. destruct (Hupd Htype) as (updates & Hd & Hp & Hs & _). eauto.
  - intros taskId status. apply pollSettled_dispatch.
Qed.

Lemma dispatch_persists_witness :
  ∃ w' updates,
    handleWebSocketMessage "2024-01-01T00:00:00.000Z"
      {| m_type := "status"; m_task_id := "t1";
         m_data := Some (JObj [("status", JStr "running"); ("progress", JNum 5)]) |}
      watched = Some w' ∧
    deliveries (trace w') = deliveries (trace watched) ++ [CallTaskUpdate 1 "t1" updates] ∧
    persists (trace w') = persists (trace watched) ++ [Persist "t1" updates].
Proof.
  eexists.
  destruct (dispatch_persists "2024-01-01T00:00:00.000Z"
              {| m_type := "status"; m_task_id := "t1";
                 m_data := Some (JObj [("status", JStr "running"); ("progress", JNum 5)]) |}
              watched _ eq_refl) as (Hupd & _ & _).
  destruct Hupd as (updates & Hd & Hp & _).
  { simpl. apply list_elem_of_here. }
  exists updates. split; [reflexivity|]. split; [exact Hd|exact Hp].
Defined.

(* ===================================================================== *)
(** ** Ordering and the completed record *)
(* ===================================================================== *)

Lemma get_to_rec_None k (o : Obj) :
  OMap.get k o = None → OMap.get k (OMap.to_rec o) = None.
Proof.
  induction o as [|[k' [v'|]] o IH]; simpl; [done| |].
  - destruct (String.eqb k' k); [done|auto].
  - destruct (String.eqb k' k); [done|auto].
Qed.

(** A property the updates do not name is stored as it was. *)
Lemma get_merged_absent k r updates :
  OMap.get k updates = None →
  OMap.get k (ApiService.merged r updates) = OMap.get k r.
Proof.
  intros Habsent. unfold ApiService.merged.
  pose proof (OMapFacts.get_spread_absent k (OMap.of_rec r) updates Habsent) as Hs.
  rewrite OMapFacts.get_of_rec in Hs.
  destruct (OMap.get k r) as [v|] eqn:E; simpl in Hs.
  - by apply OMapFacts.get_to_rec.
  - by apply get_to_rec_None.
Qed.

(** The record of a task stays the record of that task when the updates do
    not name [id]. *)
Lemma has_id_merged taskId r updates :
  OMap.get "id" updates = None →
  ApiService.has_id taskId r = true →
  ApiService.has_id taskId (ApiService.merged r updates) = true.
Proof.
  intros Habsent. unfold ApiService.has_id. by rewrite get_merged_absent.
Qed.

Lemma updateTaskInHistory_present taskId updates history k r :
  findIndex (ApiService.has_id taskId) history = Some k →
  history !! k = Some r →
  OMap.get "id" updates = None →
  ApiService.updateTaskInHistory taskId updates (ApiService.Item history)
    = ApiService.Item (alter (fun r => ApiService.merged r updates) k history) ∧
  findIndex (ApiService.has_id taskId)
    (alter (fun r => ApiService.merged r updates) k history) = Some k ∧
  alter (fun r => ApiService.merged r updates) k history !! k
    = Some (ApiService.merged r updates).
Proof.
  intros Hk Hr Hid. unfold ApiService.updateTaskInHistory. simpl. rewrite Hk.
  split; [done|]. split.
  - apply findIndex_alter; [done|]. intros x. by apply has_id_merged.
  - by rewrite list_lookup_alter_eq, Hr.
Qed.

(** The object of a completed message puts [status], [completed_at] and
    [progress] into the record. *)
Lemma get_merged_completed r now result :
  let updates := [("status", Some (JStr "completed")); ("completed_at", Some (JStr now));
                  ("result", result); ("progress", Some (JNum 100))] in
  OMap.get "progress" (ApiService.merged r updates) = Some (JNum 100) ∧
  OMap.get "completed_at" (ApiService.merged r updates) = Some (JStr now) ∧
  OMap.get "status" (ApiService.merged r updates) = Some (JStr "completed").
Proof.
  intros updates. subst updates. unfold ApiService.merged, OMap.spread. simpl foldl.
  repeat split; apply OMapFacts.get_to_rec.
  - apply OMapFacts.get_set_eq.
  - rewrite !OMapFacts.get_set_ne by done. apply OMapFacts.get_set_eq.
  - rewrite !OMapFacts.get_set_ne by done. apply OMapFacts.get_set_eq.
Qed.

Lemma onmessage_progress taskId d now w :
  ws_onmessage (message_event "progress" taskId d) now w
  = notifyTaskUpdate taskId [("progress", OMap.get "progress" d)] w.
Proof. unfold ws_onmessage, message_event. simpl JSON_parse. simpl mbind.
  by rewrite (handle_progress now taskId (Some (JObj d)) (OMap.get "progress" d)). Qed.

Lemma onmessage_completed taskId d now w :
  ws_onmessage (message_event "completed" taskId d) now w
  = disconnect taskId
      (emit (ToastSuccess (js_or (OMap.get "message" d) (JStr "Success")))
         (notifyTaskUpdate taskId
            [("status", Some (JStr "completed")); ("completed_at", Some (JStr now));
             ("result", OMap.get "result" d); ("progress", Some (JNum 100))] w)).
Proof. unfold ws_onmessage, message_event. simpl JSON_parse. simpl mbind.
  by rewrite (handle_completed now taskId (Some (JObj d)) (OMap.get "result" d)
                (OMap.get "message" d)). Qed.

Lemma onmessage_failed taskId d now w :
  ws_onmessage (message_event "failed" taskId d) now w
  = disconnect taskId
      (emit (ToastError (js_or (OMap.get "error" d) (JStr "Unknown error")))
         (notifyTaskUpdate taskId
            [("status", Some (JStr "failed")); ("completed_at", Some (JStr now));
             ("error", OMap.get "error" d)] w)).
Proof. unfold ws_onmessage, message_event. simpl JSON_parse. simpl mbind.
  by rewrite (handle_failed now taskId (Some (JObj d)) (OMap.get "error" d)). Qed.

(** C6.  Three messages for a task on a channel, progress 10, progress 50 and
    completed: every task-update observer is called three times more, in the
    order of registration for each message and in the order of the messages,
    with [{progress: 10}], [{progress: 50}] and the completed object, whose
    progress is 100 and whose [completed_at] is the time of the dispatch; and
    the record of the task in the stored history (the write-through changes
    stored records only) ends with status completed, progress 100 and that
    [completed_at].  A failed message hands on an object without [progress],
    and the stored progress stays. *)
Theorem progress_then_completed_in_order (w : World) (taskId : string)
    (d1 d2 d3 : Rec) (now1 now2 now3 : string) :
  OMap.get "progress" d1 = Some (JNum 10) →
  OMap.get "progress" d2 = Some (JNum 50) →
  let w3 :=
    ws_onmessage (message_event "completed" taskId d3) now3
      (ws_onmessage (message_event "progress" taskId d2) now2
         (ws_onmessage (message_event "progress" taskId d1) now1 w)) in
  let completed :=
    [("status", Some (JStr "completed")); ("completed_at", Some (JStr now3));
     ("result", OMap.get "result" d3); ("progress", Some (JNum 100))] in
  let calls updates :=
    map (fun cb => CallTaskUpdate (cb_id cb) taskId updates) (taskUpdateCallbacks w) in
  deliveries (trace w3)
    = deliveries (trace w)
      ++ calls [("progress", Some (JNum 10))]
      ++ calls [("progress", Some (JNum 50))]
      ++ calls completed ∧
  (∀ (history : list Rec) (k : nat),
     storage w = ApiService.Item history →
     findIndex (ApiService.has_id taskId) history = Some k →
     ∃ history' r,
       storage w3 = ApiService.Item history' ∧
       findIndex (ApiService.has_id taskId) history' = Some k ∧
       history' !! k = Some r ∧
       OMap.get "progress" r = Some (JNum 100) ∧
       OMap.get "completed_at" r = Some (JStr now3) ∧
       OMap.get "status" r = Some (JStr "completed")) ∧
  (∀ (d : Rec) (now : string),
     let failed := [("status", Some (JStr "failed")); ("completed_at", Some (JStr now));
                    ("error", OMap.get "error" d)] in
     let wf := ws_onmessage (message_event "failed" taskId d) now w in
     OMap.get "progress" failed = None ∧
     deliveries (trace wf) = deliveries (trace w) ++ calls failed ∧
     ∀ (history : list Rec) (k : nat),
       storage w = ApiService.Item history →
       findIndex (ApiService.has_id taskId) history = Some k →
       ∃ history' r0 r,
         history !! k = Some r0 ∧
         storage wf = ApiService.Item history' ∧
         history' !! k = Some r ∧
         OMap.get "progress" r = OMap.get "progress" r0).
Proof.
  intros Hp1 Hp2 w3 completed calls.
  split; [|split].
  - subst w3 calls. rewrite onmessage_completed, !onmessage_progress, Hp1, Hp2.
    fold completed.
    set (w1 := notifyTaskUpdate taskId [("progress", Some (JNum 10))] w).
    set (w2 := notifyTaskUpdate taskId [("progress", Some (JNum 50))] w1).
    destruct (terminal_dispatch taskId completed
                (ToastSuccess (js_or (OMap.get "message" d3) (JStr "Success"))) w2
                eq_refl eq_refl) as (-> & _).
    subst w2.
    destruct (notifyTaskUpdate_dispatch taskId [("progress", Some (JNum 50))] w1)
      as (-> & _ & _ & -> & _).
    subst w1.
    destruct (notifyTaskUpdate_dispatch taskId [("progress", Some (JNum 10))] w)
      as (-> & _ & _ & -> & _).
    by rewrite <- !app_assoc.
  - intros history k Hst Hk.
    destruct (findIndex_Some _ _ _ Hk) as (r0 & Hr0 & _).
    subst w3. rewrite onmessage_completed, !onmessage_progress, Hp1, Hp2.
    fold completed.
    set (w1 := notifyTaskUpdate taskId [("progress", Some (JNum 10))] w).
    set (w2 := notifyTaskUpdate taskId [("progress", Some (JNum 50))] w1).
    destruct (terminal_dispatch taskId completed
                (ToastSuccess (js_or (OMap.get "message" d3) (JStr "Success"))) w2
                eq_refl eq_refl) as (_ & _ & -> & _).
    subst w2.
    destruct (notifyTaskUpdate_dispatch taskId [("progress", Some (JNum 50))] w1)
      as (_ & _ & -> & _).
    subst w1.
    destruct (notifyTaskUpdate_dispatch taskId [("progress", Some (JNum 10))] w)
      as (_ & _ & -> & _).
    rewrite Hst.
    destruct (updateTaskInHistory_present taskId [("progress", Some (JNum 10))]
                history k r0 Hk Hr0 eq_refl) as (-> & Hk1 & Hr1).
    destruct (updateTaskInHistory_present taskId [("progress", Some (JNum 50))]
                _ k _ Hk1 Hr1 eq_refl) as (-> & Hk2 & Hr2).
    destruct (updateTaskInHistory_present taskId completed
                _ k _ Hk2 Hr2 eq_refl) as (-> & Hk3 & Hr3).
    eexists _, _. split; [reflexivity|]. split; [exact Hk3|]. split; [exact Hr3|].
    apply get_merged_completed.
  - intros d now failed wf. split; [reflexivity|].
    subst wf. rewrite onmessage_failed. fold failed.
    destruct (terminal_dispatch taskId failed
                (ToastError (js_or (OMap.get "error" d) (JStr "Unknown error"))) w
                eq_refl eq_refl) as (-> & _ & -> & _).
    split; [done|]. intros history k Hst Hk.
    destruct (findIndex_Some _ _ _ Hk) as (r0 & Hr0 & _).
    rewrite Hst.
    destruct (updateTaskInHistory_present taskId failed history k r0 Hk Hr0 eq_refl)
      as (-> & _ & Hr1).
    eexists _, r0, _. split; [done|]. split; [reflexivity|]. split; [exact Hr1|].
    by apply get_merged_absent.
Qed.

Lemma progress_then_completed_in_order_witness :
  let w3 :=
    ws_onmessage (message_event "completed" "t2" [("message", JStr "done")]) "T3"
      (ws_onmessage (message_event "progress" "t2" [("progress", JNum 50)]) "T2"
         (ws_onmessage (message_event "progress" "t2" [("progress", JNum 10)]) "T1"
            stored_and_watched)) in
  deliveries (trace w3)
    = [ CallTaskUpdate 1 "t2" [("progress", Some (JNum 10))];
        CallTaskUpdate 1 "t2" [("progress", Some (JNum 50))];
        CallTaskUpdate 1 "t2"
          [("status", Some (JStr "completed")); ("completed_at", Some (JStr "T3"));
           ("result", None); ("progress", Some (JNum 100))] ] ∧
  ∃ history' r,
    storage w3 = ApiService.Item history' ∧
    history' !! 1%nat = Some r ∧
    OMap.get "progress" r = Some (JNum 100) ∧
    OMap.get "completed_at" r = Some (JStr "T3").
Proof.
  intros w3.
  destruct (progress_then_completed_in_order stored_and_watched "t2"
              [("progress", JNum 10)] [("progress", JNum 50)] [("message", JStr "done")]
              "T1" "T2" "T3" eq_refl eq_refl) as (Hd & Hstored & _).
  destruct (Hstored sample_history 1%nat eq_refl eq_refl)
    as (history' & r & Hs & _ & Hr & Hp & Hc & _).
  split; [exact Hd|].
  exists history', r. auto.
Defined.

(* ===================================================================== *)
(** ** A message that does not parse *)
(* ===================================================================== *)

Lemma retrace_trace w : retrace (trace w) w = w.
Proof. by destruct w. Qed.

Lemma appending_trace f w :
  appending f →
  ∃ acts, trace (f w) = trace w ++ acts ∧
          ∀ tr, f (retrace tr w) = retrace (tr ++ acts) (f w).
Proof.
  intros Hf. destruct (Hf w) as [acts Hacts]. exists acts. split; [|done].
  specialize (Hacts (trace w)). rewrite retrace_trace in Hacts. by rewrite Hacts.
Qed.

Ltac appending_field :=
  intros w; exists []; intros tr; unfold retrace, set_trace; cbn; by rewrite app_nil_r.

Lemma appending_skip : appending skip.
Proof. appending_field. Qed.

Lemma appending_emit a : appending (emit a).
Proof. intros w. by exists [a]. Qed.

Lemma appending_set_connections f : appending (set_connections f).
Proof. appending_field. Qed.

Lemma appending_set_reconnectAttempts f : appending (set_reconnectAttempts f).
Proof. appending_field. Qed.

Lemma appending_set_sockets f : appending (set_sockets f).
Proof. appending_field. Qed.

Lemma appending_andThen f g : appending f → appending g → appending (f >>> g).
Proof.
  intros Hf Hg w. destruct (Hf w) as [a1 H1]. destruct (Hg (f w)) as [a2 H2].
  exists (a1 ++ a2). intros tr. unfold andThen.
  rewrite H1, H2. by rewrite app_assoc.
Qed.

Lemma appending_stopPolling taskId : appending (stopPolling taskId).
Proof.
  intros w. unfold stopPolling. cbn.
  destruct (pollingIntervals w !! taskId).
  - by exists [Console (LogStoppedPolling taskId)].
  - exists []. intros tr. unfold retrace, set_trace. cbn. by rewrite app_nil_r.
Qed.

Lemma appending_disconnect taskId : appending (disconnect taskId).
Proof.
  unfold disconnect. apply appending_andThen; [apply appending_andThen|].
  - intros w. cbn. destruct (OMap.get taskId (connections w)).
    + apply (appending_andThen _ _ (appending_set_sockets _) (appending_set_connections _)).
    + apply appending_skip.
  - apply appending_stopPolling.
  - apply appending_set_reconnectAttempts.
Qed.

Lemma appending_notifyTaskUpdate taskId updates :
  appending (notifyTaskUpdate taskId updates).
Proof.
  intros w.
  exists (update_calls taskId updates (taskUpdateCallbacks w)
            ++ Persist taskId updates :: history_warning (storage w)).
  intros tr. by rewrite !notifyTaskUpdate_eq.
Qed.

Lemma appending_notifyLog taskId log : appending (notifyLog taskId log).
Proof.
  intros w. exists (log_calls taskId log (logCallbacks w)).
  intros tr. by rewrite !notifyLog_eq.
Qed.

(** A message either throws in every world or is handled by an appending
    statement. *)
Lemma handleWebSocketMessage_appending now message :
  (∀ w, handleWebSocketMessage now message w = None) ∨
  ∃ f, appending f ∧ ∀ w, handleWebSocketMessage now message w = Some (f w).
Proof.
  destruct message as [type taskId data]. unfold handleWebSocketMessage.
  cbn [m_type m_task_id m_data].
  destruct (String.eqb type "status").
  { destruct (prop data "status") as [status|]; [|by left].
    destruct (prop data "progress") as [progress|]; [|by left].
    right. eexists. split; [|done]. apply appending_notifyTaskUpdate. }
  destruct (String.eqb type "progress").
  { destruct (prop data "progress") as [progress|]; [|by left].
    right. eexists. split; [|done]. apply appending_notifyTaskUpdate. }
  destruct (String.eqb type "log").
  { destruct (prop data "message") as [log|]; [|by left].
    right. eexists. split; [|done]. apply appending_notifyLog. }
  destruct (String.eqb type "completed").
  { destruct (prop data "result") as [result|]; [|by left].
    destruct (prop data "message") as [shown|]; [|by left].
    right.
    exists (notifyTaskUpdate taskId
              [("status", Some (JStr "completed")); ("completed_at", Some (JStr now));
               ("result", result); ("progress", Some (JNum 100))] >>>
            emit (ToastSuccess (js_or shown (JStr "Success"))) >>>
            disconnect taskId).
    split; [|done].
    apply appending_andThen; [apply appending_andThen|];
      [apply appending_notifyTaskUpdate|apply appending_emit|apply appending_disconnect]. }
  destruct (String.eqb type "failed").
  { destruct (prop data "error") as [error|]; [|by left].
    right.
    exists (notifyTaskUpdate taskId
              [("status", Some (JStr "failed")); ("completed_at", Some (JStr now));
               ("error", error)] >>>
            emit (ToastError (js_or error (JStr "Unknown error"))) >>>
            disconnect taskId).
    split; [|done].
    apply appending_andThen; [apply appending_andThen|];
      [apply appending_notifyTaskUpdate|apply appending_emit|apply appending_disconnect]. }
  right. exists (console (WarnUnknownType type)). split; [|done]. apply appending_emit.
Qed.

Lemma appending_ws_onmessage raw now : appending (ws_onmessage raw now).
Proof.
  unfold ws_onmessage. destruct raw as [|message]; simpl.
  - apply appending_emit.
  - destruct (handleWebSocketMessage_appending now message) as [Hthrow|(f & Hf & Heq)].
    + intros w. exists [Console ErrParse]. intros tr. by rewrite !Hthrow.
    + intros w. destruct (Hf w) as [acts Hacts]. exists acts. intros tr.
      by rewrite !Heq.
Qed.

(** What the handler of a message with an object as data hands to the
    observers, by the type of the message. *)
Lemma dispatched_callbacks now type taskId d w w' :
  taskUpdateCallbacks w' = taskUpdateCallbacks w → logCallbacks w' = logCallbacks w →
  dispatched now type taskId d w' = dispatched now type taskId d w.
Proof. unfold dispatched. by intros -> ->. Qed.

Lemma onmessage_dispatched type taskId d now w :
  let w' := ws_onmessage (message_event type taskId d) now w in
  deliveries (trace w') = deliveries (trace w) ++ dispatched now type taskId d w ∧
  taskUpdateCallbacks w' = taskUpdateCallbacks w ∧
  logCallbacks w' = logCallbacks w.
Proof.
  intros w'. subst w'. unfold dispatched.
  destruct (String.eqb type "status") eqn:E1.
  { apply String.eqb_eq in E1 as ->.
    unfold ws_onmessage, message_event. simpl JSON_parse. simpl mbind.
    rewrite (handle_status now taskId (Some (JObj d)) (OMap.get "status" d)
               (OMap.get "progress" d)) by done.
    by destruct (notifyTaskUpdate_dispatch taskId
                   [("status", OMap.get "status" d); ("progress", OMap.get "progress" d)] w)
      as (-> & _ & _ & -> & ->). }
  destruct (String.eqb type "progress") eqn:E2.
  { apply String.eqb_eq in E2 as ->. rewrite onmessage_progress.
    by destruct (notifyTaskUpdate_dispatch taskId [("progress", OMap.get "progress" d)] w)
      as (-> & _ & _ & -> & ->). }
  destruct (String.eqb type "log") eqn:E3.
  { apply String.eqb_eq in E3 as ->.
    unfold ws_onmessage, message_event. simpl JSON_parse. simpl mbind.
    rewrite (handle_log now taskId (Some (JObj d)) (OMap.get "message" d)) by done.
    rewrite notifyLog_eq. cbn [trace set_trace taskUpdateCallbacks logCallbacks].
    by rewrite deliveries_app, deliveries_log_calls. }
  destruct (String.eqb type "completed") eqn:E4.
  { apply String.eqb_eq in E4 as ->. rewrite onmessage_completed.
    by destruct (terminal_dispatch taskId
                   [("status", Some (JStr "completed")); ("completed_at", Some (JStr now));
                    ("result", OMap.get "result" d); ("progress", Some (JNum 100))]
                   (ToastSuccess (js_or (OMap.get "message" d) (JStr "Success"))) w
                   eq_refl eq_refl) as (-> & _ & _ & -> & ->). }
  destruct (String.eqb type "failed") eqn:E5.
  { apply String.eqb_eq in E5 as ->. rewrite onmessage_failed.
    by destruct (terminal_dispatch taskId
                   [("status", Some (JStr "failed")); ("completed_at", Some (JStr now));
                    ("error", OMap.get "error" d)]
                   (ToastError (js_or (OMap.get "error" d) (JStr "Unknown error"))) w
                   eq_refl eq_refl) as (-> & _ & _ & -> & ->). }
  unfold ws_onmessage, message_event, handleWebSocketMessage.
  simpl JSON_parse. cbn [mbind option_bind m_type m_task_id m_data].
  rewrite E1, E2, E3, E4, E5. cbn [trace console emit set_trace taskUpdateCallbacks
                                     logCallbacks].
  rewrite deliveries_app. simpl. by rewrite !app_nil_r.
Qed.

(** C7.  A message that does not parse, between two others on a channel: its
    handler writes one console line and changes nothing else (no socket is
    closed, no entry of any task is touched); the world after the three
    messages is the world after the two others alone, with that one console
    line between their actions; so the observers and the write-through get
    exactly what the two others give them.  When the two others carry an
    object as data, the observers are called with exactly the two dispatches
    of their types, in order: for each task-update observer the update object
    of a status, progress, completed or failed message, for each log observer
    the line of a log message; and nothing else. *)
Theorem malformed_message_is_skipped (raw1 raw2 : RawMessage) (now1 now now2 : string)
    (w : World) :
  let w1 := ws_onmessage raw1 now1 w in
  let w2 := ws_onmessage Malformed now w1 in
  let w3 := ws_onmessage raw2 now2 w2 in
  let v := ws_onmessage raw2 now2 w1 in
  w2 = console ErrParse w1 ∧
  (∃ acts, trace v = trace w1 ++ acts ∧
           trace w3 = trace w1 ++ Console ErrParse :: acts) ∧
  w3 = retrace (trace w3) v ∧
  deliveries (trace w3) = deliveries (trace v) ∧
  persists (trace w3) = persists (trace v) ∧
  (∀ m1 m2 v1 v2,
     raw1 = Wire m1 → raw2 = Wire m2 →
     m_type m1 ∈ ["status"; "progress"; "completed"; "failed"] →
     m_type m2 ∈ ["status"; "progress"; "completed"; "failed"] →
     handleWebSocketMessage now1 m1 w = Some v1 →
     handleWebSocketMessage now2 m2 v1 = Some v2 →
     ∃ u1 u2,
       deliveries (trace w3)
       = deliveries (trace w)
         ++ map (fun cb => CallTaskUpdate (cb_id cb) (m_task_id m1) u1)
              (taskUpdateCallbacks w)
         ++ map (fun cb => CallTaskUpdate (cb_id cb) (m_task_id m2) u2)
              (taskUpdateCallbacks w)) ∧
  (∀ type1 taskId1 d1 type2 taskId2 d2,
     raw1 = message_event type1 taskId1 d1 → raw2 = message_event type2 taskId2 d2 →
     deliveries (trace w3)
     = deliveries (trace w)
       ++ dispatched now1 type1 taskId1 d1 w ++ dispatched now2 type2 taskId2 d2 w ∧
     taskUpdateCallbacks w3 = taskUpdateCallbacks w ∧
     logCallbacks w3 = logCallbacks w).
Proof.
  intros w1 w2 w3 v.
  assert (w2 = retrace (trace w1 ++ [Console ErrParse]) w1) as Hw2 by reflexivity.
  destruct (appending_trace _ w1 (appending_ws_onmessage raw2 now2))
    as (acts & Hv & Hacts).
  fold v in Hv, Hacts.
  assert (w3 = retrace ((trace w1 ++ [Console ErrParse]) ++ acts) v) as Hw3.
  { subst w3. by rewrite Hw2, Hacts. }
  assert (trace w3 = trace w1 ++ Console ErrParse :: acts) as Htr.
  { rewrite Hw3. cbn. by rewrite <- app_assoc. }
  assert (deliveries (trace w3) = deliveries (trace v)) as Hdel.
  { rewrite Htr, Hv.
    change (Console ErrParse :: acts) with ([Console ErrParse] ++ acts).
    by rewrite !deliveries_app. }
  split; [reflexivity|]. split; [eauto|]. split.
  { rewrite Htr. rewrite Hw3 at 1. by rewrite <- app_assoc. }
  split; [exact Hdel|]. split.
  { rewrite Htr, Hv.
    change (Console ErrParse :: acts) with ([Console ErrParse] ++ acts).
    by rewrite !persists_app. }
  split.
  - intros m1 m2 v1 v2 -> -> Ht1 Ht2 H1 H2.
    rewrite Hdel. subst v w1. unfold ws_onmessage. simpl JSON_parse. simpl mbind.
    rewrite H1, H2.
    destruct (handle_dispatch _ _ _ _ H1) as [Hu1 _].
    destruct (handle_dispatch _ _ _ _ H2) as [Hu2 _].
    destruct (Hu1 Ht1) as (u1 & Hd1 & _ & _ & Hcb).
    destruct (Hu2 Ht2) as (u2 & Hd2 & _).
    exists u1, u2. by rewrite Hd2, Hd1, Hcb, <- app_assoc.
  - intros type1 taskId1 d1 type2 taskId2 d2 Hraw1 Hraw2.
    destruct (onmessage_dispatched type1 taskId1 d1 now1 w) as (Hd1 & Ht1 & Hl1).
    rewrite <- Hraw1 in Hd1, Ht1, Hl1. fold w1 in Hd1, Ht1, Hl1.
    destruct (onmessage_dispatched type2 taskId2 d2 now2 w1) as (Hd2 & Ht2 & Hl2).
    rewrite <- Hraw2 in Hd2, Ht2, Hl2. fold v in Hd2, Ht2, Hl2.
    rewrite (dispatched_callbacks _ _ _ _ _ _ Ht1 Hl1) in Hd2.
    split; [by rewrite Hdel, Hd2, Hd1, <- app_assoc|].
    rewrite Hw3. cbn [taskUpdateCallbacks logCallbacks retrace set_trace].
    by rewrite Ht2, Hl2, Ht1, Hl1.
Qed.

Lemma malformed_message_is_skipped_witness :
  (∃ u1 u2,
     deliveries
       (trace
          (ws_onmessage (message_event "progress" "t1" [("progress", JNum 50)]) "T3"
             (ws_onmessage Malformed "T2"
                (ws_onmessage (message_event "progress" "t1" [("progress", JNum 10)]) "T1"
                   watched))))
     = deliveries (trace watched)
       ++ [CallTaskUpdate 1 "t1" u1] ++ [CallTaskUpdate 1 "t1" u2]) ∧
  deliveries
    (trace
       (ws_onmessage (message_event "progress" "t1" [("progress", JNum 50)]) "T3"
          (ws_onmessage Malformed "T2"
             (ws_onmessage (message_event "log" "t1" [("message", JStr "step 1")]) "T1"
                watched))))
  = deliveries (trace watched)
    ++ [CallLog 2 "t1" (Some (JStr "step 1"))]
    ++ [CallTaskUpdate 1 "t1" [("progress", Some (JNum 50))]].
Proof.
  split.
  - destruct (malformed_message_is_skipped
                (message_event "progress" "t1" [("progress", JNum 10)])
                (message_event "progress" "t1" [("progress", JNum 50)])
                "T1" "T2" "T3" watched) as (_ & _ & _ & _ & _ & Hvalid & _).
    destruct (Hvalid
                {| m_type := "progress"; m_task_id := "t1";
                   m_data := Some (JObj [("progress", JNum 10)]) |}
                {| m_type := "progress"; m_task_id := "t1";
                   m_data := Some (JObj [("progress", JNum 50)]) |}
                (notifyTaskUpdate "t1" [("progress", Some (JNum 10))] watched)
                (notifyTaskUpdate "t1" [("progress", Some (JNum 50))]
                   (notifyTaskUpdate "t1" [("progress", Some (JNum 10))] watched))
                eq_refl eq_refl) as (u1 & u2 & Hd).
    + apply list_elem_of_further, list_elem_of_here.
    + apply list_elem_of_further, list_elem_of_here.
    + reflexivity.
    + reflexivity.
    + exists u1, u2. exact Hd.
  - destruct (malformed_message_is_skipped
                (message_event "log" "t1" [("message", JStr "step 1")])
                (message_event "progress" "t1" [("progress", JNum 50)])
                "T1" "T2" "T3" watched) as (_ & _ & _ & _ & _ & _ & Hall).
    destruct (Hall "log" "t1" [("message", JStr "step 1")]
                "progress" "t1" [("progress", JNum 50)] eq_refl eq_refl) as (Hd & _).
    exact Hd.
Defined.

(* ===================================================================== *)
(** ** One channel per task *)
(* ===================================================================== *)

(** C1, as stated, fails: two [connectToTask] calls for one task,
    with nothing in between, build two sockets, and both can then open.  The
    first socket is not in [connections] before its [onopen], so the guard of
    the second call does not see it. *)
Lemma connectToTask_twice_two_channels :
  ¬ (∀ (taskId : string) (es : list Event) (w : World),
       Forall (fun e => e = CallConnect taskId ∨ e = CallDisconnect taskId) es →
       run accepts_all es init = Some w →
       (length (live_sockets taskId w) ≤ 1)%nat)
  ∧ ∃ w, run accepts_all
           [CallConnect "t1"; CallConnect "t1"; SocketOpen 0; SocketOpen 1] init = Some w
         ∧ sockets w = [ {| sock_task := "t1"; sock_ready := OPEN; sock_closing := None |};
                         {| sock_task := "t1"; sock_ready := OPEN; sock_closing := None |} ].
Proof.
  split.
  - intros H.
    specialize (H "t1" [CallConnect "t1"; CallConnect "t1"]
                  (connectToTask accepts_all "t1" (connectToTask accepts_all "t1" init))).
    assert (2 ≤ 1)%nat as Habs; [|lia].
    apply H; [|reflexivity].
    repeat constructor.
  - eexists. split; reflexivity.
Qed.

Lemma elem_of_keys_get {A} k (o : list (string * A)) :
  k ∈ OMap.keys o ↔ is_Some (OMap.get k o).
Proof.
  induction o as [|[k' v] o IH]; simpl.
  - split; [by intros ?%elem_of_nil|by intros [? ?]].
  - rewrite elem_of_cons, IH. destruct (String.eqb k' k) eqn:E.
    + apply String.eqb_eq in E as ->. split; eauto.
    + apply String.eqb_neq in E. split; [intros [?|?]; congruence || done|auto].
Qed.

Lemma keys_delete {A} k (o : list (string * A)) :
  NoDup (OMap.keys o) → NoDup (OMap.keys (OMap.delete k o)).
Proof.
  induction o as [|[k' v] o IH]; simpl; [done|].
  rewrite NoDup_cons. intros [Hk' Ho].
  destruct (String.eqb k' k) eqn:E; simpl; [auto|].
  rewrite NoDup_cons. split; [|auto].
  rewrite elem_of_keys_get in *. intros [v' Hv'].
  apply Hk'. exists v'. rewrite <- Hv'. symmetry.
  apply OMapFacts.get_delete_ne. apply String.eqb_neq in E. congruence.
Qed.

Lemma keys_set {A} k (v : A) (o : list (string * A)) :
  NoDup (OMap.keys o) → NoDup (OMap.keys (OMap.set k v o)).
Proof.
  induction o as [|[k' v'] o IH]; simpl.
  - intros _. apply NoDup_singleton.
  - rewrite NoDup_cons. intros [Hk' Ho].
    destruct (String.eqb k' k) eqn:E; simpl.
    + apply String.eqb_eq in E as ->. by rewrite NoDup_cons.
    + rewrite NoDup_cons. split; [|auto].
      rewrite elem_of_keys_get in *. intros [v0 Hv0]. apply Hk'. exists v0.
      rewrite <- Hv0. symmetry. apply OMapFacts.get_set_ne.
      apply String.eqb_neq in E. congruence.
Qed.

Lemma keeps_andThen f g : keeps_channels f → keeps_channels g → keeps_channels (f >>> g).
Proof.
  intros Hf Hg w. unfold andThen. destruct (Hg (f w)) as [-> ->]. apply Hf.
Qed.

Lemma keeps_emit a : keeps_channels (emit a).
Proof. done. Qed.

Lemma keeps_stopPolling taskId : keeps_channels (stopPolling taskId).
Proof. intros w. by destruct (stopPolling_frame taskId w) as (-> & _ & -> & _). Qed.

Lemma keeps_fallbackToPolling taskId : keeps_channels (fallbackToPolling taskId).
Proof. intros w. unfold fallbackToPolling. by destruct (pollingIntervals w !! taskId). Qed.

Lemma keeps_handleReconnection taskId : keeps_channels (handleReconnection taskId).
Proof.
  intros w. unfold handleReconnection.
  destruct (maxReconnectAttempts <=? _)%nat; [|done].
  apply (keeps_andThen _ _ (keeps_emit _) (keeps_fallbackToPolling taskId)).
Qed.

Lemma keeps_notifyTaskUpdate taskId updates : keeps_channels (notifyTaskUpdate taskId updates).
Proof. intros w. by rewrite notifyTaskUpdate_eq. Qed.

Lemma keeps_notifyLog taskId log : keeps_channels (notifyLog taskId log).
Proof. intros w. by rewrite notifyLog_eq. Qed.

Lemma registered_open_disconnect taskId w :
  registered_open w → registered_open (disconnect taskId w).
Proof.
  intros [Hnd Hopen]. split.
  - rewrite disconnect_connections. by apply keys_delete.
  - intros t ws. rewrite disconnect_connections, disconnect_sockets.
    destruct (decide (taskId = t)) as [->|Hne].
    { by rewrite OMapFacts.get_delete_eq. }
    rewrite OMapFacts.get_delete_ne by done. intros Hget.
    destruct (Hopen t ws Hget) as (sk & Hsk & Htask & Hready).
    exists sk. split; [|done].
    destruct (OMap.get taskId (connections w)) as [ws0|] eqn:Hget0; [|done].
    unfold ws_close. cbn. rewrite list_lookup_alter_ne; [done|].
    intros ->. destruct (Hopen taskId ws Hget0) as (sk0 & Hsk0 & Htask0 & _).
    congruence.
Qed.

Lemma registered_live_own w : registered_live w → registered_own w.
Proof.
  intros [Hnd Hlive]. split; [done|]. intros t ws Hget.
  destruct (Hlive t ws Hget) as (sk & Hsk & Htask & _). eauto.
Qed.

Lemma registered_live_frame w w' :
  connections w' = connections w → sockets w' = sockets w →
  registered_live w → registered_live w'.
Proof. unfold registered_live. by intros -> ->. Qed.

Lemma keeps_channels_live f w : keeps_channels f → registered_live w → registered_live (f w).
Proof. intros Hf. destruct (Hf w). by apply registered_live_frame. Qed.

Lemma registered_live_disconnect taskId w :
  registered_live w → registered_live (disconnect taskId w).
Proof.
  intros [Hnd Hlive]. split.
  - rewrite disconnect_connections. by apply keys_delete.
  - intros t ws. rewrite disconnect_connections, disconnect_sockets.
    destruct (decide (taskId = t)) as [->|Hne].
    { by rewrite OMapFacts.get_delete_eq. }
    rewrite OMapFacts.get_delete_ne by done. intros Hget.
    destruct (Hlive t ws Hget) as (sk & Hsk & Htask & Hready).
    exists sk. split; [|done].
    destruct (OMap.get taskId (connections w)) as [ws0|] eqn:Hget0; [|done].
    unfold ws_close. cbn. rewrite list_lookup_alter_ne; [done|].
    intros ->. destruct (Hlive taskId ws Hget0) as (sk0 & Hsk0 & Htask0 & _).
    congruence.
Qed.

Lemma registered_live_disconnectAll w : registered_live w → registered_live (disconnectAll w).
Proof.
  unfold disconnectAll. generalize (OMap.keys (connections w)). intros ks.
  revert w. induction ks as [|k ks IH]; intros w Hw; simpl; [done|].
  apply IH. by apply registered_live_disconnect.
Qed.

Lemma registered_live_handle now message w w' :
  registered_live w → handleWebSocketMessage now message w = Some w' → registered_live w'.
Proof.
  intros Hw. destruct message as [type taskId data]. unfold handleWebSocketMessage.
  cbn [m_type m_task_id m_data].
  repeat (match goal with |- context [String.eqb type ?s] => destruct (String.eqb type s) end);
    repeat (match goal with |- context [prop data ?k] => destruct (prop data k); simpl end);
    try done; intros [= <-]; unfold andThen;
    repeat first [ apply registered_live_disconnect
                 | apply (keeps_channels_live _ _ (keeps_emit _))
                 | apply (keeps_channels_live _ _ (keeps_notifyTaskUpdate _ _))
                 | apply (keeps_channels_live _ _ (keeps_notifyLog _ _)) ]; done.
Qed.

Section Channels.
Variable ws_ctor_throws : string → bool.

Lemma registered_live_connectToTask taskId w :
  registered_live w → registered_live (connectToTask ws_ctor_throws taskId w).
Proof.
  intros Hw. unfold connectToTask.
  destruct (OMap.has taskId (connections w)); [done|].
  destruct (ws_ctor_throws taskId).
  - apply keeps_channels_live; [|done].
    apply (keeps_andThen _ _ (keeps_emit _) (keeps_fallbackToPolling taskId)).
  - destruct Hw as [Hnd Hlive]. split; [done|]. cbn. intros t ws Hget.
    destruct (Hlive t ws Hget) as (sk & Hsk & ?). exists sk. split; [|done].
    by apply lookup_app_l_Some.
Qed.

Lemma registered_live_step e w w' :
  registered_live w → step ws_ctor_throws e w = Some w' → registered_live w'.
Proof.
  intros Hw. destruct e; simpl.
  - intros [= <-]. by apply registered_live_connectToTask.
  - intros [= <-]. by apply registered_live_disconnect.
  - intros [= <-]. by apply registered_live_disconnectAll.
  - by intros [= <-].
  - by intros [= <-].
  - by intros [= <-].
  - by intros [= <-].
  - (* a socket opens *)
    destruct (sockets w !! ws) as [sk|] eqn:Hsk; [|done]. simpl.
    destruct (sock_ready sk) eqn:Hready; try done. intros [= <-].
    unfold ws_onopen, andThen.
    apply (keeps_channels_live _ _ (keeps_stopPolling _)).
    destruct Hw as [Hnd Hlive]. split; cbn.
    + by apply keys_set.
    + intros t ws'. destruct (decide (sock_task sk = t)) as [<-|Hne].
      * rewrite OMapFacts.get_set_eq. intros [= <-].
        rewrite list_lookup_alter_eq, Hsk. simpl. eauto.
      * rewrite OMapFacts.get_set_ne by done. intros Hget.
        destruct (Hlive t ws' Hget) as (sk' & Hsk' & Htask' & Hready').
        destruct (decide (ws = ws')) as [<-|Hws].
        -- rewrite list_lookup_alter_eq, Hsk. simpl. congruence.
        -- rewrite list_lookup_alter_ne by done. eauto.
  - (* a message *)
    destruct (sockets w !! ws) as [sk|]; [|done]. simpl.
    destruct (sock_ready sk); try done. intros [= <-].
    unfold ws_onmessage. destruct raw as [|message]; simpl; [done|].
    destruct (handleWebSocketMessage now message w) as [v|] eqn:Hv; [|done].
    by eapply registered_live_handle.
  - (* an error *)
    destruct (sockets w !! ws) as [sk|]; [|done]. simpl.
    assert (registered_live (ws_onerror (sock_task sk) w)) as Hw'.
    { unfold ws_onerror. apply keeps_channels_live; [|done].
      apply (keeps_andThen _ _ (keeps_emit _) (keeps_handleReconnection _)). }
    by destruct (sock_ready sk); intros [= <-].
  - (* a close *)
    destruct (sockets w !! ws) as [sk|] eqn:Hsk; [|done]. simpl.
    assert (registered_live ((set_ready ws CLOSED >>> ws_onclose (sock_task sk) code) w))
      as Hw'.
    { unfold ws_onclose, andThen.
      assert (keeps_channels (if (code =? 1000)%Z then skip
                              else handleReconnection (sock_task sk))) as Hk.
      { destruct (code =? 1000)%Z; [done|apply keeps_handleReconnection]. }
      apply (keeps_channels_live _ _ Hk).
      destruct Hw as [Hnd Hlive]. split; cbn -[OMap.delete].
      - by apply keys_delete.
      - intros t ws'. destruct (decide (sock_task sk = t)) as [<-|Hne].
        { by rewrite OMapFacts.get_delete_eq. }
        rewrite OMapFacts.get_delete_ne by done. intros Hget.
        destruct (Hlive t ws' Hget) as (sk' & Hsk' & Htask' & Hready').
        rewrite list_lookup_alter_ne; [eauto|]. intros ->. congruence. }
    by destruct (sock_ready sk); intros [= <-].
  - (* a reconnect timer *)
    destruct (find_timeout handle (timeouts w)) as [tm|]; [|done]. simpl.
    intros [= <-]. unfold reconnectTimer, andThen.
    by apply registered_live_connectToTask.
  - (* a polling tick *)
    destruct (intervals w !! handle); [|done]. by intros [= <-].
  - (* a status request settles *)
    destruct (fetches w !! k) as [taskId|]; [|done]. simpl. intros [= <-].
    destruct res as [status|message]; simpl; unfold andThen.
    + assert (keeps_channels
                match OMap.get "status" status with
                | Some (JStr s) =>
                    if String.eqb s "completed" || String.eqb s "failed"
                    then stopPolling taskId else skip
                | _ => skip
                end) as Hk.
      { destruct (OMap.get "status" status) as [[]|]; try done.
        destruct (_ || _); [apply keeps_stopPolling|done]. }
      apply (keeps_channels_live _ _ Hk).
      by apply (keeps_channels_live _ _ (keeps_notifyTaskUpdate _ _)).
    + done.
  - (* the server starts the closing handshake *)
    destruct (sockets w !! ws) as [sk|] eqn:Hsk; [|done]. simpl.
    destruct (sock_ready sk) eqn:Hready; try done. intros [= <-].
    destruct Hw as [Hnd Hlive]. split; [done|]. cbn. intros t ws' Hget.
    destruct (Hlive t ws' Hget) as (sk' & Hsk' & Htask' & Hready').
    destruct (decide (ws = ws')) as [<-|Hws].
    + rewrite Hsk in Hsk'. injection Hsk' as <-.
      rewrite list_lookup_alter_eq, Hsk. simpl. eexists. split; [reflexivity|].
      split; [exact Htask'|by right].
    + rewrite list_lookup_alter_ne by done. eauto.
Qed.

Lemma registered_live_run es w w' :
  registered_live w → run ws_ctor_throws es w = Some w' → registered_live w'.
Proof.
  revert w. induction es as [|e es IH]; intros w Hw; simpl.
  - by intros [= <-].
  - destruct (step ws_ctor_throws e w) as [w1|] eqn:Hstep; [|done]. simpl.
    apply IH. by eapply registered_live_step.
Qed.

Lemma registered_live_init : registered_live init.
Proof. split; [constructor|done]. Qed.

(** C1, amended.  Whatever the application calls and the browser does, the
    table of connections holds at most one socket per task, a socket built
    for that task; and a [connectToTask] for a task that has an entry in the
    table is a no-op: the world is unchanged, so no socket is built, no timer
    is set and nothing is written. *)
Theorem one_registered_channel_per_task :
  (∀ (es : list Event) (w : World),
     run ws_ctor_throws es init = Some w → registered_own w) ∧
  (∀ (taskId : string) (ws : nat) (w : World),
     OMap.get taskId (connections w) = Some ws →
     connectToTask ws_ctor_throws taskId w = w
     ∧ step ws_ctor_throws (CallConnect taskId) w = Some w
     ∧ live_sockets taskId (connectToTask ws_ctor_throws taskId w) = live_sockets taskId w).
Proof.
  split.
  - intros es w Hrun.
    apply registered_live_own. exact (registered_live_run es init w registered_live_init Hrun).
  - intros taskId ws w Hreg.
    assert (connectToTask ws_ctor_throws taskId w = w) as Heq.
    { unfold connectToTask. by rewrite (OMapFacts.has_get _ _ _ Hreg). }
    simpl. by rewrite Heq.
Qed.

End Channels.

Lemma one_registered_channel_per_task_witness :
  registered_own one_open_channel ∧
  OMap.get "t1" (connections one_open_channel) = Some 0%nat ∧
  connectToTask accepts_all "t1" one_open_channel = one_open_channel.
Proof.
  destruct (one_registered_channel_per_task accepts_all) as [Hinv Hnoop].
  split; [|split].
  - apply (Hinv [CallConnect "t1"; SocketOpen 0]). reflexivity.
  - reflexivity.
  - apply (Hnoop "t1" 0%nat one_open_channel). reflexivity.
Defined.

(* ===================================================================== *)
(** ** Unsubscribing, once and for all *)
(* ===================================================================== *)

Lemma disconnect_unknown taskId w :
  entry taskId w = (None, None, None) → disconnect taskId w = w.
Proof.
  unfold entry. intros [= Hc Hr Hp].
  unfold disconnect, andThen, stopPolling. rewrite Hc. cbn. rewrite Hp.
  destruct w. unfold set_reconnectAttempts. cbn in *. f_equal. by apply delete_id.
Qed.

Lemma disconnect_entry taskId w : entry taskId (disconnect taskId w) = (None, None, None).
Proof.
  unfold entry.
  rewrite disconnect_connections, disconnect_reconnectAttempts, disconnect_pollingIntervals.
  by rewrite OMapFacts.get_delete_eq, !lookup_delete_eq.
Qed.

(** X1.  [disconnect] for a task the service holds nothing for changes
    nothing, not even the console; after a [disconnect] the service holds
    nothing for the task; so a second [disconnect] in a row is a no-op. *)
Theorem disconnect_idempotent (taskId : string) (w : World) :
  (entry taskId w = (None, None, None) → disconnect taskId w = w) ∧
  entry taskId (disconnect taskId w) = (None, None, None) ∧
  disconnect taskId (disconnect taskId w) = disconnect taskId w.
Proof.
  split; [apply disconnect_unknown|]. split; [apply disconnect_entry|].
  apply disconnect_unknown, disconnect_entry.
Qed.

Lemma disconnect_idempotent_witness :
  disconnect "t1" init = init ∧
  disconnect "t1" (disconnect "t1" one_open_channel) = disconnect "t1" one_open_channel.
Proof.
  split.
  - exact (proj1 (disconnect_idempotent "t1" init) eq_refl).
  - exact (proj2 (proj2 (disconnect_idempotent "t1" one_open_channel))).
Defined.

(* --------------------------------------------------------------------- *)

Lemma elem_of_keys_delete {A} k k' (o : list (string * A)) :
  k' ∈ OMap.keys (OMap.delete k o) → k' ≠ k ∧ k' ∈ OMap.keys o.
Proof.
  rewrite !elem_of_keys_get. intros Hsome.
  destruct (decide (k = k')) as [->|Hne].
  - rewrite OMapFacts.get_delete_eq in Hsome. by destruct Hsome.
  - by rewrite OMapFacts.get_delete_ne in Hsome.
Qed.

Lemma foldl_delete_keys {A} (ks : list string) (o : list (string * A)) :
  (∀ k, k ∈ OMap.keys o → k ∈ ks) → foldl (fun c k => OMap.delete k c) o ks = [].
Proof.
  revert o. induction ks as [|k ks IH]; intros o Hsub; simpl.
  - destruct o as [|[k v] o]; [done|].
    specialize (Hsub k (list_elem_of_here _ _)). by apply elem_of_nil in Hsub.
  - apply IH. intros k' [Hne Hin]%elem_of_keys_delete.
    apply Hsub in Hin. apply elem_of_cons in Hin as [?|?]; done.
Qed.

Lemma foldl_disconnect_connections ks w :
  connections (foldl (fun acc taskId => disconnect taskId acc) w ks)
  = foldl (fun c k => OMap.delete k c) (connections w) ks.
Proof.
  revert w. induction ks as [|k ks IH]; intros w; simpl; [done|].
  by rewrite IH, disconnect_connections.
Qed.

Lemma foldl_disconnect_length ks w :
  length (sockets (foldl (fun acc taskId => disconnect taskId acc) w ks))
  = length (sockets w).
Proof.
  revert w. induction ks as [|k ks IH]; intros w; simpl; [done|].
  rewrite IH, disconnect_sockets.
  destruct (OMap.get k (connections w)); [|done]. apply length_alter.
Qed.

(** A socket that is closing is not touched by a [disconnect]. *)
Lemma foldl_disconnect_closing ks w ws sk :
  sockets w !! ws = Some sk → sock_ready sk = CLOSING →
  sockets (foldl (fun acc taskId => disconnect taskId acc) w ks) !! ws = Some sk.
Proof.
  revert w. induction ks as [|k ks IH]; intros w Hsk Hready; simpl; [done|].
  apply IH; [|done]. rewrite disconnect_sockets.
  destruct (OMap.get k (connections w)) as [ws'|]; [|done].
  unfold ws_close. cbn. destruct (decide (ws' = ws)) as [->|Hne].
  - rewrite list_lookup_alter_eq, Hsk. simpl. by rewrite Hready.
  - by rewrite list_lookup_alter_ne.
Qed.

Lemma foldl_disconnect_closes ks w taskId ws :
  registered_open w → OMap.get taskId (connections w) = Some ws → taskId ∈ ks →
  sockets (foldl (fun acc k => disconnect k acc) w ks) !! ws
  = Some {| sock_task := taskId; sock_ready := CLOSING; sock_closing := Some 1000%Z |}.
Proof.
  revert w. induction ks as [|k ks IH]; intros w Hw Hget Hin; simpl.
  { by apply elem_of_nil in Hin. }
  destruct (decide (k = taskId)) as [->|Hne].
  - apply foldl_disconnect_closing; [|done].
    destruct Hw as [_ Hopen]. destruct (Hopen _ _ Hget) as (sk & Hsk & Htask & Hready).
    rewrite disconnect_sockets, Hget. unfold ws_close. cbn.
    rewrite list_lookup_alter_eq, Hsk. simpl. by rewrite Hready, Htask.
  - apply IH.
    + by apply registered_open_disconnect.
    + by rewrite disconnect_connections, OMapFacts.get_delete_ne.
    + apply elem_of_cons in Hin as [?|?]; [congruence|done].
Qed.

Lemma foldl_disconnect_cleared ks w taskId :
  taskId ∈ ks →
  reconnectAttempts (foldl (fun acc k => disconnect k acc) w ks) !! taskId = None ∧
  pollingIntervals (foldl (fun acc k => disconnect k acc) w ks) !! taskId = None.
Proof.
  assert (∀ ks w,
            reconnectAttempts w !! taskId = None → pollingIntervals w !! taskId = None →
            reconnectAttempts (foldl (fun acc k => disconnect k acc) w ks) !! taskId = None ∧
            pollingIntervals (foldl (fun acc k => disconnect k acc) w ks) !! taskId = None)
    as Hstay.
  { clear. intros ks. induction ks as [|k ks IH]; intros w Hr Hp; simpl; [done|].
    apply IH.
    - rewrite disconnect_reconnectAttempts. by rewrite lookup_delete_None; right.
    - rewrite disconnect_pollingIntervals. by rewrite lookup_delete_None; right. }
  revert w. induction ks as [|k ks IH]; intros w Hin; simpl.
  { by apply elem_of_nil in Hin. }
  destruct (decide (k = taskId)) as [->|Hne].
  - apply Hstay.
    + by rewrite disconnect_reconnectAttempts, lookup_delete_eq.
    + by rewrite disconnect_pollingIntervals, lookup_delete_eq.
  - apply IH. apply elem_of_cons in Hin as [?|?]; [congruence|done].
Qed.

(** X2.  [disconnectAll], in a world whose table holds open sockets of their
    tasks: the table is empty afterwards, no socket is built or forgotten,
    every socket that was in the table is closing with code 1000, and the
    service holds nothing any more for the tasks that were in the table. *)
Theorem disconnectAll_closes_registered (w : World) :
  registered_open w →
  connections (disconnectAll w) = [] ∧
  length (sockets (disconnectAll w)) = length (sockets w) ∧
  ∀ taskId ws,
    OMap.get taskId (connections w) = Some ws →
    sockets (disconnectAll w) !! ws
      = Some {| sock_task := taskId; sock_ready := CLOSING; sock_closing := Some 1000%Z |} ∧
    entry taskId (disconnectAll w) = (None, None, None).
Proof.
  intros Hw. unfold disconnectAll. split; [|split].
  - rewrite foldl_disconnect_connections. by apply foldl_delete_keys.
  - apply foldl_disconnect_length.
  - intros taskId ws Hget.
    assert (taskId ∈ OMap.keys (connections w)) as Hin.
    { apply elem_of_keys_get. eauto. }
    split; [by apply foldl_disconnect_closes|].
    unfold entry. destruct (foldl_disconnect_cleared _ w taskId Hin) as [-> ->].
    rewrite foldl_disconnect_connections, foldl_delete_keys; done.
Qed.

Lemma registered_open_one_open_channel : registered_open one_open_channel.
Proof.
  assert (connections one_open_channel = [("t1", 0%nat)]) as Hc by (vm_compute; reflexivity).
  unfold registered_open. rewrite Hc. split; [apply NoDup_singleton|].
  intros taskId ws. cbn [OMap.get].
  destruct (String.eqb "t1" taskId) eqn:E; [|done]. intros [= <-].
  apply String.eqb_eq in E as <-.
  exists {| sock_task := "t1"; sock_ready := OPEN; sock_closing := None |}.
  split; [vm_compute; reflexivity|]. split; reflexivity.
Defined.

Lemma disconnectAll_closes_registered_witness :
  connections (disconnectAll one_open_channel) = [] ∧
  sockets (disconnectAll one_open_channel) !! 0%nat
    = Some {| sock_task := "t1"; sock_ready := CLOSING; sock_closing := Some 1000%Z |}.
Proof.
  destruct (disconnectAll_closes_registered one_open_channel) as (Hc & _ & Hs).
  - apply registered_open_one_open_channel.
  - split; [exact Hc|]. apply (Hs "t1" 0%nat). reflexivity.
Defined.

(* ===================================================================== *)
(** ** Counters and timers stay in order *)
(* ===================================================================== *)

Lemma keeps_timers_orderly f : keeps_timers f → orderly f.
Proof.
  intros Hf w. destruct (Hf w) as (Hr & Ht & Hp & Hi & Hn).
  unfold timers_in_order. by rewrite Hr, Ht, Hp, Hi, Hn.
Qed.

Lemma orderly_andThen f g : orderly f → orderly g → orderly (f >>> g).
Proof. intros Hf Hg w Hw. apply Hg, Hf, Hw. Qed.

Lemma keeps_timers_andThen f g : keeps_timers f → keeps_timers g → keeps_timers (f >>> g).
Proof.
  intros Hf Hg w. unfold andThen.
  destruct (Hg (f w)) as (-> & -> & -> & -> & ->). apply Hf.
Qed.

Lemma keeps_timers_emit a : keeps_timers (emit a).
Proof. done. Qed.

Lemma keeps_timers_skip : keeps_timers skip.
Proof. done. Qed.

Lemma keeps_timers_set_connections f : keeps_timers (set_connections f).
Proof. done. Qed.

Lemma keeps_timers_set_sockets f : keeps_timers (set_sockets f).
Proof. done. Qed.

Lemma keeps_timers_notifyTaskUpdate taskId updates :
  keeps_timers (notifyTaskUpdate taskId updates).
Proof. intros w. by rewrite notifyTaskUpdate_eq. Qed.

Lemma keeps_timers_notifyLog taskId log : keeps_timers (notifyLog taskId log).
Proof. intros w. by rewrite notifyLog_eq. Qed.

Lemma orderly_stopPolling taskId : orderly (stopPolling taskId).
Proof.
  intros w (HC & HT & HB & HF). unfold stopPolling.
  destruct (pollingIntervals w !! taskId) as [h|] eqn:Hh; [|done].
  unfold timers_in_order. cbn. split; [done|]. split; [done|]. split.
  - intros h' t'. rewrite !lookup_delete_Some. split.
    + intros [Hne Hi]. apply HB in Hi. split; [|done]. intros ->. congruence.
    + intros [Hne Hp]. apply HB in Hp. split; [|done]. intros ->.
      apply HB in Hh. congruence.
  - intros h' t' [_ Hi]%lookup_delete_Some. eauto.
Qed.

Lemma orderly_fallbackToPolling taskId : orderly (fallbackToPolling taskId).
Proof.
  intros w (HC & HT & HB & HF). unfold fallbackToPolling.
  destruct (pollingIntervals w !! taskId) as [h|] eqn:Hh; [done|].
  unfold timers_in_order. cbn. split; [done|]. split; [|split].
  - eapply Forall_impl; [exact HT|]. intros tm (Ha & Hd & Hlt).
    split; [exact Ha|]. split; [exact Hd|]. lia.
  - intros h' t'. rewrite !lookup_insert_Some. split.
    + intros [[<- <-]|[Hne Hi]]; [by left|]. right. apply HB in Hi.
      split; [|done]. intros ->. congruence.
    + intros [[<- <-]|[Hne Hp]]; [by left|]. right. apply HB in Hp.
      split; [|done]. intros <-. apply HF in Hp. lia.
  - intros h' t' [[<- <-]|[Hne Hi]]%lookup_insert_Some; [lia|].
    apply HF in Hi. lia.
Qed.

Lemma orderly_handleReconnection taskId : orderly (handleReconnection taskId).
Proof.
  intros w Hw. unfold handleReconnection.
  destruct (maxReconnectAttempts <=? _)%nat eqn:Hmax.
  { apply (orderly_andThen _ _ (keeps_timers_orderly _ (keeps_timers_emit _))
             (orderly_fallbackToPolling taskId)), Hw. }
  apply Nat.leb_gt in Hmax. destruct Hw as (HC & HT & HB & HF).
  unfold timers_in_order, andThen, setTimeout. cbn. split; [|split; [|split]].
  - intros t n [[<- <-]|[Hne Hn]]%lookup_insert_Some; [lia|eauto].
  - apply Forall_app. split.
    + eapply Forall_impl; [exact HT|]. intros tm (Ha & Hd & Hlt).
      split; [exact Ha|]. split; [exact Hd|]. lia.
    + apply Forall_singleton. cbn [to_attempt to_delay to_handle].
      split; [lia|]. split; [|lia]. f_equal. lia.
  - done.
  - intros h' t' Hi. apply HF in Hi. lia.
Qed.

Lemma orderly_forget taskId : orderly (set_reconnectAttempts (delete taskId)).
Proof.
  intros w (HC & HT & HB & HF). unfold timers_in_order. cbn.
  split; [|done]. intros t n [_ Hn]%lookup_delete_Some. eauto.
Qed.

Lemma orderly_drop_timeout handle : orderly (set_timeouts (drop_timeout handle)).
Proof.
  intros w (HC & HT & HB & HF). unfold timers_in_order. cbn.
  split; [done|]. split; [|done].
  unfold drop_timeout. induction HT as [|tm l Htm _ IH]; simpl; [done|].
  destruct (negb _); [by constructor|done].
Qed.

Lemma orderly_disconnect taskId : orderly (disconnect taskId).
Proof.
  unfold disconnect.
  apply orderly_andThen; [apply orderly_andThen|]; [|apply orderly_stopPolling|apply orderly_forget].
  apply keeps_timers_orderly. intros w. by destruct (OMap.get taskId (connections w)).
Qed.

Lemma orderly_disconnectAll : orderly disconnectAll.
Proof.
  intros w. unfold disconnectAll. generalize (OMap.keys (connections w)). intros ks.
  revert w. induction ks as [|k ks IH]; intros w Hw; simpl; [done|].
  by apply IH, orderly_disconnect.
Qed.

Lemma orderly_handle now message w w' :
  timers_in_order w → handleWebSocketMessage now message w = Some w' → timers_in_order w'.
Proof.
  intros Hw. destruct message as [type taskId data]. unfold handleWebSocketMessage.
  cbn [m_type m_task_id m_data].
  repeat (match goal with |- context [String.eqb type ?s] => destruct (String.eqb type s) end);
    repeat (match goal with |- context [prop data ?k] => destruct (prop data k); simpl end);
    try done; intros [= <-]; unfold andThen;
    repeat first [ apply orderly_disconnect
                 | apply (keeps_timers_orderly _ (keeps_timers_emit _))
                 | apply (keeps_timers_orderly _ (keeps_timers_notifyTaskUpdate _ _))
                 | apply (keeps_timers_orderly _ (keeps_timers_notifyLog _ _)) ]; done.
Qed.

Lemma orderly_pollSettled taskId res : orderly (pollSettled taskId res).
Proof.
  destruct res as [status|message]; simpl.
  - apply orderly_andThen.
    + apply keeps_timers_orderly, keeps_timers_notifyTaskUpdate.
    + destruct (OMap.get "status" status) as [[]|];
        try match goal with |- context [if ?b then _ else _] => destruct b end;
        try apply orderly_stopPolling; by intros w Hw.
  - by apply keeps_timers_orderly.
Qed.

Section Timers.
Variable ws_ctor_throws : string → bool.

Lemma orderly_connectToTask taskId : orderly (connectToTask ws_ctor_throws taskId).
Proof.
  intros w Hw. unfold connectToTask.
  destruct (OMap.has taskId (connections w)); [done|].
  destruct (ws_ctor_throws taskId); [|done].
  apply (orderly_andThen _ _ (keeps_timers_orderly _ (keeps_timers_emit _))
           (orderly_fallbackToPolling taskId)), Hw.
Qed.

Lemma timers_in_order_step e w w' :
  timers_in_order w → step ws_ctor_throws e w = Some w' → timers_in_order w'.
Proof.
  intros Hw. destruct e; simpl.
  - intros [= <-]. by apply orderly_connectToTask.
  - intros [= <-]. by apply orderly_disconnect.
  - intros [= <-]. by apply orderly_disconnectAll.
  - by intros [= <-].
  - by intros [= <-].
  - by intros [= <-].
  - by intros [= <-].
  - destruct (sockets w !! ws) as [sk|]; [|done]. simpl.
    destruct (sock_ready sk); try done. intros [= <-].
    unfold ws_onopen, andThen.
    by apply orderly_stopPolling, orderly_forget.
  - destruct (sockets w !! ws) as [sk|]; [|done]. simpl.
    destruct (sock_ready sk); try done. intros [= <-].
    unfold ws_onmessage. destruct raw as [|message]; simpl; [done|].
    destruct (handleWebSocketMessage now message w) as [v|] eqn:Hv; [|done].
    by eapply orderly_handle.
  - destruct (sockets w !! ws) as [sk|]; [|done]. simpl.
    assert (timers_in_order (ws_onerror (sock_task sk) w)) as Hw'.
    { unfold ws_onerror, andThen. by apply orderly_handleReconnection. }
    by destruct (sock_ready sk); intros [= <-].
  - destruct (sockets w !! ws) as [sk|]; [|done]. simpl.
    assert (timers_in_order ((set_ready ws CLOSED >>> ws_onclose (sock_task sk) code) w))
      as Hw'.
    { unfold ws_onclose, andThen.
      destruct (code =? 1000)%Z; [done|]. by apply orderly_handleReconnection. }
    by destruct (sock_ready sk); intros [= <-].
  - destruct (find_timeout handle (timeouts w)) as [tm|]; [|done]. simpl.
    intros [= <-]. unfold reconnectTimer, andThen.
    apply orderly_connectToTask.
    apply (keeps_timers_orderly _ (keeps_timers_emit _)).
    by apply orderly_drop_timeout.
  - destruct (intervals w !! handle); [|done]. by intros [= <-].
  - destruct (fetches w !! k) as [taskId|]; [|done]. simpl. intros [= <-].
    by apply orderly_pollSettled.
  - destruct (sockets w !! ws) as [sk|]; [|done]. simpl.
    destruct (sock_ready sk); try done. by intros [= <-].
Qed.

Lemma timers_in_order_run es w w' :
  timers_in_order w → run ws_ctor_throws es w = Some w' → timers_in_order w'.
Proof.
  revert w. induction es as [|e es IH]; intros w Hw; simpl.
  - by intros [= <-].
  - destruct (step ws_ctor_throws e w) as [w1|] eqn:Hstep; [|done]. simpl.
    apply IH. by eapply timers_in_order_step.
Qed.

Lemma timers_in_order_init : timers_in_order init.
Proof.
  unfold timers_in_order. cbn. split; [|split; [|split]].
  - intros taskId n. by rewrite lookup_empty.
  - constructor.
  - intros handle taskId. by rewrite !lookup_empty.
  - intros handle taskId. by rewrite lookup_empty.
Qed.

(** X3.  Whatever happens, a reconnect counter is between 1 and 5, and a
    pending reconnect timer is the timer of an attempt between 1 and 5 with
    the delay of that attempt: 1, 2, 4, 8 or 16 seconds.  The cap of 30
    seconds is never the delay of a timer. *)
Theorem counters_and_delays_bounded (es : list Event) (w : World) :
  run ws_ctor_throws es init = Some w →
  (∀ taskId n, reconnectAttempts w !! taskId = Some n → (1 ≤ n ≤ 5)%nat) ∧
  (∀ tm, tm ∈ timeouts w →
         (1 ≤ to_attempt tm ≤ 5)%nat ∧
         to_delay tm = (1000 * 2 ^ Z.of_nat (to_attempt tm - 1))%Z ∧
         (1000 ≤ to_delay tm ≤ 16000)%Z).
Proof.
  intros Hrun.
  destruct (timers_in_order_run _ _ _ timers_in_order_init Hrun) as (HC & HT & _).
  split; [exact HC|]. intros tm Htm.
  rewrite Forall_forall in HT. destruct (HT tm Htm) as (Ha & Hd & _).
  unfold maxReconnectAttempts in Ha. split; [done|].
  rewrite Hd, backoffDelay_small by lia. split; [done|].
  assert (to_attempt tm - 1 = 0 ∨ to_attempt tm - 1 = 1 ∨ to_attempt tm - 1 = 2 ∨
          to_attempt tm - 1 = 3 ∨ to_attempt tm - 1 = 4)%nat as Hcases by lia.
  destruct Hcases as [->|[->|[->|[->| ->]]]]; simpl; lia.
Qed.

(** X4.  Whatever happens, the running intervals are the registered polling
    timers, one for one: a task has at most one polling interval, every
    registered timer is running for its task, and no interval runs that the
    service has lost track of. *)
Theorem polling_timers_registered (es : list Event) (w : World) :
  run ws_ctor_throws es init = Some w →
  ∀ handle taskId,
    intervals w !! handle = Some taskId ↔ pollingIntervals w !! taskId = Some handle.
Proof.
  intros Hrun.
  by destruct (timers_in_order_run _ _ _ timers_in_order_init Hrun) as (_ & _ & HB & _).
Qed.

End Timers.

Lemma counters_and_delays_bounded_witness :
  (1 ≤ 5 ≤ 5)%nat ∧
  (1000 ≤ to_delay {| to_handle := 5; to_task := "t1"; to_attempt := 5;
                      to_delay := 16000 |} ≤ 16000)%Z.
Proof.
  destruct (counters_and_delays_bounded accepts_all five_failed_attempts
              (default init (run accepts_all five_failed_attempts init)))
    as [Hc Ht].
  - vm_compute. reflexivity.
  - split.
    + apply (Hc "t1"). vm_compute. reflexivity.
    + apply (Ht {| to_handle := 5; to_task := "t1"; to_attempt := 5; to_delay := 16000 |}).
      vm_compute. apply list_elem_of_here.
Defined.

Lemma polling_timers_registered_witness :
  intervals six_failures !! 6%positive = Some "t1".
Proof.
  apply (polling_timers_registered accepts_all
           (five_failed_attempts ++ [TimeoutFires 5; SocketClose 5 1006]) six_failures).
  - vm_compute. reflexivity.
  - vm_compute. reflexivity.
Defined.

(* ===================================================================== *)
(** ** Tasks do not disturb each other *)
(* ===================================================================== *)


Lemma spares_skip t : spares t skip.
Proof. done. Qed.



Lemma spares_set_timeouts t f : spares t (set_timeouts f).
Proof. done. Qed.

Lemma spares_set_fetches t f : spares t (set_fetches f).
Proof. done. Qed.












Section Independence.
Variable ws_ctor_throws : string → bool.




End Independence.


(* ===================================================================== *)
(** ** Queries, terminal messages, messages without data, polled statuses *)
(* ===================================================================== *)

Section Queries.
Variable ws_ctor_throws : string → bool.

(** X6.  Whatever happens, a task that [isConnected] holds of is one that
    [getActiveConnections] lists.  The converse fails: a listed task is not
    connected while its socket reads CLOSING, between the start of the closing
    handshake by the server and the close event; and that is the only way for
    a listed task not to be connected. *)
Theorem isConnected_is_active (es : list Event) (w : World) (taskId : string) :
  run ws_ctor_throws es init = Some w →
  (isConnected taskId w = true → taskId ∈ getActiveConnections w) ∧
  (taskId ∈ getActiveConnections w → isConnected taskId w = false →
   ∃ ws sk, OMap.get taskId (connections w) = Some ws ∧ sockets w !! ws = Some sk ∧
            sock_task sk = taskId ∧ sock_ready sk = CLOSING) ∧
  (∀ ws sk, OMap.get taskId (connections w) = Some ws → sockets w !! ws = Some sk →
            sock_ready sk = CLOSING →
            taskId ∈ getActiveConnections w ∧ isConnected taskId w = false).
Proof.
  intros Hrun.
  destruct (registered_live_run ws_ctor_throws es init w registered_live_init Hrun)
    as [_ Hlive].
  unfold isConnected, getActiveConnections. rewrite elem_of_keys_get.
  split; [|split].
  - destruct (OMap.get taskId (connections w)); [eauto|done].
  - intros [ws Hws]. rewrite Hws. simpl.
    destruct (Hlive taskId ws Hws) as (sk & Hsk & Htask & [Hready|Hready]).
    + by rewrite Hsk, Hready.
    + intros _. eauto 6.
  - intros ws sk Hws Hsk Hready. rewrite Hws. simpl. rewrite Hsk, Hready.
    split; [apply elem_of_keys_get; eauto|done].
Qed.

End Queries.

Lemma isConnected_is_active_witness :
  (isConnected "t1" one_open_channel = true → "t1" ∈ getActiveConnections one_open_channel) ∧
  "t1" ∈ getActiveConnections closing_by_server ∧
  isConnected "t1" closing_by_server = false.
Proof.
  split.
  - apply (isConnected_is_active accepts_all [CallConnect "t1"; SocketOpen 0]
             one_open_channel "t1").
    vm_compute. reflexivity.
  - apply (isConnected_is_active accepts_all [CallConnect "t1"; SocketOpen 0; SocketClosing 0]
             closing_by_server "t1") with
      (ws := 0%nat)
      (sk := {| sock_task := "t1"; sock_ready := CLOSING; sock_closing := None |}).
    + vm_compute. reflexivity.
    + vm_compute. reflexivity.
    + vm_compute. reflexivity.
    + reflexivity.
Defined.







Lemma handle_unknown now type taskId data w :
  type ∉ known_types →
  handleWebSocketMessage now {| m_type := type; m_task_id := taskId; m_data := data |} w
  = Some (console (WarnUnknownType type) w).
Proof.
  unfold known_types. rewrite !not_elem_of_cons.
  intros (H1 & H2 & H3 & H4 & H5 & _).
  unfold handleWebSocketMessage. cbn [m_type m_task_id m_data].
  apply String.eqb_neq in H1, H2, H3, H4, H5. by rewrite H1, H2, H3, H4, H5.
Qed.

(** X8.  A message that parses but has no data ([undefined] or [null]) and
    a known type is caught like one that does not parse: one console error,
    nothing else.  A message of an unknown type leaves one console warning,
    whatever its data. *)
Theorem message_without_data (now type taskId : string) (data : JsVal) (w : World) :
  (type ∈ known_types → data = None ∨ data = Some JNull →
   ws_onmessage (Wire {| m_type := type; m_task_id := taskId; m_data := data |}) now w
   = console ErrParse w) ∧
  (type ∉ known_types →
   ws_onmessage (Wire {| m_type := type; m_task_id := taskId; m_data := data |}) now w
   = console (WarnUnknownType type) w).
Proof.
  split.
  - intros Htype Hdata. unfold ws_onmessage. simpl.
    rewrite handle_throws; [done| |done].
    intros k. by destruct Hdata as [-> | ->].
  - intros Htype. unfold ws_onmessage. simpl. by rewrite handle_unknown.
Qed.

Lemma message_without_data_witness :
  ws_onmessage (Wire {| m_type := "progress"; m_task_id := "t1"; m_data := Some JNull |})
    "2024-01-01T00:00:00.000Z" one_open_channel
  = console ErrParse one_open_channel ∧
  ws_onmessage (Wire {| m_type := "ping"; m_task_id := "t1"; m_data := None |})
    "2024-01-01T00:00:00.000Z" one_open_channel
  = console (WarnUnknownType "ping") one_open_channel.
Proof.
  split.
  - apply (proj1 (message_without_data "2024-01-01T00:00:00.000Z" "progress" "t1"
                    (Some JNull) one_open_channel)).
    + apply list_elem_of_further, list_elem_of_here.
    + by right.
  - apply (proj2 (message_without_data "2024-01-01T00:00:00.000Z" "ping" "t1"
                    None one_open_channel)).
    unfold known_types. rewrite !not_elem_of_cons.
    repeat split; try (intros H; inversion H).
Defined.

Lemma notifyTaskUpdate_fields taskId updates w :
  let v := notifyTaskUpdate taskId updates w in
  connections v = connections w ∧ sockets v = sockets w ∧
  reconnectAttempts v = reconnectAttempts w ∧ timeouts v = timeouts w ∧
  pollingIntervals v = pollingIntervals w.
Proof. cbv zeta. by rewrite notifyTaskUpdate_eq. Qed.

(** X9.  The result of a status request of the polling: a failed request
    changes nothing but the console and the toast, so the polling goes on; a
    status is handed on, and stops the polling of the task exactly when it is
    [completed] or [failed]; in no case is the table of connections, a socket,
    a counter or a reconnect timer touched. *)
Theorem polled_status_only_stops_polling (taskId : string) (res : FetchResult) (w : World) :
  let w' := pollSettled taskId res w in
  connections w' = connections w ∧ sockets w' = sockets w ∧
  reconnectAttempts w' = reconnectAttempts w ∧ timeouts w' = timeouts w ∧
  pollingIntervals w'
  = match res with
    | FetchOk status =>
        if terminal_status status then delete taskId (pollingIntervals w)
        else pollingIntervals w
    | FetchFail _ => pollingIntervals w
    end ∧
  (∀ message, res = FetchFail message →
     tables w' = tables w ∧ storage w' = storage w ∧
     deliveries (trace w') = deliveries (trace w)).
Proof.
  intros w'. subst w'. destruct res as [status|message]; unfold pollSettled.
  - unfold andThen, terminal_status.
    destruct (notifyTaskUpdate_fields taskId (OMap.of_rec status) w)
      as (Hc & Hs & Hr & Ht & Hp).
    set (v := notifyTaskUpdate taskId (OMap.of_rec status) w) in *.
    assert (∀ b : bool,
              let w' := (if b then stopPolling taskId else skip) v in
              connections w' = connections w ∧ sockets w' = sockets w ∧
              reconnectAttempts w' = reconnectAttempts w ∧ timeouts w' = timeouts w ∧
              pollingIntervals w'
              = (if b then delete taskId (pollingIntervals w) else pollingIntervals w))
      as Hb.
    { intros [|]; cbv zeta.
      - destruct (stopPolling_frame taskId v) as (-> & -> & -> & -> & _).
        by rewrite stopPolling_pollingIntervals, Hp.
      - done. }
    destruct (OMap.get "status" status) as [[]|];
      try (destruct (Hb false) as (? & ? & ? & ? & ?); by repeat split).
    destruct (Hb (String.eqb s "completed" || String.eqb s "failed"))
      as (? & ? & ? & ? & ?).
    by repeat split.
  - repeat split; try done.
    unfold andThen, console, emit. cbn.
    rewrite !deliveries_app. simpl. by rewrite !app_nil_r.
Qed.

(* ===================================================================== *)
(** ** Releasing an observer *)
(* ===================================================================== *)

Lemma removeCallback_cons id cb l :
  removeCallback id (cb :: l)
  = if Nat.eqb (cb_id cb) id then l else cb :: removeCallback id l.
Proof.
  unfold removeCallback. simpl. destruct (Nat.eqb (cb_id cb) id); [done|].
  by destruct (findIndex _ l).
Qed.

Lemma removeCallback_fresh id l :
  (∀ cb, cb ∈ l → cb_id cb ≠ id) → removeCallback id l = l.
Proof.
  induction l as [|cb l IH]; intros Hfresh; [done|].
  rewrite removeCallback_cons.
  destruct (Nat.eqb (cb_id cb) id) eqn:E.
  - apply Nat.eqb_eq in E. destruct (Hfresh cb); [apply list_elem_of_here|done].
  - rewrite IH; [done|]. intros cb' Hcb'. apply Hfresh. by apply list_elem_of_further.
Qed.

Lemma removeCallback_snoc id cb l :
  (∀ cb', cb' ∈ l → cb_id cb' ≠ id) → cb_id cb = id →
  removeCallback id (l ++ [cb]) = l.
Proof.
  intros Hfresh Hid. induction l as [|cb' l IH]; simpl.
  - rewrite removeCallback_cons. by rewrite (proj2 (Nat.eqb_eq _ _) Hid).
  - rewrite removeCallback_cons.
    destruct (Nat.eqb (cb_id cb') id) eqn:E.
    + apply Nat.eqb_eq in E. destruct (Hfresh cb'); [apply list_elem_of_here|done].
    + rewrite IH; [done|]. intros c Hc. apply Hfresh. by apply list_elem_of_further.
Qed.

(** X10.  Subscribing and releasing: when the observer is not registered
    yet, [onTaskUpdate] followed by the function it returns gives the world
    back, and calling that function again, or without a registration, does
    nothing.  The same holds for [onLog]. *)
Theorem subscribe_then_release (cb : Callback) (w : World) :
  ((∀ cb', cb' ∈ taskUpdateCallbacks w → cb_id cb' ≠ cb_id cb) →
   offTaskUpdate (cb_id cb) (onTaskUpdate cb w) = w ∧
   offTaskUpdate (cb_id cb) w = w) ∧
  ((∀ cb', cb' ∈ logCallbacks w → cb_id cb' ≠ cb_id cb) →
   offLog (cb_id cb) (onLog cb w) = w ∧
   offLog (cb_id cb) w = w).
Proof.
  split; intros Hfresh; destruct w; cbn in *;
    unfold offTaskUpdate, onTaskUpdate, set_taskUpdateCallbacks,
      offLog, onLog, set_logCallbacks; cbn;
    by rewrite removeCallback_snoc, removeCallback_fresh.
Qed.

Lemma subscribe_then_release_witness :
  offTaskUpdate 7 (onTaskUpdate {| cb_id := 7; cb_throws := true |} watched) = watched ∧
  offLog 7 watched = watched.
Proof.
  split.
  - apply (proj1 (subscribe_then_release {| cb_id := 7; cb_throws := true |} watched)).
    intros cb' Hcb'. vm_compute in Hcb'.
    apply list_elem_of_singleton in Hcb'. by rewrite Hcb'.
  - apply (proj2 (subscribe_then_release {| cb_id := 7; cb_throws := true |} watched)).
    intros cb' Hcb'. vm_compute in Hcb'.
    apply list_elem_of_singleton in Hcb'. by rewrite Hcb'.
Defined.


(* ===================================================================== *)
(** ** A URL the constructor rejects *)
(* ===================================================================== *)

Section Rejected.
Variable ws_ctor_throws : string → bool.

Lemma accepted_same w w' :
  sockets w' = sockets w → timeouts w' = timeouts w →
  reconnectAttempts w' = reconnectAttempts w →
  accepted_only ws_ctor_throws w → accepted_only ws_ctor_throws w'.
Proof. unfold accepted_only. by intros -> -> ->. Qed.

Lemma accepting_andThen f g :
  accepting ws_ctor_throws f → accepting ws_ctor_throws g →
  accepting ws_ctor_throws (f >>> g).
Proof. intros Hf Hg w Hw. apply Hg, Hf, Hw. Qed.

Lemma accepting_emit a : accepting ws_ctor_throws (emit a).
Proof. by intros w. Qed.

Lemma accepting_skip : accepting ws_ctor_throws skip.
Proof. by intros w. Qed.

Lemma accepting_set_connections f : accepting ws_ctor_throws (set_connections f).
Proof. by intros w. Qed.

Lemma accepting_notifyTaskUpdate taskId updates :
  accepting ws_ctor_throws (notifyTaskUpdate taskId updates).
Proof. intros w. by rewrite notifyTaskUpdate_eq. Qed.

Lemma accepting_notifyLog taskId log : accepting ws_ctor_throws (notifyLog taskId log).
Proof. intros w. by rewrite notifyLog_eq. Qed.

Lemma accepting_stopPolling taskId : accepting ws_ctor_throws (stopPolling taskId).
Proof.
  intros w. destruct (stopPolling_frame taskId w) as (_ & Hr & Hs & Ht & _).
  by apply accepted_same.
Qed.

Lemma accepting_fallbackToPolling taskId :
  accepting ws_ctor_throws (fallbackToPolling taskId).
Proof.
  intros w. unfold fallbackToPolling. by destruct (pollingIntervals w !! taskId).
Qed.

Lemma accepting_handleReconnection taskId :
  ws_ctor_throws taskId = false → accepting ws_ctor_throws (handleReconnection taskId).
Proof.
  intros Hacc w Hw. unfold handleReconnection.
  destruct (maxReconnectAttempts <=? _)%nat.
  { by apply (accepting_andThen _ _ (accepting_emit _) (accepting_fallbackToPolling _)). }
  destruct Hw as (Hs & Ht & Hr). unfold accepted_only, andThen, setTimeout. cbn.
  split; [done|]. split.
  - apply Forall_app. split; [done|]. by apply Forall_singleton.
  - intros t n [[<- _]|[_ Hn]]%lookup_insert_Some; [done|eauto].
Qed.

Lemma accepting_alter f ws :
  (∀ sk, sock_task (f sk) = sock_task sk) →
  accepting ws_ctor_throws (set_sockets (alter f ws)).
Proof.
  intros Hf w (Hs & Ht & Hr). split; [|done]. cbn.
  apply Forall_alter; [done|]. intros sk _. by rewrite Hf.
Qed.

Lemma accepting_ws_close ws code : accepting ws_ctor_throws (ws_close ws code).
Proof. apply accepting_alter. intros sk. by destruct (sock_ready sk). Qed.

Lemma accepting_set_ready ws r : accepting ws_ctor_throws (set_ready ws r).
Proof. by apply accepting_alter. Qed.

Lemma accepting_forget taskId :
  accepting ws_ctor_throws (set_reconnectAttempts (delete taskId)).
Proof.
  intros w (Hs & Ht & Hr). split; [done|]. split; [done|]. cbn.
  intros t n [_ Hn]%lookup_delete_Some. eauto.
Qed.

Lemma accepting_disconnect taskId : accepting ws_ctor_throws (disconnect taskId).
Proof.
  unfold disconnect.
  apply accepting_andThen; [apply accepting_andThen|];
    [|apply accepting_stopPolling|apply accepting_forget].
  intros w Hw. destruct (OMap.get taskId (connections w)); [|done].
  by apply (accepting_andThen _ _ (accepting_ws_close _ _) (accepting_set_connections _)).
Qed.

Lemma accepting_disconnectAll : accepting ws_ctor_throws disconnectAll.
Proof.
  intros w. unfold disconnectAll. generalize (OMap.keys (connections w)). intros ks.
  revert w. induction ks as [|k ks IH]; intros w Hw; simpl; [done|].
  by apply IH, accepting_disconnect.
Qed.

Lemma accepting_connectToTask taskId :
  accepting ws_ctor_throws (connectToTask ws_ctor_throws taskId).
Proof.
  intros w Hw. unfold connectToTask.
  destruct (OMap.has taskId (connections w)); [done|].
  destruct (ws_ctor_throws taskId) eqn:Hacc.
  { by apply (accepting_andThen _ _ (accepting_emit _) (accepting_fallbackToPolling _)). }
  destruct Hw as (Hs & Ht & Hr). split; [|done]. cbn.
  apply Forall_app. split; [done|]. by apply Forall_singleton.
Qed.

Lemma accepted_handle now message w w' :
  accepted_only ws_ctor_throws w → handleWebSocketMessage now message w = Some w' →
  accepted_only ws_ctor_throws w'.
Proof.
  intros Hw. destruct message as [type taskId data]. unfold handleWebSocketMessage.
  cbn [m_type m_task_id m_data].
  repeat (match goal with |- context [String.eqb type ?s] => destruct (String.eqb type s) end);
    repeat (match goal with |- context [prop data ?k] => destruct (prop data k); simpl end);
    try done; intros [= <-]; unfold andThen;
    repeat first [ apply accepting_disconnect
                 | apply accepting_emit
                 | apply accepting_notifyTaskUpdate
                 | apply accepting_notifyLog ]; done.
Qed.

Lemma accepting_pollSettled taskId res : accepting ws_ctor_throws (pollSettled taskId res).
Proof.
  destruct res as [status|message]; unfold pollSettled.
  - apply accepting_andThen; [apply accepting_notifyTaskUpdate|].
    destruct (OMap.get "status" status) as [[]|];
      try match goal with |- context [if ?b then _ else _] => destruct b end;
      try apply accepting_stopPolling; by intros w.
  - by intros w.
Qed.

Lemma find_timeout_elem handle l tm : find_timeout handle l = Some tm → tm ∈ l.
Proof.
  unfold find_timeout. induction l as [|x l IH]; simpl; [done|].
  destruct (Pos.eqb (to_handle x) handle).
  - intros [= ->]. apply list_elem_of_here.
  - intros H. by apply list_elem_of_further, IH.
Qed.

Lemma accepted_step e w w' :
  accepted_only ws_ctor_throws w → step ws_ctor_throws e w = Some w' →
  accepted_only ws_ctor_throws w'.
Proof.
  intros Hw. destruct e; simpl.
  - intros [= <-]. by apply accepting_connectToTask.
  - intros [= <-]. by apply accepting_disconnect.
  - intros [= <-]. by apply accepting_disconnectAll.
  - by intros [= <-].
  - by intros [= <-].
  - by intros [= <-].
  - by intros [= <-].
  - destruct (sockets w !! ws) as [sk|]; [|done]. simpl.
    destruct (sock_ready sk); try done. intros [= <-].
    unfold ws_onopen, andThen.
    by apply accepting_stopPolling, accepting_forget, accepting_set_connections,
      accepting_emit, accepting_set_ready.
  - destruct (sockets w !! ws) as [sk|]; [|done]. simpl.
    destruct (sock_ready sk); try done. intros [= <-].
    unfold ws_onmessage. destruct raw as [|message]; simpl; [done|].
    destruct (handleWebSocketMessage now message w) as [v|] eqn:Hv; [|done].
    by eapply accepted_handle.
  - destruct (sockets w !! ws) as [sk|] eqn:Hsk; [|done]. simpl.
    assert (ws_ctor_throws (sock_task sk) = false) as Hacc.
    { destruct Hw as (Hs & _). by apply (Forall_lookup_1 _ _ _ _ Hs Hsk). }
    assert (accepted_only ws_ctor_throws (ws_onerror (sock_task sk) w)) as Hw'.
    { unfold ws_onerror, andThen. by apply accepting_handleReconnection. }
    by destruct (sock_ready sk); intros [= <-].
  - destruct (sockets w !! ws) as [sk|] eqn:Hsk; [|done]. simpl.
    assert (ws_ctor_throws (sock_task sk) = false) as Hacc.
    { destruct Hw as (Hs & _). by apply (Forall_lookup_1 _ _ _ _ Hs Hsk). }
    assert (accepted_only ws_ctor_throws
              ((set_ready ws CLOSED >>> ws_onclose (sock_task sk) code) w)) as Hw'.
    { unfold ws_onclose, andThen.
      destruct (code =? 1000)%Z; [|apply accepting_handleReconnection; [done|]];
        by apply accepting_set_connections, accepting_emit, accepting_set_ready. }
    by destruct (sock_ready sk); intros [= <-].
  - destruct (find_timeout handle (timeouts w)) as [tm|]; [|done]. simpl.
    intros [= <-]. unfold reconnectTimer, andThen.
    apply accepting_connectToTask, accepting_emit.
    destruct Hw as (Hs & Ht & Hr). split; [done|]. split; [|done]. cbn.
    unfold drop_timeout. clear -Ht. induction Ht as [|x l Hx _ IH]; simpl; [done|].
    destruct (negb _); [by constructor|done].
  - destruct (intervals w !! handle); [|done]. by intros [= <-].
  - destruct (fetches w !! k) as [taskId|]; [|done]. simpl. intros [= <-].
    unfold andThen. by apply accepting_pollSettled.
  - destruct (sockets w !! ws) as [sk|]; [|done]. simpl.
    destruct (sock_ready sk); try done. intros [= <-]. by apply accepting_set_ready.
Qed.

Lemma accepted_run es w w' :
  accepted_only ws_ctor_throws w → run ws_ctor_throws es w = Some w' →
  accepted_only ws_ctor_throws w'.
Proof.
  revert w. induction es as [|e es IH]; intros w Hw; simpl.
  - by intros [= <-].
  - destruct (step ws_ctor_throws e w) as [w1|] eqn:Hstep; [|done]. simpl.
    apply IH. by eapply accepted_step.
Qed.

Lemma accepted_init : accepted_only ws_ctor_throws init.
Proof. split; [constructor|]. split; [constructor|]. intros t n. cbn. by rewrite lookup_empty. Qed.

(** X12.  A task whose URL the constructor rejects is only ever polled:
    whatever happens, no socket exists for it, it has no entry in the table
    of connections, no reconnect counter and no reconnect timer; and a
    [connectToTask] for it leaves it with a polling timer, at the first call
    and at every later one. *)
Theorem rejected_url_is_only_polled (es : list Event) (w : World) (taskId : string) :
  run ws_ctor_throws es init = Some w →
  ws_ctor_throws taskId = true →
  (∀ sk, sk ∈ sockets w → sock_task sk ≠ taskId) ∧
  (∀ tm, tm ∈ timeouts w → to_task tm ≠ taskId) ∧
  OMap.get taskId (connections w) = None ∧
  reconnectAttempts w !! taskId = None ∧
  let w' := connectToTask ws_ctor_throws taskId w in
  is_Some (pollingIntervals w' !! taskId) ∧
  sockets w' = sockets w ∧ timeouts w' = timeouts w ∧
  pollingIntervals (connectToTask ws_ctor_throws taskId w') = pollingIntervals w'.
Proof.
  intros Hrun Hrej.
  destruct (accepted_run _ _ _ accepted_init Hrun) as (Hs & Ht & Hr).
  destruct (registered_live_run ws_ctor_throws es init w registered_live_init Hrun)
    as [_ Hopen].
  rewrite Forall_forall in Hs. rewrite Forall_forall in Ht.
  assert (OMap.get taskId (connections w) = None) as Hget.
  { destruct (OMap.get taskId (connections w)) as [ws|] eqn:Hws; [|done].
    destruct (Hopen taskId ws Hws) as (sk & Hsk & Htask & _).
    apply list_elem_of_lookup_2, Hs in Hsk. congruence. }
  split; [intros sk Hsk Heq; apply Hs in Hsk; congruence|].
  split; [intros tm Htm Heq; apply Ht in Htm; congruence|].
  split; [done|]. split.
  { destruct (reconnectAttempts w !! taskId) as [n|] eqn:Hn; [|done].
    apply Hr in Hn. congruence. }
  assert (∀ v, connections v = connections w →
               connectToTask ws_ctor_throws taskId v
               = fallbackToPolling taskId (console (ErrCreate taskId) v)) as Hconn.
  { intros v Hv. unfold connectToTask, OMap.has. by rewrite Hv, Hget, Hrej. }
  cbv zeta. rewrite (Hconn w eq_refl).
  set (w' := fallbackToPolling taskId (console (ErrCreate taskId) w)).
  assert (connections w' = connections w ∧ sockets w' = sockets w ∧
          timeouts w' = timeouts w ∧ is_Some (pollingIntervals w' !! taskId))
    as (Hc' & Hs' & Ht' & Hp').
  { subst w'. unfold fallbackToPolling, console, emit. cbn.
    destruct (pollingIntervals w !! taskId) eqn:Hp; cbn.
    - by rewrite Hp.
    - by rewrite lookup_insert_eq. }
  split; [done|]. split; [done|]. split; [done|].
  rewrite (Hconn w' Hc'). destruct Hp' as [h Hh].
  unfold fallbackToPolling. cbn. by rewrite Hh.
Qed.

End Rejected.

Lemma rejected_url_is_only_polled_witness :
  let w := default init (run (String.eqb "t9") [CallConnect "t1"; CallConnect "t9"] init) in
  (∀ sk, sk ∈ sockets w → sock_task sk ≠ "t9") ∧
  is_Some (pollingIntervals (connectToTask (String.eqb "t9") "t9" w) !! "t9").
Proof.
  cbv zeta.
  destruct (rejected_url_is_only_polled (String.eqb "t9")
              [CallConnect "t1"; CallConnect "t9"]
              (default init (run (String.eqb "t9") [CallConnect "t1"; CallConnect "t9"] init))
              "t9") as (Hs & _ & _ & _ & Hp & _).
  - vm_compute. reflexivity.
  - vm_compute. reflexivity.
  - split; [exact Hs|exact Hp].
Defined.

(* ===================================================================== *)
(** ** What [disconnect] does not cancel *)
(* ===================================================================== *)

Section Pending.
Variable ws_ctor_throws : string → bool.

Lemma connectToTask_builds taskId w :
  OMap.get taskId (connections w) = None → ws_ctor_throws taskId = false →
  sockets (connectToTask ws_ctor_throws taskId w) = sockets w ++ [new_socket taskId].
Proof.
  intros Hget Hacc. unfold connectToTask, OMap.has. by rewrite Hget, Hacc.
Qed.

Lemma disconnect_other_socket taskId w ws sk :
  registered_live w → sockets w !! ws = Some sk → sock_ready sk = CONNECTING →
  sockets (disconnect taskId w) !! ws = Some sk.
Proof.
  intros [_ Hlive] Hsk Hready. rewrite disconnect_sockets.
  destruct (OMap.get taskId (connections w)) as [ws0|] eqn:Hws0; [|done].
  destruct (Hlive taskId ws0 Hws0) as (sk0 & Hsk0 & _ & Hready0).
  unfold ws_close. cbn. rewrite list_lookup_alter_ne; [done|].
  intros ->. rewrite Hsk in Hsk0. injection Hsk0 as <-.
  destruct Hready0; congruence.
Qed.

(** X13.  [disconnect] releases what is registered for the task and nothing
    else.  A reconnect timer of the task that is pending stays and fires: it
    builds a new socket for the task.  A socket of the task that is still
    connecting stays as it is, and when it opens the task is in the table of
    connections again. *)
Theorem disconnect_leaves_pending_attempts (taskId : string) (w : World) :
  (∀ handle tm,
     find_timeout handle (timeouts w) = Some tm → to_task tm = taskId →
     ws_ctor_throws taskId = false →
     ∃ w', step ws_ctor_throws (TimeoutFires handle) (disconnect taskId w) = Some w' ∧
           sockets w' = sockets (disconnect taskId w) ++ [new_socket taskId]) ∧
  (∀ ws,
     registered_live w → sockets w !! ws = Some (new_socket taskId) →
     ∃ w', step ws_ctor_throws (SocketOpen ws) (disconnect taskId w) = Some w' ∧
           OMap.get taskId (connections w') = Some ws).
Proof.
  split.
  - intros handle tm Hfind Htask Hacc.
    exists (reconnectTimer ws_ctor_throws tm
              (set_timeouts (drop_timeout handle) (disconnect taskId w))).
    split.
    { unfold step. by rewrite disconnect_timeouts, Hfind. }
    unfold reconnectTimer, andThen. rewrite Htask.
    rewrite connectToTask_builds; [done| |done].
    change (OMap.get taskId (connections (disconnect taskId w)) = None).
    rewrite disconnect_connections. apply OMapFacts.get_delete_eq.
  - intros ws Hreg Hsk.
    exists (ws_onopen taskId ws (set_ready ws OPEN (disconnect taskId w))).
    split.
    { unfold step.
      by rewrite (disconnect_other_socket taskId w ws (new_socket taskId) Hreg Hsk eq_refl). }
    unfold ws_onopen, andThen.
    destruct (stopPolling_frame taskId
                (set_reconnectAttempts (delete taskId)
                   (set_connections (OMap.set taskId ws)
                      (console (LogConnected taskId)
                         (set_ready ws OPEN (disconnect taskId w)))))) as (-> & _).
    cbn -[disconnect]. apply OMapFacts.get_set_eq.
Qed.

End Pending.

Lemma disconnect_leaves_pending_attempts_witness :
  (∃ w', step accepts_all (TimeoutFires 1) (disconnect "t1" one_failed_attempt) = Some w' ∧
         sockets w' = sockets (disconnect "t1" one_failed_attempt) ++ [new_socket "t1"]) ∧
  (∃ w', step accepts_all (SocketOpen 0) (disconnect "t1" connecting) = Some w' ∧
         OMap.get "t1" (connections w') = Some 0%nat).
Proof.
  split.
  - apply (proj1 (disconnect_leaves_pending_attempts accepts_all "t1" one_failed_attempt)
             1%positive
             {| to_handle := 1; to_task := "t1"; to_attempt := 1; to_delay := 1000 |}).
    + vm_compute. reflexivity.
    + reflexivity.
    + reflexivity.
  - apply (proj2 (disconnect_leaves_pending_attempts accepts_all "t1" connecting) 0%nat).
    + apply (registered_live_run accepts_all [CallConnect "t1"] init connecting
               registered_live_init).
      vm_compute. reflexivity.
    + vm_compute. reflexivity.
Defined.

(* ===================================================================== *)
(** ** The stored history *)
(* ===================================================================== *)

Lemma keys_of_rec r : OMap.keys (OMap.of_rec r) = OMap.keys r.
Proof. unfold OMap.keys, OMap.of_rec. rewrite map_map. by apply map_ext. Qed.

Lemma to_rec_of_rec r : OMap.to_rec (OMap.of_rec r) = r.
Proof. induction r as [|[k v] r IH]; [done|]. cbn. f_equal. exact IH. Qed.

Lemma keys_spread {A} (a b : list (string * A)) :
  NoDup (OMap.keys a) → NoDup (OMap.keys (OMap.spread a b)).
Proof.
  revert a. induction b as [|[k v] b IH]; intros a Ha; [done|].
  unfold OMap.spread in *. simpl. by apply IH, keys_set.
Qed.

(** What is read back from storage, when no key occurs twice. *)
Lemma get_to_rec_join k (o : Obj) :
  NoDup (OMap.keys o) → OMap.get k (OMap.to_rec o) = default None (OMap.get k o).
Proof.
  induction o as [|[k' v'] o IH]; simpl; [done|].
  rewrite NoDup_cons. intros [Hk' Ho].
  destruct (String.eqb k' k) eqn:E.
  - apply String.eqb_eq in E as ->. destruct v' as [v'|]; cbn.
    + by rewrite String.eqb_refl.
    + apply get_to_rec_None.
      destruct (OMap.get k o) eqn:Hget; [|done].
      destruct Hk'. apply elem_of_keys_get. eauto.
  - destruct v' as [v'|]; cbn; [rewrite E|]; by apply IH.
Qed.

Lemma get_spread_first {A} k (v : A) a b :
  OMap.get k b = None →
  OMap.get k (OMap.spread a ((k, v) :: b)) = Some v.
Proof.
  intros Hb. unfold OMap.spread. simpl.
  pose proof (OMapFacts.get_spread_absent k (OMap.set k v a) b Hb) as Hs.
  unfold OMap.spread in Hs. rewrite Hs. apply OMapFacts.get_set_eq.
Qed.

Lemma has_id_task taskId taskId' fields :
  ApiService.has_id taskId' (("id", JStr taskId) :: fields) = String.eqb taskId taskId'.
Proof. done. Qed.

(** Saving a task over its record keeps the id of the record. *)
Lemma get_id_saved taskId fields r :
  OMap.get "id" fields = None →
  OMap.get "id" (ApiService.merged r (OMap.of_rec (("id", JStr taskId) :: fields)))
  = Some (JStr taskId).
Proof.
  intros Hid. unfold ApiService.merged. apply OMapFacts.get_to_rec.
  cbn [OMap.of_rec map fst snd]. apply get_spread_first.
  by rewrite OMapFacts.get_of_rec, Hid.
Qed.

Lemma has_id_get taskId r :
  ApiService.has_id taskId r = true ↔ OMap.get "id" r = Some (JStr taskId).
Proof.
  unfold ApiService.has_id. destruct (OMap.get "id" r) as [[]|]; try by split.
  split.
  - by intros ->%String.eqb_eq.
  - intros [= ->]. apply String.eqb_refl.
Qed.

(** [unique_ids] is about the ids only. *)
Lemma unique_ids_same_ids (h h' : list Rec) :
  map (OMap.get "id") h' = map (OMap.get "id") h → unique_ids h → unique_ids h'.
Proof.
  intros Hids Hu i j r r' t Hi Hj Hr Hr'.
  assert (∀ n x, h' !! n = Some x → ∃ y, h !! n = Some y ∧ OMap.get "id" y = OMap.get "id" x)
    as Hback.
  { intros n x Hx.
    assert (map (OMap.get "id") h !! n = Some (OMap.get "id" x)) as Hn.
    { rewrite <- Hids. change (map (OMap.get "id") h') with (OMap.get "id" <$> h').
      by rewrite list_lookup_fmap, Hx. }
    change (map (OMap.get "id") h) with (OMap.get "id" <$> h) in Hn.
    rewrite list_lookup_fmap in Hn.
    destruct (h !! n) as [y|]; [|done]. injection Hn as Hn. eauto. }
  destruct (Hback i r Hi) as (y & Hy & Hyid).
  destruct (Hback j r' Hj) as (y' & Hy' & Hyid').
  apply (Hu i j y y' t Hy Hy').
  - unfold ApiService.has_id in *. by rewrite Hyid.
  - unfold ApiService.has_id in *. by rewrite Hyid'.
Qed.

Lemma unique_ids_take n h : unique_ids h → unique_ids (take n h).
Proof.
  intros Hu i j r r' t Hi Hj. apply lookup_take_Some in Hi as [Hi _].
  apply lookup_take_Some in Hj as [Hj _]. by apply (Hu i j r r' t).
Qed.

Lemma unique_ids_tail r h : unique_ids (r :: h) → unique_ids h.
Proof.
  intros Hu i j x y t Hi Hj Hx Hy.
  assert (S i = S j) by (by apply (Hu (S i) (S j) x y t)). lia.
Qed.

Lemma unique_ids_cons taskId fields h :
  (∀ r, r ∈ h → ApiService.has_id taskId r = false) →
  unique_ids h → unique_ids ((("id", JStr taskId) :: fields) :: h).
Proof.
  intros Hfresh Hu [|i] [|j] x y t Hi Hj Hx Hy; cbn in Hi, Hj; [done| | |].
  - injection Hi as <-. rewrite has_id_task in Hx. apply String.eqb_eq in Hx as <-.
    apply list_elem_of_lookup_2, Hfresh in Hj. congruence.
  - injection Hj as <-. rewrite has_id_task in Hy. apply String.eqb_eq in Hy as <-.
    apply list_elem_of_lookup_2, Hfresh in Hi. congruence.
  - f_equal. by apply (Hu i j x y t).
Qed.

Lemma same_ids_alter (f : Rec → Rec) k (h : list Rec) r :
  h !! k = Some r → OMap.get "id" (f r) = OMap.get "id" r →
  map (OMap.get "id") (alter f k h) = map (OMap.get "id") h.
Proof.
  revert k. induction h as [|x h IH]; intros [|k]; simpl; try done.
  - intros [= ->] Hid. cbn. by rewrite Hid.
  - intros Hk Hid. cbn. f_equal. by apply IH.
Qed.

(** X14.  [saveTaskToHistory] never stores more than 100 records.  A task
    that is not stored yet goes first, the stored records follow it in their
    order, and the hundredth of them is dropped.  A task that is stored is
    merged into its record where it is, and no other record moves or
    changes. *)
Theorem saveTaskToHistory_places (taskId : string) (fields : Rec) (st : ApiService.Stored) :
  let task := ("id", JStr taskId) :: fields in
  let history := ApiService.getLocalTaskHistory st in
  let history' :=
    ApiService.getLocalTaskHistory (ApiService.saveTaskToHistory taskId fields st) in
  (length history' ≤ 100)%nat ∧
  ((∀ r, r ∈ history → ApiService.has_id taskId r = false) →
   history' !! 0%nat = Some task ∧
   (∀ i, (i < 99)%nat → history' !! S i = history !! i) ∧
   length history' = (S (length history) `min` 100)%nat) ∧
  (∀ k r,
     findIndex (ApiService.has_id taskId) history = Some k → history !! k = Some r →
     length history' = (length history `min` 100)%nat ∧
     (∀ j, j ≠ k → (j < 100)%nat → history' !! j = history !! j) ∧
     ((k < 100)%nat → history' !! k = Some (ApiService.merged r (OMap.of_rec task)))).
Proof.
  intros task history history'. subst history'.
  unfold ApiService.saveTaskToHistory. fold task. fold history.
  cbn [ApiService.getLocalTaskHistory]. split; [|split].
  - rewrite length_take. lia.
  - intros Hfresh. rewrite (findIndex_None_intro _ _ Hfresh). split; [done|]. split.
    + intros i Hi. by rewrite lookup_take_lt by lia.
    + rewrite length_take. cbn [length]. lia.
  - intros k r Hk Hr. rewrite Hk. split; [|split].
    + rewrite length_take, length_alter. lia.
    + intros j Hj Hlt. rewrite lookup_take_lt by done. by apply list_lookup_alter_ne.
    + intros Hlt. rewrite lookup_take_lt by done. by rewrite list_lookup_alter_eq, Hr.
Qed.

Lemma saveTaskToHistory_places_witness :
  ApiService.getLocalTaskHistory
    (ApiService.saveTaskToHistory "t9" [("name", JStr "scrape")]
       (ApiService.Item sample_history)) !! 0%nat
  = Some [("id", JStr "t9"); ("name", JStr "scrape")].
Proof.
  destruct (saveTaskToHistory_places "t9" [("name", JStr "scrape")]
              (ApiService.Item sample_history)) as (_ & Hnew & _).
  apply Hnew. intros r Hr. cbn [ApiService.getLocalTaskHistory] in Hr.
  unfold sample_history in Hr.
  rewrite !elem_of_cons, elem_of_nil in Hr. by destruct Hr as [->|[->|[]]].
Defined.

(** X15.  Distinct ids and the bound of 100 records are kept by both writers
    of the history: by [saveTaskToHistory] for a task whose other fields do
    not name [id], and by [updateTaskInHistory] for updates that do not name
    [id]. *)
Theorem history_stays_well_kept (taskId : string) (fields : Rec) (updates : Obj)
    (st : ApiService.Stored) :
  well_kept (ApiService.getLocalTaskHistory st) →
  (OMap.get "id" fields = None →
   well_kept (ApiService.getLocalTaskHistory (ApiService.saveTaskToHistory taskId fields st))) ∧
  (OMap.get "id" updates = None →
   well_kept (ApiService.getLocalTaskHistory (ApiService.updateTaskInHistory taskId updates st))).
Proof.
  intros [Hu Hlen]. split.
  - intros Hid. unfold ApiService.saveTaskToHistory.
    cbn [ApiService.getLocalTaskHistory]. split; [|rewrite length_take; lia].
    apply unique_ids_take.
    destruct (findIndex _ _) as [k|] eqn:Hk.
    + destruct (findIndex_Some _ _ _ Hk) as (r & Hr & Hr_id).
      eapply unique_ids_same_ids; [|exact Hu].
      apply (same_ids_alter _ _ _ r Hr). rewrite get_id_saved by done.
      symmetry. by apply has_id_get.
    + apply unique_ids_cons; [|done]. intros r. by apply findIndex_None.
  - intros Hid. unfold ApiService.updateTaskInHistory.
    destruct (findIndex _ _) as [k|] eqn:Hk; [|done].
    destruct (findIndex_Some _ _ _ Hk) as (r & Hr & Hr_id).
    cbn [ApiService.getLocalTaskHistory]. split; [|by rewrite length_alter].
    eapply unique_ids_same_ids; [|exact Hu].
    apply (same_ids_alter _ _ _ r Hr). by apply get_merged_absent.
Qed.

Lemma unique_ids_nil : unique_ids [].
Proof. by intros i j r r' t Hi. Qed.

Lemma unique_ids_sample_history : unique_ids sample_history.
Proof.
  intros [|[|i]] [|[|j]] r r' t Hi Hj Hr Hr'; try done; exfalso;
    cbn in Hi, Hj; injection Hi as <-; injection Hj as <-;
    apply has_id_get in Hr; apply has_id_get in Hr'; cbn in Hr, Hr'; congruence.
Qed.

Lemma history_stays_well_kept_witness :
  well_kept sample_history ∧
  well_kept (ApiService.getLocalTaskHistory
               (ApiService.saveTaskToHistory "t9" [("name", JStr "scrape")]
                  (ApiService.Item sample_history))) ∧
  well_kept (ApiService.getLocalTaskHistory
               (ApiService.saveTaskToHistory "t2" [("status", JStr "pending")]
                  (ApiService.Item sample_history))) ∧
  well_kept (ApiService.getLocalTaskHistory
               (ApiService.updateTaskInHistory "t2" [("progress", Some (JNum 5))]
                  (ApiService.Item sample_history))).
Proof.
  assert (well_kept sample_history) as Hkept.
  { split; [apply unique_ids_sample_history|simpl; lia]. }
  destruct (history_stays_well_kept "t9" [("name", JStr "scrape")]
              [("progress", Some (JNum 5))] (ApiService.Item sample_history) Hkept)
    as [Hnew _].
  destruct (history_stays_well_kept "t2" [("status", JStr "pending")]
              [("progress", Some (JNum 5))] (ApiService.Item sample_history) Hkept)
    as [Hmerge Hupdate].
  split; [exact Hkept|]. split; [by apply Hnew|]. split; [by apply Hmerge|by apply Hupdate].
Defined.

(** X16.  A task saved by [saveTaskToHistory] is found by the write-through
    afterwards: when the history held at most 100 records, an
    [updateTaskInHistory] for the task merges the updates into its record. *)
Theorem saved_task_is_updated (taskId : string) (fields : Rec) (updates : Obj)
    (st : ApiService.Stored) :
  (length (ApiService.getLocalTaskHistory st) ≤ 100)%nat →
  OMap.get "id" fields = None →
  let saved := ApiService.saveTaskToHistory taskId fields st in
  ∃ k r,
    findIndex (ApiService.has_id taskId) (ApiService.getLocalTaskHistory saved) = Some k ∧
    ApiService.getLocalTaskHistory saved !! k = Some r ∧
    ApiService.getLocalTaskHistory (ApiService.updateTaskInHistory taskId updates saved) !! k
    = Some (ApiService.merged r updates).
Proof.
  intros Hlen Hid saved.
  assert (∃ k, findIndex (ApiService.has_id taskId) (ApiService.getLocalTaskHistory saved)
               = Some k) as [k Hk].
  { subst saved. unfold ApiService.saveTaskToHistory. cbn [ApiService.getLocalTaskHistory].
    destruct (findIndex _ (ApiService.getLocalTaskHistory st)) as [k|] eqn:Hk.
    - exists k. rewrite take_ge by (rewrite length_alter; lia).
      apply findIndex_alter; [done|]. intros r _. apply has_id_get. by apply get_id_saved.
    - exists 0%nat. cbn [take firstn findIndex]. by rewrite has_id_task, String.eqb_refl. }
  destruct (findIndex_Some _ _ _ Hk) as (r & Hr & _).
  exists k, r. split; [done|]. split; [done|].
  unfold ApiService.updateTaskInHistory. rewrite Hk.
  cbn [ApiService.getLocalTaskHistory]. by rewrite list_lookup_alter_eq, Hr.
Qed.

Lemma saved_task_is_updated_witness :
  ∃ k r,
    findIndex (ApiService.has_id "t9")
      (ApiService.getLocalTaskHistory
         (ApiService.saveTaskToHistory "t9" [("name", JStr "scrape")]
            (ApiService.Item sample_history))) = Some k ∧
    ApiService.getLocalTaskHistory
      (ApiService.saveTaskToHistory "t9" [("name", JStr "scrape")]
         (ApiService.Item sample_history)) !! k = Some r ∧
    ApiService.getLocalTaskHistory
      (ApiService.updateTaskInHistory "t9" [("progress", Some (JNum 5))]
         (ApiService.saveTaskToHistory "t9" [("name", JStr "scrape")]
            (ApiService.Item sample_history))) !! k
    = Some (ApiService.merged r [("progress", Some (JNum 5))]).
Proof.
  apply (saved_task_is_updated "t9" [("name", JStr "scrape")] [("progress", Some (JNum 5))]
           (ApiService.Item sample_history)).
  - simpl. lia.
  - reflexivity.
Defined.

(** The status object: what is stored is what the message says, property by
    property. *)
Lemma get_merged_status r status progress :
  NoDup (OMap.keys r) →
  let updates := [("status", status); ("progress", progress)] in
  OMap.get "status" (ApiService.merged r updates) = status ∧
  OMap.get "progress" (ApiService.merged r updates) = progress.
Proof.
  intros Hnd updates. subst updates. unfold ApiService.merged.
  rewrite !get_to_rec_join by (apply keys_spread; by rewrite keys_of_rec).
  unfold OMap.spread. simpl foldl. split.
  - rewrite OMapFacts.get_set_ne by done. by rewrite OMapFacts.get_set_eq.
  - by rewrite OMapFacts.get_set_eq.
Qed.

(** X17.  A status message writes both [status] and [progress] of the
    record of its task: after it, the stored status and the stored progress
    are those of the message, so a status message that carries no progress
    erases the progress that was stored; and the observers are handed
    [progress: undefined] in that case. *)
Theorem status_message_overwrites_progress (now taskId : string) (d : Rec) (w : World)
    (history : list Rec) (k : nat) (r : Rec) :
  storage w = ApiService.Item history →
  findIndex (ApiService.has_id taskId) history = Some k →
  history !! k = Some r →
  NoDup (OMap.keys r) →
  let updates := [("status", OMap.get "status" d); ("progress", OMap.get "progress" d)] in
  ∃ w' r',
    handleWebSocketMessage now
      {| m_type := "status"; m_task_id := taskId; m_data := Some (JObj d) |} w = Some w' ∧
    deliveries (trace w')
    = deliveries (trace w)
      ++ map (fun cb => CallTaskUpdate (cb_id cb) taskId updates) (taskUpdateCallbacks w) ∧
    ApiService.getLocalTaskHistory (storage w') !! k = Some r' ∧
    OMap.get "status" r' = OMap.get "status" d ∧
    OMap.get "progress" r' = OMap.get "progress" d.
Proof.
  intros Hst Hk Hr Hnd updates.
  exists (notifyTaskUpdate taskId updates w), (ApiService.merged r updates).
  split; [by apply handle_status|].
  destruct (notifyTaskUpdate_dispatch taskId updates w) as (Hd & _ & Hs & _).
  split; [exact Hd|]. rewrite Hs, Hst.
  destruct (updateTaskInHistory_present taskId updates history k r Hk Hr eq_refl)
    as (-> & _ & Hk').
  split; [exact Hk'|]. by apply get_merged_status.
Qed.

Lemma status_message_overwrites_progress_witness :
  ∃ w' r',
    handleWebSocketMessage "2024-01-01T00:00:00.000Z"
      {| m_type := "status"; m_task_id := "t2";
         m_data := Some (JObj [("status", JStr "running")]) |} stored_and_watched
    = Some w' ∧
    ApiService.getLocalTaskHistory (storage w') !! 1%nat = Some r' ∧
    OMap.get "progress" r' = None.
Proof.
  destruct (status_message_overwrites_progress "2024-01-01T00:00:00.000Z" "t2"
              [("status", JStr "running")] stored_and_watched sample_history 1%nat
              [("id", JStr "t2"); ("name", JStr "download_reports");
               ("status", JStr "running"); ("progress", JNum 40)])
    as (w' & r' & Hw' & _ & Hr' & _ & Hp).
  - reflexivity.
  - vm_compute. reflexivity.
  - vm_compute. reflexivity.
  - vm_compute. repeat constructor; rewrite ?elem_of_cons, ?elem_of_nil; intuition congruence.
  - exists w', r'. split; [exact Hw'|]. split; [exact Hr'|exact Hp].
Defined.

(* ===================================================================== *)
(** ** The page: tasks, logs, counts, subscriptions, form values *)
(* ===================================================================== *)

Lemma is_task_of_rec taskId r :
  Dashboard.is_task taskId (OMap.of_rec r) = ApiService.has_id taskId r.
Proof.
  unfold Dashboard.is_task, ApiService.has_id. rewrite OMapFacts.get_of_rec.
  by destruct (OMap.get "id" r) as [[]|].
Qed.

Lemma handleTaskUpdate_absent taskId updates (history : list Rec) :
  (∀ r, r ∈ history → ApiService.has_id taskId r = false) →
  map OMap.to_rec (Dashboard.handleTaskUpdate taskId updates (map OMap.of_rec history))
  = history.
Proof.
  induction history as [|r h IH]; intros Hfresh; [done|].
  cbn. rewrite is_task_of_rec, (Hfresh r) by apply list_elem_of_here.
  rewrite to_rec_of_rec. f_equal. apply IH.
  intros r' Hr'. by apply Hfresh, list_elem_of_further.
Qed.

(** X18.  The tasks of the page and the stored history stay in step: when
    the stored ids are distinct, the updater that [handleTaskUpdate] gives to
    [setTasks], run on the history as the page holds it, leaves what
    [updateTaskInHistory] writes for the same update. *)
Theorem page_and_storage_in_step (taskId : string) (updates : Obj) (history : list Rec) :
  unique_ids history →
  map OMap.to_rec (Dashboard.handleTaskUpdate taskId updates (map OMap.of_rec history))
  = ApiService.getLocalTaskHistory
      (ApiService.updateTaskInHistory taskId updates (ApiService.Item history)).
Proof.
  unfold ApiService.updateTaskInHistory. cbn [ApiService.getLocalTaskHistory].
  induction history as [|r h IH]; intros Hu; [done|].
  cbn [map Dashboard.handleTaskUpdate findIndex]. rewrite is_task_of_rec.
  destruct (ApiService.has_id taskId r) eqn:Hr.
  - cbn. f_equal. apply handleTaskUpdate_absent. intros r' Hr'.
    destruct (ApiService.has_id taskId r') eqn:Hid; [|done].
    apply list_elem_of_lookup_1 in Hr' as [j Hj].
    by specialize (Hu 0%nat (S j) r r' taskId eq_refl Hj Hr Hid).
  - rewrite to_rec_of_rec.
    specialize (IH (unique_ids_tail _ _ Hu)). unfold Dashboard.handleTaskUpdate in IH.
    rewrite IH. by destruct (findIndex (ApiService.has_id taskId) h).
Qed.

Lemma page_and_storage_in_step_witness :
  map OMap.to_rec
    (Dashboard.handleTaskUpdate "t2" [("progress", Some (JNum 50))]
       (map OMap.of_rec sample_history))
  = ApiService.getLocalTaskHistory
      (ApiService.updateTaskInHistory "t2" [("progress", Some (JNum 50))]
         (ApiService.Item sample_history)).
Proof.
  apply (page_and_storage_in_step "t2" [("progress", Some (JNum 50))] sample_history).
  intros [|[|i]] [|[|j]] r r' t Hi Hj Hr Hr'; try done; exfalso;
    cbn in Hi, Hj; injection Hi as <-; injection Hj as <-;
    apply has_id_get in Hr; apply has_id_get in Hr'; cbn in Hr, Hr'; congruence.
Defined.

Lemma handleLogUpdates_thrown calls :
  foldl (fun acc call => acc ≫= Dashboard.handleLogUpdate call.1 call.2) None calls = None.
Proof. by induction calls. Qed.

Lemma handleLogUpdates_cons call calls logs :
  Dashboard.handleLogUpdates (call :: calls) logs
  = Dashboard.handleLogUpdate call.1 call.2 logs ≫= Dashboard.handleLogUpdates calls.
Proof.
  unfold Dashboard.handleLogUpdates. cbn [foldl mbind option_bind].
  destruct (Dashboard.handleLogUpdate call.1 call.2 logs); [done|].
  apply handleLogUpdates_thrown.
Qed.

Lemma handleLogUpdate_lines taskId t log logs logs' :
  Dashboard.handleLogUpdate t log logs = Some logs' →
  default [] (OMap.get taskId logs')
  = default [] (OMap.get taskId logs) ++ (if String.eqb t taskId then [log] else []).
Proof.
  unfold Dashboard.handleLogUpdate.
  destruct (String.eqb t taskId) eqn:E.
  - apply String.eqb_eq in E as ->.
    destruct (OMap.get taskId logs) as [lines|].
    + intros [= <-]. by rewrite OMapFacts.get_set_eq.
    + destruct (Dashboard.inherited taskId); [done|]. intros [= <-].
      by rewrite OMapFacts.get_set_eq.
  - apply String.eqb_neq in E. rewrite app_nil_r.
    destruct (OMap.get t logs) as [lines|].
    + intros [= <-]. by rewrite OMapFacts.get_set_ne.
    + destruct (Dashboard.inherited t); [done|]. intros [= <-]. by rewrite OMapFacts.get_set_ne.
Qed.

(** X19.  As long as no updater has thrown, the log lines the page keeps for
    a task are the lines the log observer was called with for that task, in
    the order of the calls, after the lines it had; the calls for other tasks
    do not touch them.  No updater throws when no call names a task by a name
    that objects inherit; a call that does, for a task without lines, throws. *)
Theorem logs_accumulate_in_order (taskId : string) (calls : list (string * JsVal))
    (logs : list (string * list JsVal)) :
  (∀ logs', Dashboard.handleLogUpdates calls logs = Some logs' →
            default [] (OMap.get taskId logs')
            = default [] (OMap.get taskId logs) ++ lines_of taskId calls) ∧
  (Forall (fun call => Dashboard.inherited call.1 = false) calls →
   is_Some (Dashboard.handleLogUpdates calls logs)) ∧
  (∀ log, Dashboard.inherited taskId = true → OMap.get taskId logs = None →
          Dashboard.handleLogUpdate taskId log logs = None).
Proof.
  split; [|split].
  - unfold lines_of. revert logs. induction calls as [|[t log] calls IH]; intros logs logs'.
    + intros [= <-]. simpl. by rewrite app_nil_r.
    + rewrite handleLogUpdates_cons. cbn [fst snd].
      destruct (Dashboard.handleLogUpdate t log logs) as [logs1|] eqn:H1; [|done].
      cbn [mbind option_bind]. intros Hrest. rewrite (IH _ _ Hrest).
      rewrite (handleLogUpdate_lines taskId t log logs logs1 H1).
      cbn [List.filter fst snd]. rewrite <- app_assoc.
      by destruct (String.eqb t taskId).
  - revert logs. induction calls as [|[t log] calls IH]; intros logs Hok; [by eexists|].
    apply Forall_cons in Hok as [Ht Hok]. cbn [fst] in Ht.
    rewrite handleLogUpdates_cons. cbn [fst snd]. unfold Dashboard.handleLogUpdate at 1.
    rewrite Ht. destruct (OMap.get t logs); cbn [mbind option_bind]; by apply IH.
  - intros log Hin Hown. unfold Dashboard.handleLogUpdate. by rewrite Hown, Hin.
Qed.

Lemma logs_accumulate_in_order_witness :
  (∃ logs',
     Dashboard.handleLogUpdates
       [("t1", Some (JStr "a")); ("t2", Some (JStr "b")); ("t1", Some (JStr "c"))] []
     = Some logs' ∧
     default [] (OMap.get "t1" logs') = [Some (JStr "a"); Some (JStr "c")]) ∧
  Dashboard.handleLogUpdate "constructor" (Some (JStr "a")) [("t1", [Some (JStr "b")])] = None.
Proof.
  destruct (logs_accumulate_in_order "t1"
              [("t1", Some (JStr "a")); ("t2", Some (JStr "b")); ("t1", Some (JStr "c"))] [])
    as (Hlines & Hok & _).
  destruct (logs_accumulate_in_order "constructor" [] [("t1", [Some (JStr "b")])])
    as (_ & _ & Hthrow).
  split.
  - destruct Hok as [logs' Hlogs']; [repeat constructor|].
    exists logs'. split; [exact Hlogs'|]. exact (Hlines logs' Hlogs').
  - apply Hthrow; reflexivity.
Defined.

Lemma statusCounts_from (status : string) (statuses : list string)
    (acc : list (string * nat)) :
  Dashboard.shown status
    (foldl (fun acc status => OMap.set status (default 0 (OMap.get status acc) + 1)%nat acc)
       acc statuses)
  = (Dashboard.shown status acc + Dashboard.analyticsCount status statuses)%nat.
Proof.
  unfold Dashboard.shown, Dashboard.analyticsCount.
  revert acc. induction statuses as [|s l IH]; intros acc; simpl; [lia|].
  rewrite IH. destruct (String.eqb s status) eqn:E.
  - apply String.eqb_eq in E as ->. rewrite OMapFacts.get_set_eq. simpl. lia.
  - apply String.eqb_neq in E. by rewrite OMapFacts.get_set_ne.
Qed.

(** X20.  The page and the analytics tab count alike: for every status, the
    count the page shows ([statusCounts], built by one pass over the tasks)
    is the number of tasks with that status that the analytics tab finds by
    filtering. *)
Theorem page_counts_are_analytics_counts (status : string) (statuses : list string) :
  Dashboard.shown status (Dashboard.statusCounts statuses)
  = Dashboard.analyticsCount status statuses.
Proof. unfold Dashboard.statusCounts. by rewrite statusCounts_from. Qed.

Section Subscriptions.
Variable ws_ctor_throws : string → bool.

Lemma connectToTask_effect taskId w :
  connections (connectToTask ws_ctor_throws taskId w) = connections w ∧
  sockets (connectToTask ws_ctor_throws taskId w)
  = sockets w ++ (if negb (OMap.has taskId (connections w)) && negb (ws_ctor_throws taskId)
                  then [new_socket taskId] else []).
Proof.
  unfold connectToTask.
  destruct (OMap.has taskId (connections w)); [by rewrite app_nil_r|].
  destruct (ws_ctor_throws taskId); [|done]. unfold andThen.
  destruct (keeps_fallbackToPolling taskId (console (ErrCreate taskId) w)) as [-> ->].
  cbn. by rewrite app_nil_r.
Qed.

Lemma foldl_connectToTask (tasks : list (string * string)) w :
  let w' := foldl (fun acc task => connectToTask ws_ctor_throws task.1 acc) w tasks in
  connections w' = connections w ∧
  sockets w'
  = sockets w
    ++ map (fun task => new_socket task.1)
         (List.filter (fun task => negb (OMap.has task.1 (connections w)) &&
                                   negb (ws_ctor_throws task.1)) tasks).
Proof.
  revert w. induction tasks as [|[t s] tasks IH]; intros w; cbv zeta.
  - simpl. by rewrite app_nil_r.
  - cbn [foldl fst]. destruct (IH (connectToTask ws_ctor_throws t w)) as [Hc Hs].
    destruct (connectToTask_effect t w) as [Hc1 Hs1].
    rewrite Hc, Hs, Hc1, Hs1. split; [done|]. cbn [List.filter fst].
    destruct (negb (OMap.has t (connections w)) && negb (ws_ctor_throws t));
      by rewrite <- app_assoc.
Qed.

(** X21.  [loadTaskHistory] subscribes the running and the pending tasks of
    the history, in order: it builds one socket for each of them that has no
    entry in the table of connections and whose URL is accepted, and none for
    a task of another status.  The table is as it was, so loading the history
    again before a socket has opened builds the same sockets a second time. *)
Theorem loadTaskHistory_subscribes (history : list (string * string)) (w : World) :
  let built :=
    map (fun task => new_socket task.1)
      (List.filter (fun task => negb (OMap.has task.1 (connections w)) &&
                                negb (ws_ctor_throws task.1)) (runningTasks history)) in
  let w' := Dashboard.connectRunning ws_ctor_throws history w in
  connections w' = connections w ∧
  sockets w' = sockets w ++ built ∧
  sockets (Dashboard.connectRunning ws_ctor_throws history w') = sockets w ++ built ++ built.
Proof.
  intros built w'. subst built w'. unfold Dashboard.connectRunning. fold (runningTasks history).
  destruct (foldl_connectToTask (runningTasks history) w) as [Hc Hs].
  split; [exact Hc|]. split; [exact Hs|].
  destruct (foldl_connectToTask (runningTasks history)
              (foldl (fun acc task => connectToTask ws_ctor_throws task.1 acc) w
                 (runningTasks history))) as [_ Hs2].
  rewrite Hs2, Hs, Hc. by rewrite <- app_assoc.
Qed.

End Subscriptions.

Lemma set_fresh {A} k (v : A) (o : list (string * A)) :
  k ∉ OMap.keys o → OMap.set k v o = o ++ [(k, v)].
Proof.
  induction o as [|[k' v'] o IH]; simpl; [done|].
  rewrite not_elem_of_cons. intros [Hne Hk].
  apply not_eq_sym, String.eqb_neq in Hne. rewrite Hne. by rewrite IH.
Qed.

Lemma cleanedValues_from (values acc : Obj) :
  NoDup (OMap.keys acc ++ OMap.keys values) →
  foldl (fun acc kv =>
           match kv.2 with
           | None => acc
           | Some (JStr "") => acc
           | Some _ => OMap.set kv.1 kv.2 acc
           end) acc values
  = acc ++ List.filter kept_value values.
Proof.
  revert acc. induction values as [|[k v] values IH]; intros acc Hnd.
  - simpl. by rewrite app_nil_r.
  - assert ((k ∉ OMap.keys acc) ∧ NoDup (OMap.keys acc ++ OMap.keys values)) as [Hk Hnd'].
    { simpl in Hnd. apply NoDup_app in Hnd as (Ha & Hdisj & Hv).
      apply NoDup_cons in Hv as [Hkv Hv]. split.
      - intros Hin. apply (Hdisj k Hin). apply list_elem_of_here.
      - apply NoDup_app. split; [done|]. split; [|done].
        intros x Hx Hx'. apply (Hdisj x Hx). by apply list_elem_of_further. }
    assert (NoDup (OMap.keys (acc ++ [(k, v)]) ++ OMap.keys values)) as Hnd''.
    { unfold OMap.keys in *. rewrite map_app. simpl. rewrite <- app_assoc. exact Hnd. }
    cbn [foldl List.filter]. unfold kept_value at 1. cbn [fst snd].
    destruct v as [v|]; [|by apply IH].
    assert (foldl (fun acc kv =>
                     match kv.2 with
                     | None => acc
                     | Some (JStr "") => acc
                     | Some _ => OMap.set kv.1 kv.2 acc
                     end) (OMap.set k (Some v) acc) values
            = acc ++ (k, Some v) :: List.filter kept_value values) as Hkeep.
    { rewrite set_fresh by done. rewrite IH by done. by rewrite <- app_assoc. }
    destruct v as [| | |s| |]; try exact Hkeep.
    destruct s; [by apply IH|exact Hkeep].
Qed.

(** X22.  The values the task form submits are the entries of the form that
    are neither [undefined] nor the empty string, with their values, in the
    order of the form; what is [null], [false] or [0] is submitted. *)
Theorem cleanedValues_keeps_filled (values : Obj) :
  NoDup (OMap.keys values) →
  cleanedValues values = List.filter kept_value values ∧
  (∀ k v, OMap.get k (cleanedValues values) = Some v →
          v ≠ None ∧ v ≠ Some (JStr "") ∧ OMap.get k values = Some v).
Proof.
  intros Hnd.
  assert (cleanedValues values = List.filter kept_value values) as Heq.
  { unfold cleanedValues. by rewrite cleanedValues_from. }
  split; [exact Heq|]. rewrite Heq. clear Heq.
  induction values as [|[k' v'] values IH]; intros k v; simpl; [done|].
  apply NoDup_cons in Hnd as [Hk' Hnd].
  assert (String.eqb k' k = true → OMap.get k (List.filter kept_value values) = Some v →
          False) as Hfresh.
  { intros Heq Hget. apply String.eqb_eq in Heq as ->. apply Hk', elem_of_keys_get.
    destruct (IH Hnd k v Hget) as (_ & _ & Hv). eauto. }
  destruct (kept_value (k', v')) eqn:Hkept; simpl.
  - destruct (String.eqb k' k) eqn:E; [|by apply IH].
    intros [= <-]. unfold kept_value in Hkept. simpl in Hkept.
    split; [by destruct v'|]. split; [|done].
    intros ->. done.
  - destruct (String.eqb k' k) eqn:E; [|by apply IH].
    intros Hget. destruct (Hfresh eq_refl Hget).
Qed.

Lemma cleanedValues_keeps_filled_witness :
  cleanedValues [("url", Some (JStr "https://a")); ("note", Some (JStr ""));
                 ("limit", None); ("dry_run", Some (JBool false))]
  = [("url", Some (JStr "https://a")); ("dry_run", Some (JBool false))].
Proof.
  destruct (cleanedValues_keeps_filled
              [("url", Some (JStr "https://a")); ("note", Some (JStr ""));
               ("limit", None); ("dry_run", Some (JBool false))]) as [Heq _].
  - vm_compute. repeat constructor; rewrite ?elem_of_cons, ?elem_of_nil; intuition congruence.
  - exact Heq.
Defined.

(* ===================================================================== *)
(** ** Observers that throw; a failure reported twice *)
(* ===================================================================== *)

Lemma callback_errors_app l1 l2 :
  callback_errors (l1 ++ l2) = (callback_errors l1 + callback_errors l2)%nat.
Proof. unfold callback_errors. by rewrite List.filter_app, length_app. Qed.

Lemma callback_errors_update_calls taskId updates cbs :
  callback_errors (update_calls taskId updates cbs) = length (List.filter cb_throws cbs).
Proof.
  induction cbs as [|cb cbs IH]; [done|].
  unfold update_calls in *. cbn [flat_map]. rewrite callback_errors_app, IH.
  cbn [List.filter]. by destruct (cb_throws cb).
Qed.

Lemma callback_errors_log_calls taskId log cbs :
  callback_errors (log_calls taskId log cbs) = length (List.filter cb_throws cbs).
Proof.
  induction cbs as [|cb cbs IH]; [done|].
  unfold log_calls in *. cbn [flat_map]. rewrite callback_errors_app, IH.
  cbn [List.filter]. by destruct (cb_throws cb).
Qed.

(** X23.  Observers are isolated from each other: [notifyTaskUpdate] calls
    every task-update observer once, in the order of registration, whether or
    not an observer before it throws, then makes the write-through; an
    observer that throws costs one console error and nothing else.  The same
    holds for [notifyLog] and the log observers, without write-through. *)
Theorem observers_are_isolated (taskId : string) (updates : Obj) (log : JsVal) (w : World) :
  let w1 := notifyTaskUpdate taskId updates w in
  let w2 := notifyLog taskId log w in
  (deliveries (trace w1)
   = deliveries (trace w)
     ++ map (fun cb => CallTaskUpdate (cb_id cb) taskId updates) (taskUpdateCallbacks w) ∧
   persists (trace w1) = persists (trace w) ++ [Persist taskId updates] ∧
   callback_errors (trace w1)
   = (callback_errors (trace w) + length (List.filter cb_throws (taskUpdateCallbacks w)))%nat ∧
   taskUpdateCallbacks w1 = taskUpdateCallbacks w) ∧
  (deliveries (trace w2)
   = deliveries (trace w)
     ++ map (fun cb => CallLog (cb_id cb) taskId log) (logCallbacks w) ∧
   persists (trace w2) = persists (trace w) ∧
   callback_errors (trace w2)
   = (callback_errors (trace w) + length (List.filter cb_throws (logCallbacks w)))%nat ∧
   logCallbacks w2 = logCallbacks w ∧ tables w2 = tables w ∧ storage w2 = storage w).
Proof.
  intros w1 w2. subst w1 w2. split.
  - destruct (notifyTaskUpdate_dispatch taskId updates w) as (Hd & Hp & _ & Hc & _).
    split; [exact Hd|]. split; [exact Hp|]. split; [|exact Hc].
    rewrite notifyTaskUpdate_eq. cbn [trace set_storage set_trace].
    rewrite !callback_errors_app, callback_errors_update_calls.
    assert (callback_errors (Persist taskId updates :: history_warning (storage w)) = 0%nat)
      as -> by (by destruct (storage w)).
    lia.
  - rewrite notifyLog_eq. cbn [trace set_trace logCallbacks storage].
    rewrite deliveries_app, persists_app, callback_errors_app.
    rewrite deliveries_log_calls, persists_log_calls, callback_errors_log_calls.
    by rewrite app_nil_r.
Qed.

Section ReportedTwice.
Variable ws_ctor_throws : string → bool.


End ReportedTwice.


Lemma polled_status_only_stops_polling_witness :
  pollingIntervals (pollSettled "t1" (FetchOk [("status", JStr "completed")]) six_failures)
  = delete "t1" (pollingIntervals six_failures) ∧
  tables (pollSettled "t1" (FetchFail "Network Error") six_failures) = tables six_failures.
Proof.
  split.
  - destruct (polled_status_only_stops_polling "t1" (FetchOk [("status", JStr "completed")])
                six_failures) as (_ & _ & _ & _ & Hp & _).
    exact Hp.
  - destruct (polled_status_only_stops_polling "t1" (FetchFail "Network Error")
                six_failures) as (_ & _ & _ & _ & _ & Hfail).
    destruct (Hfail "Network Error" eq_refl) as [Ht _]. exact Ht.
Defined.

(* ===================================================================== *)
(** ** Durations and display names *)
(* ===================================================================== *)

(** X25.  The task table and the analytics tab show a duration alike:
    [formatDuration] of two dates and [formatTime] of a number of
    milliseconds fill in the same template with the same numbers whenever
    they are given the same number of seconds, negative ones included. *)
Theorem durations_shown_alike (startTime endTime ms : Z) :
  ((endTime - startTime + 500) / 1000 = ms / 1000)%Z →
  Display.formatDuration startTime endTime = Display.formatTime ms.
Proof.
  intros Heq. unfold Display.formatDuration, Display.formatTime. rewrite Heq.
  set (d := (ms / 1000)%Z). clearbody d. clear Heq.
  destruct (d <? 60)%Z eqn:H60.
  - apply Z.ltb_lt in H60.
    assert (d / 60 ≤ 0)%Z as Hm by (apply Z.lt_succ_r, Z.div_lt_upper_bound; lia).
    assert (d / 60 / 60 ≤ 0)%Z as Hh by (apply Z.lt_succ_r, Z.div_lt_upper_bound; lia).
    apply Z.ltb_ge in Hm, Hh. by rewrite Hm, Hh.
  - apply Z.ltb_ge in H60. destruct (d <? 3600)%Z eqn:H3600.
    + apply Z.ltb_lt in H3600.
      assert (0 < d / 60)%Z as Hm by (apply Z.div_str_pos; lia).
      assert (d / 60 / 60 ≤ 0)%Z as Hh.
      { apply Z.lt_succ_r, Z.div_lt_upper_bound; [lia|].
        apply Z.div_lt_upper_bound; lia. }
      apply Z.ltb_lt in Hm. apply Z.ltb_ge in Hh. by rewrite Hm, Hh.
    + apply Z.ltb_ge in H3600.
      assert (d / 60 / 60 = d / 3600)%Z as Hdiv by (rewrite Z.div_div by lia; done).
      assert (0 < d / 3600)%Z as Hh by (apply Z.div_str_pos; lia).
      rewrite Hdiv. apply Z.ltb_lt in Hh as Hh'. rewrite Hh'. f_equal.
      rewrite !Z.rem_mod_nonneg by (try apply Z.div_pos; lia).
      pose proof (Z.div_mod d 3600 ltac:(lia)) as H1.
      pose proof (Z.mod_pos_bound d 3600 ltac:(lia)) as H2.
      pose proof (Z.div_mod d 60 ltac:(lia)) as H3.
      pose proof (Z.mod_pos_bound d 60 ltac:(lia)) as H4.
      pose proof (Z.div_mod (d / 60) 60 ltac:(lia)) as H5.
      pose proof (Z.mod_pos_bound (d / 60) 60 ltac:(lia)) as H6.
      pose proof (Z.div_mod (d mod 3600) 60 ltac:(lia)) as H7.
      pose proof (Z.mod_pos_bound (d mod 3600) 60 ltac:(lia)) as H8.
      rewrite Hdiv in H5. lia.
Qed.

Lemma durations_shown_alike_witness :
  Display.formatDuration 1000 3726499 = Display.formatTime 3725999.
Proof. apply (durations_shown_alike 1000 3726499 3725999). reflexivity. Defined.

(** X26.  The numbers shown add up to the duration: for a duration that is
    not negative, seconds alone are below a minute and exact; minutes and
    seconds are exact, below an hour, with seconds below 60; hours and minutes
    are short of the duration by less than a minute, with minutes below 60. *)
Theorem formatTime_adds_up (ms : Z) :
  (0 ≤ ms)%Z →
  let seconds := (ms / 1000)%Z in
  match Display.formatTime ms with
  | Display.ShownSeconds s => s = seconds ∧ (0 ≤ s < 60)%Z
  | Display.ShownMinutes m s =>
      (60 * m + s = seconds)%Z ∧ (1 ≤ m < 60)%Z ∧ (0 ≤ s < 60)%Z
  | Display.ShownHours h m =>
      (3600 * h + 60 * m ≤ seconds < 3600 * h + 60 * m + 60)%Z ∧
      (1 ≤ h)%Z ∧ (0 ≤ m < 60)%Z
  end.
Proof.
  intros Hms seconds. unfold Display.formatTime. fold seconds.
  assert (0 ≤ seconds)%Z as Hs by (apply Z.div_pos; lia). clearbody seconds.
  assert (0 ≤ seconds / 60)%Z as Hm by (apply Z.div_pos; lia).
  pose proof (Z.div_mod seconds 60 ltac:(lia)) as H1.
  pose proof (Z.mod_pos_bound seconds 60 ltac:(lia)) as H2.
  pose proof (Z.div_mod (seconds / 60) 60 ltac:(lia)) as H3.
  pose proof (Z.mod_pos_bound (seconds / 60) 60 ltac:(lia)) as H4.
  destruct (0 <? seconds / 60 / 60)%Z eqn:Hh.
  - apply Z.ltb_lt in Hh. rewrite Z.rem_mod_nonneg by lia. lia.
  - apply Z.ltb_ge in Hh. destruct (0 <? seconds / 60)%Z eqn:Hm'.
    + apply Z.ltb_lt in Hm'. rewrite Z.rem_mod_nonneg by lia. lia.
    + apply Z.ltb_ge in Hm'. lia.
Qed.

Lemma formatTime_adds_up_witness :
  match Display.formatTime 3725999 with
  | Display.ShownHours h m => (1 ≤ h)%Z ∧ (0 ≤ m < 60)%Z
  | _ => False
  end.
Proof.
  pose proof (formatTime_adds_up 3725999 ltac:(lia)) as H.
  cbv zeta in H. change (Display.formatTime 3725999) with (Display.ShownHours 1 2) in *.
  destruct H as (_ & Hh & Hm). split; [exact Hh|exact Hm].
Defined.

(** X27.  A task always has a name to show: [getTaskDisplayName] gives the
    display name of the first type of the table with that name when there is
    one and it is not empty, and gives the name itself back otherwise; so what
    is shown for a name that is not empty is not empty. *)
Theorem getTaskDisplayName_never_empty (TASK_TYPES : list Display.TaskType) (name : string) :
  (name ≠ "" → Display.getTaskDisplayName TASK_TYPES name ≠ "") ∧
  ((∀ task, task ∈ TASK_TYPES → Display.tt_name task ≠ name) →
   Display.getTaskDisplayName TASK_TYPES name = name) ∧
  (∀ task, Display.getTaskType TASK_TYPES name = Some task →
           task ∈ TASK_TYPES ∧ Display.tt_name task = name).
Proof.
  unfold Display.getTaskDisplayName, Display.getTaskType. split; [|split].
  - intros Hname. destruct (List.find _ _) as [task|]; [|done].
    destruct (String.eqb (Display.tt_display_name task) "") eqn:E; [done|].
    by apply String.eqb_neq.
  - intros Hfresh.
    destruct (List.find _ _) as [task|] eqn:Hfind; [|done].
    apply List.find_some in Hfind as [Hin Hname].
    apply String.eqb_eq in Hname. apply list_elem_of_In in Hin.
    by destruct (Hfresh task Hin).
  - intros task Hfind. apply List.find_some in Hfind as [Hin Hname].
    split; [by apply list_elem_of_In|by apply String.eqb_eq].
Qed.

Lemma getTaskDisplayName_never_empty_witness :
  Display.getTaskDisplayName
    [{| Display.tt_name := "approve_batches"; Display.tt_display_name := "Approve Batches" |}]
    "unknown_task" = "unknown_task".
Proof.
  apply (proj1 (proj2 (getTaskDisplayName_never_empty
                         [{| Display.tt_name := "approve_batches";
                             Display.tt_display_name := "Approve Batches" |}]
                         "unknown_task"))).
  intros task Htask. apply list_elem_of_singleton in Htask. by rewrite Htask.
Defined.

(* ===================================================================== *)
(** ** A status request under way *)
(* ===================================================================== *)

Lemma disconnect_fetches taskId w : fetches (disconnect taskId w) = fetches w.
Proof.
  unfold disconnect, andThen. cbn.
  destruct (stopPolling_frame taskId
              match OMap.get taskId (connections w) with
              | Some ws => set_connections (OMap.delete taskId) (ws_close ws 1000 w)
              | None => w
              end) as (_ & _ & _ & _ & _ & _ & _ & -> & _).
  by destruct (OMap.get taskId (connections w)).
Qed.

Lemma polled_status_fields taskId res w :
  connections (pollSettled taskId res w) = connections w ∧
  reconnectAttempts (pollSettled taskId res w) = reconnectAttempts w ∧
  pollingIntervals (pollSettled taskId res w)
  = match res with
    | FetchOk status =>
        if terminal_status status then delete taskId (pollingIntervals w)
        else pollingIntervals w
    | FetchFail _ => pollingIntervals w
    end.
Proof.
  destruct res as [status|message]; unfold pollSettled; [|done].
  unfold andThen, terminal_status.
  destruct (notifyTaskUpdate_fields taskId (OMap.of_rec status) w)
    as (Hc & Hs & Hr & Ht & Hp).
  set (v := notifyTaskUpdate taskId (OMap.of_rec status) w) in *.
  destruct (stopPolling_frame taskId v) as (Hc' & Hr' & _).
  pose proof (stopPolling_pollingIntervals taskId v) as Hp'.
  destruct (OMap.get "status" status) as [[]|]; try done.
  destruct (_ || _); [|done]. by rewrite Hc', Hr', Hp', Hc, Hr, Hp.
Qed.

Section UnderWay.
Variable ws_ctor_throws : string → bool.

(** X28.  [disconnect] does not reach a status request of the polling that
    is under way: when the request settles after it, the status is handed to
    every task-update observer and written through as if the task were still
    watched; the service holds nothing for the task afterwards all the same. *)
Theorem request_under_way_outlives_disconnect (taskId : string) (k : nat) (status : Rec)
    (w : World) :
  fetches w !! k = Some taskId →
  ∃ w',
    step ws_ctor_throws (FetchSettles k (FetchOk status)) (disconnect taskId w) = Some w' ∧
    deliveries (trace w')
    = deliveries (trace w)
      ++ map (fun cb => CallTaskUpdate (cb_id cb) taskId (OMap.of_rec status))
           (taskUpdateCallbacks w) ∧
    persists (trace w') = persists (trace w) ++ [Persist taskId (OMap.of_rec status)] ∧
    entry taskId w' = (None, None, None).
Proof.
  intros Hk.
  set (v := set_fetches (delete k) (disconnect taskId w)).
  exists (pollSettled taskId (FetchOk status) v). split.
  { unfold step. by rewrite disconnect_fetches, Hk. }
  destruct (pollSettled_dispatch taskId status v) as (Hd & Hp & _).
  destruct (disconnect_quiet taskId w) as (Hd' & Hp' & _ & Hc' & _).
  split; [|split].
  - rewrite Hd. change (trace v) with (trace (disconnect taskId w)).
    change (taskUpdateCallbacks v) with (taskUpdateCallbacks (disconnect taskId w)).
    by rewrite Hd', Hc'.
  - rewrite Hp. change (trace v) with (trace (disconnect taskId w)). by rewrite Hp'.
  - destruct (polled_status_fields taskId (FetchOk status) v) as (Hc & Hr & Hpoll).
    unfold entry. rewrite Hc, Hr, Hpoll.
    change (connections v) with (connections (disconnect taskId w)).
    change (reconnectAttempts v) with (reconnectAttempts (disconnect taskId w)).
    change (pollingIntervals v) with (pollingIntervals (disconnect taskId w)).
    rewrite disconnect_connections, disconnect_reconnectAttempts,
      disconnect_pollingIntervals, OMapFacts.get_delete_eq.
    destruct (terminal_status status); by rewrite !lookup_delete_eq.
Qed.

End UnderWay.

Lemma request_under_way_outlives_disconnect_witness :
  ∃ w',
    step accepts_all (FetchSettles 0 (FetchOk [("status", JStr "running")]))
      (disconnect "t1" request_under_way) = Some w' ∧
    persists (trace w')
    = persists (trace request_under_way)
      ++ [Persist "t1" (OMap.of_rec [("status", JStr "running")])].
Proof.
  destruct (request_under_way_outlives_disconnect accepts_all "t1" 0%nat
              [("status", JStr "running")] request_under_way) as (w' & Hstep & _ & Hp & _).
  - vm_compute. reflexivity.
  - exists w'. split; [exact Hstep|exact Hp].
Defined.
